(** * The comparison machinery of the [docker_container] module

    A shallow embedding of the parts of
    [lib/ansible/modules/cloud/docker/docker_container.py] that decide how a
    requested container configuration is compared with the configuration
    reported by the Docker daemon:

    - [Container.has_different_configuration], the loop that compares every
      tracked property and records the mismatches;
    - [AnsibleDockerClientContainer._parse_comparisons], which builds the
      table of comparison strategies from the argument spec and the
      [comparisons] module parameter;
    - [ContainerManager.container_remove] and [ContainerManager.container_stop],
      with their unpause-and-retry loop.

    Python values are embedded as the type [value]; exceptions and
    [fail_json] exits are the [Err] results of a small error monad. *)

From Stdlib Require Import ZArith Ascii.
From Stdlib Require OrderedTypeEx.
From stdpp Require Import gmap strings list fin_maps sorting lexico pretty.

(** ** Failures *)

(** What ends a run of the module early: [fail_json] (the module's [fail]
    methods all end there) or an exception nobody catches. *)
Inductive exn :=
| fail_json (msg : string)
| KeyError (key : string)
| AttributeError (attr : string)
| TypeError (what : string).

Inductive result (A : Type) :=
| Ok (a : A)
| Err (e : exn).
Arguments Ok {A} a.
Arguments Err {A} e.

Definition bind {A B} (m : result A) (f : A → result B) : result B :=
  match m with
  | Ok a => f a
  | Err e => Err e
  end.

Notation "'let*' x ':=' m 'in' k" := (bind m (λ x, k))
  (at level 10, x name, m at level 100, k at level 200,
   format "'[v' 'let*'  x  ':='  m  'in' '/' k ']'").

(** Runs [f] on the items of a list in order, up to the first failure. *)
Fixpoint traverse {A B} (f : A → result B) (l : list A) : result (list B) :=
  match l with
  | [] => Ok []
  | x :: l' => let* y := f x in let* ys := traverse f l' in Ok (y :: ys)
  end.

(** [if cond: self.fail(msg)]. *)
Definition fail_if (cond : bool) (msg : string) : result unit :=
  if cond then Err (fail_json msg) else Ok tt.

(** [d[key]] on an optional entry: a missing key raises [KeyError]. *)
Definition getitem {A} (o : option A) (key : string) : result A :=
  match o with
  | Some a => Ok a
  | None => Err (KeyError key)
  end.

(** ** Python values *)

(** The values that module parameters and the daemon's inspect results are
    made of.  A [dict] is the list of its items in insertion order; its keys
    are strings. *)
#[warnings="-register-all"]
Inductive value :=
| VNone
| VBool (b : bool)
| VInt (z : Z)
| VStr (s : string)
| VList (l : list value)
| VDict (d : list (string * value)).

(** Truth value of an object, as [if x:] and [not x] take it. *)
Definition truthy (v : value) : bool :=
  match v with
  | VNone => false
  | VBool b => b
  | VInt z => negb (z =? 0)%Z
  | VStr s => negb (String.eqb s "")
  | VList l => match l with [] => false | _ => true end
  | VDict d => match d with [] => false | _ => true end
  end.

Definition is_None (v : value) : bool :=
  match v with VNone => true | _ => false end.

(** [bool] and [int] compare by their number. *)
Definition number_of (v : value) : option Z :=
  match v with
  | VBool b => Some (Z.b2z b)
  | VInt z => Some z
  | _ => None
  end.

(** Lookup in the items of a dict. *)
Fixpoint dict_lookup {A} (d : list (string * A)) (key : string) : option A :=
  match d with
  | [] => None
  | (k, v) :: d' => if String.eqb k key then Some v else dict_lookup d' key
  end.

(** [d[key] = v]: replaces the value of a key in place, a new key goes last. *)
Fixpoint dict_set {A} (d : list (string * A)) (key : string) (v : A)
  : list (string * A) :=
  match d with
  | [] => [(key, v)]
  | (k, w) :: d' =>
      if String.eqb k key then (k, v) :: d' else (k, w) :: dict_set d' key v
  end.

(** [d.update(e)]. *)
Definition dict_update {A} (d e : list (string * A)) : list (string * A) :=
  foldl (λ acc kv, dict_set acc kv.1 kv.2) d e.

(** Python's [==].  Lists are equal item by item; dicts are equal when they
    have the same keys with equal values, whatever the insertion order. *)
Fixpoint py_eq (a b : value) {struct a} : bool :=
  match a, b with
  | VNone, VNone => true
  | VStr s, VStr t => String.eqb s t
  | VBool x, (VBool _ | VInt _) | VInt x, (VBool _ | VInt _) =>
      match number_of a, number_of b with
      | Some m, Some n => (m =? n)%Z
      | _, _ => false
      end
  | VList l, VList m =>
      (fix items (l m : list value) {struct l} : bool :=
         match l, m with
         | [], [] => true
         | x :: l', y :: m' => py_eq x y && items l' m'
         | _, _ => false
         end) l m
  | VDict d, VDict e =>
      Nat.eqb (length d) (length e)
      && forallb (λ kv : string * value,
           existsb (λ kv' : string * value,
             String.eqb kv.1 kv'.1 && py_eq kv.2 kv'.2) e) d
  | _, _ => false
  end.

(** [v == s] for a string literal [s]. *)
Definition is_str (v : value) (s : string) : bool :=
  match v with VStr t => String.eqb t s | _ => false end.

(** [d.get(key, default)]; anything but a dict has no [get]. *)
Definition py_get_default (d : value) (key : string) (dflt : value)
  : result value :=
  match d with
  | VDict items => Ok (default dflt (dict_lookup items key))
  | _ => Err (AttributeError "get")
  end.

Definition py_get (d : value) (key : string) : result value :=
  py_get_default d key VNone.

(** [d[key]]. *)
Definition py_getitem (d : value) (key : string) : result value :=
  match d with
  | VDict items => getitem (dict_lookup items key) key
  | _ => Err (TypeError "object is not subscriptable")
  end.

(** [needle in haystack] on strings. *)
Fixpoint is_prefix (p s : string) : bool :=
  match p, s with
  | EmptyString, _ => true
  | String a p', String b s' => Ascii.eqb a b && is_prefix p' s'
  | String _ _, EmptyString => false
  end.

Fixpoint str_contains (needle haystack : string) : bool :=
  is_prefix needle haystack
  || match haystack with
     | EmptyString => false
     | String _ rest => str_contains needle rest
     end.

(** [repr] and [str], as Python 3 prints the values of the model.  A string
    is put between single quotes, or between double quotes when it holds a
    single quote and no double quote; the quote, the backslash and the
    control characters are escaped. *)
Definition backslash : Ascii.ascii := "092"%char.

Definition double_quote_char : Ascii.ascii := "034"%char.

Definition hex_digit (n : nat) : string :=
  String.substring n 1 "0123456789abcdef".

Definition repr_char (quote c : Ascii.ascii) : string :=
  if Ascii.eqb c quote || Ascii.eqb c backslash
  then String backslash (String c "")
  else if Ascii.eqb c "009"%char then String backslash "t"
  else if Ascii.eqb c "010"%char then String backslash "n"
  else if Ascii.eqb c "013"%char then String backslash "r"
  else
    let n := Ascii.nat_of_ascii c in
    if (n <? 32) || (n =? 127)
    then String backslash "x" +:+ hex_digit (n / 16) +:+ hex_digit (n mod 16)
    else String c "".

Fixpoint repr_chars (quote : Ascii.ascii) (s : string) : string :=
  match s with
  | EmptyString => ""
  | String c s' => repr_char quote c +:+ repr_chars quote s'
  end.

Definition py_repr_str (s : string) : string :=
  let quote :=
    if str_contains "'" s
       && negb (str_contains (String double_quote_char "") s)
    then double_quote_char else "'"%char in
  String quote (repr_chars quote s) +:+ String quote "".

Fixpoint py_repr (v : value) : string :=
  match v with
  | VNone => "None"
  | VBool b => if b then "True" else "False"
  | VInt z => pretty z
  | VStr s => py_repr_str s
  | VList l => "[" +:+ String.concat ", " (map py_repr l) +:+ "]"
  | VDict d =>
      "{" +:+ String.concat ", "
                (map (λ kv : string * value,
                        py_repr_str kv.1 +:+ ": " +:+ py_repr kv.2) d)
      +:+ "}"
  end.

(** [str(v)], which ['%s' % v] prints. *)
Definition py_str (v : value) : string :=
  match v with
  | VStr s => s
  | _ => py_repr v
  end.

(** ** Ordering and [sorted] *)

(** Python's [<].  Strings are ordered by their characters, numbers by their
    value, lists by their first differing item; other pairs of values have no
    order and raise [TypeError]. *)
Fixpoint py_lt (a b : value) {struct a} : result bool :=
  match a, b with
  | VStr s, VStr t => Ok (String.ltb s t)
  | VList l, VList m =>
      (fix items (l m : list value) {struct l} : result bool :=
         match l, m with
         | [], [] => Ok false
         | [], _ :: _ => Ok true
         | _ :: _, [] => Ok false
         | x :: l', y :: m' => if py_eq x y then items l' m' else py_lt x y
         end) l m
  | _, _ =>
      match number_of a, number_of b with
      | Some m, Some n => Ok (m <? n)%Z
      | _, _ => Err (TypeError "'<' not supported")
      end
  end.

(** The items of a dict are [(key, value)] tuples; tuples and lists of tuples
    compare by their first differing component. *)
Definition tuple_eq (x y : string * value) : bool :=
  String.eqb x.1 y.1 && py_eq x.2 y.2.

Definition tuple_lt (x y : string * value) : result bool :=
  if negb (String.eqb x.1 y.1) then Ok (String.ltb x.1 y.1)
  else if py_eq x.2 y.2 then Ok false
  else py_lt x.2 y.2.

Fixpoint items_lt (l m : list (string * value)) : result bool :=
  match l, m with
  | [], [] => Ok false
  | [], _ :: _ => Ok true
  | _ :: _, [] => Ok false
  | x :: l', y :: m' => if tuple_eq x y then items_lt l' m' else tuple_lt x y
  end.

Section sorted.
Context {A K : Type} (key : A → result K) (lt : K → K → result bool).

(** [x] goes in front of the first item that is not smaller than it, so that
    items with equal keys keep their order (the sort is stable). *)
Fixpoint insert_by (x : K * A) (l : list (K * A)) : result (list (K * A)) :=
  match l with
  | [] => Ok [x]
  | y :: l' =>
      let* smaller := lt y.1 x.1 in
      if smaller : bool then let* l'' := insert_by x l' in Ok (y :: l'')
      else Ok (x :: y :: l')
  end.

Fixpoint sort_decorated (l : list (K * A)) : result (list (K * A)) :=
  match l with
  | [] => Ok []
  | x :: l' => let* s := sort_decorated l' in insert_by x s
  end.

(** [sorted(l, key=key)]: the keys are computed first, then the items are
    ordered by them. *)
Definition sorted_by (l : list A) : result (list A) :=
  let* decorated := traverse (λ a, let* k := key a in Ok (k, a)) l in
  let* s := sort_decorated decorated in
  Ok (s.*2).
End sorted.

(** What iterating over a value yields. *)
Definition py_iter (v : value) : result (list value) :=
  match v with
  | VList l => Ok l
  | VDict d => Ok (VStr <$> d.*1)
  | VStr s => Ok ((λ c, VStr (String c EmptyString)) <$> String.list_ascii_of_string s)
  | _ => Err (TypeError "object is not iterable")
  end.

(** [sorted(p)]. *)
Definition sorted (p : value) : result value :=
  let* l := py_iter p in
  let* s := sorted_by Ok py_lt l in
  Ok (VList s).

(** [sorted(x.items())]. *)
Definition sorted_items (x : value) : result (list (string * value)) :=
  match x with
  | VDict d => sorted_by Ok tuple_lt d
  | _ => Err (AttributeError "items")
  end.

(** [sorted(p, key=lambda x: sorted(x.items()))]. *)
Definition sorted_dicts (p : value) : result value :=
  let* l := py_iter p in
  let* s := sorted_by sorted_items items_lt l in
  Ok (VList s).

(** ** The comparator and the difference tracker

    [compare_generic] and [DifferenceTracker] are imported from
    [ansible.module_utils.docker.common]. *)

Inductive comparison_mode := strict | ignore | allow_more_present.

Inductive value_type :=
| type_value       (* 'value': a scalar *)
| type_list        (* 'list': an ordered list *)
| type_set         (* 'set': a list whose order does not matter *)
| type_dict        (* 'dict' *)
| type_set_dict.   (* 'set(dict)': an unordered list of dicts *)

#[global] Instance comparison_mode_eq_dec : EqDecision comparison_mode.
Proof. solve_decision. Defined.
#[global] Instance value_type_eq_dec : EqDecision value_type.
Proof. solve_decision. Defined.

Module Comparator.

(** Shape-specific defaulting of an absent value. *)
Definition normalize (type : value_type) (v : value) : value :=
  match v, type with
  | VNone, (type_list | type_set | type_set_dict) => VList []
  | VNone, type_dict => VDict []
  | _, _ => v
  end.

(** Takes the first item equal to [x] out of [l]. *)
Fixpoint remove_first (eqb : value → value → bool) (x : value)
    (l : list value) : option (list value) :=
  match l with
  | [] => None
  | y :: l' =>
      if eqb x y then Some l'
      else cons y <$> remove_first eqb x l'
  end.

(** Equal as multisets. *)
Fixpoint multiset_eq (eqb : value → value → bool) (l m : list value) : bool :=
  match l with
  | [] => match m with [] => true | _ => false end
  | x :: l' =>
      match remove_first eqb x m with
      | Some m' => multiset_eq eqb l' m'
      | None => false
      end
  end.

(** Equal as ordered sequences. *)
Fixpoint sequence_eq (l m : list value) : bool :=
  match l, m with
  | [] , [] => true
  | x :: l', y :: m' => py_eq x y && sequence_eq l' m'
  | _, _ => false
  end.

(** Every element of [l] is present in [m]. *)
Definition all_present (eqb : value → value → bool) (l m : list value) : bool :=
  forallb (λ x, existsb (eqb x) m) l.

(** Every key of [d] exists in [e] with an equal value. *)
Definition dict_included (d e : list (string * value)) : bool :=
  forallb (λ kv, existsb (tuple_eq kv) e) d.

(** Equal key sets and equal values per key. *)
Definition dict_eq (d e : list (string * value)) : bool :=
  dict_included d e && dict_included e d.

(** Two dicts of a set of dicts are equivalent when the keys given in the
    desired one match exactly; more keys in the observed one are
    tolerated. *)
Definition dict_equivalent (a b : value) : bool :=
  match a, b with
  | VDict d, VDict e => dict_included d e
  | _, _ => py_eq a b
  end.

(** Equality of the elements of a strict set of dicts. *)
Definition element_eq (a b : value) : bool :=
  match a, b with
  | VDict d, VDict e => dict_eq d e
  | _, _ => py_eq a b
  end.

End Comparator.

(** Modelled from the spec: the Comparator of
    [ansible.module_utils.docker.common], which is not among the sources.
    [a] is the desired value and [b] the observed one, [method] the strategy
    and [type] the value shape.  The observed value is first normalized for
    its shape (null becomes the empty list or dict).  [ignore] always matches.
    [strict]: exact equality for a scalar, equality as ordered sequences for a
    list, as multisets for a set, equal key sets and equal values per key for
    a dict.  [allow_more_present]: every element of the desired set is in the
    observed one; every key of the desired dict is in the observed one with an
    equal value; every dict of the desired set of dicts has an equivalent dict
    in the observed one.  The spec gives no rule for [strict] on a set of
    dicts, which is compared as a set here, nor for [allow_more_present] on an
    ordered list, compared by the rule for sets, nor on a scalar, a
    combination it rejects when the table is built and which is exact
    equality here.  Values that do not have the shape that [type] announces
    are compared for exact equality. *)
Definition compare_generic (a b : value) (method : comparison_mode)
    (type : value_type) : bool :=
  let b := Comparator.normalize type b in
  match method with
  | ignore => true
  | strict =>
      match type, a, b with
      | type_list, VList l, VList m => Comparator.sequence_eq l m
      | type_set, VList l, VList m => Comparator.multiset_eq py_eq l m
      | type_set_dict, VList l, VList m =>
          Comparator.multiset_eq Comparator.element_eq l m
      | type_dict, VDict d, VDict e => Comparator.dict_eq d e
      | _, _, _ => py_eq a b
      end
  | allow_more_present =>
      match type, a, b with
      | (type_list | type_set), VList l, VList m =>
          Comparator.all_present py_eq l m
      | type_set_dict, VList l, VList m =>
          Comparator.all_present Comparator.dict_equivalent l m
      | type_dict, VDict d, VDict e => Comparator.dict_included d e
      | _, _, _ => py_eq a b
      end
  end.

(** One recorded mismatch: the name of the property, the requested value and
    the value of the existing container. *)
Record Difference := {
  name : string;
  parameter : value;
  active : value;
}.

Module DifferenceTracker.

(** Modelled from the spec: the DifferenceTracker of
    [ansible.module_utils.docker.common], which is not among the sources:
    the ordered sequence of the recorded differences. *)
Definition t := list Difference.

Definition new : t := [].

(** Modelled from the spec: [add] of the DifferenceTracker appends one
    Difference; a later call for a property that is already recorded
    overwrites its entry. *)
Fixpoint add (self : t) (name' : string) (parameter' active' : value) : t :=
  match self with
  | [] => [{| name := name'; parameter := parameter'; active := active' |}]
  | d :: self' =>
      if String.eqb (name d) name'
      then {| name := name'; parameter := parameter'; active := active' |} :: self'
      else d :: add self' name' parameter' active'
  end.

(** Modelled from the spec: [isEmpty] of the DifferenceTracker, the [empty]
    property of the code, is true iff no Difference is recorded. *)
Definition empty (self : t) : bool :=
  match self with [] => true | _ => false end.

End DifferenceTracker.

(** ** [Container]: comparing a container with the requested parameters *)

(** An entry of the [comparisons] table of the client: the dict
    [dict(type=..., comparison=..., name=...)]. *)
Record compare_spec := {
  c_type : value_type;
  c_comparison : comparison_mode;
  c_name : string;
}.

(** An entry of [option_minimal_versions]; only its ['supported'] item, which
    may be missing, is read here. *)
Record minimal_version := {
  supported : option bool;
}.

(** A [LooseVersion], by its numeric components. *)
Fixpoint LooseVersion_lt (a b : list nat) : bool :=
  match a, b with
  | [], [] => false
  | [], _ :: _ => true
  | _ :: _, [] => false
  | x :: a', y :: b' =>
      if (x <? y)%nat then true
      else if (y <? x)%nat then false
      else LooseVersion_lt a' b'
  end.

(** What the methods below read of [AnsibleDockerClientContainer]. *)
Record Client := {
  comparisons : gmap string compare_spec;
  option_minimal_versions : gmap string minimal_version;
  docker_api_version : list nat;
}.

(** [TaskParameters]: the attributes of the object, by name, and its client.
    When the comparison loop runs, the [expected_*] attributes have been
    assigned (the first statements of [has_different_configuration]). *)
Record TaskParameters := {
  attributes : gmap string value;
  client : Client;
}.

(** [getattr(self.parameters, key)] and [getattr(self.parameters, key, None)]. *)
Definition getattr (p : TaskParameters) (key : string) : result value :=
  match attributes p !! key with
  | Some v => Ok v
  | None => Err (AttributeError key)
  end.

Definition getattr_default (p : TaskParameters) (key : string) (dflt : value)
  : value :=
  default dflt (attributes p !! key).

(** A for loop whose body may raise. *)
Fixpoint for_each {A S} (body : S → A → result S) (l : list A) (st : S)
  : result S :=
  match l with
  | [] => Ok st
  | x :: l' => let* st' := body st x in for_each body l' st'
  end.

Module Container.

Record t := {
  container : value;
  parameters : TaskParameters;
}.

(** [self.parameters_map], as [__init__] fills it. *)
Definition parameters_map : gmap string string :=
  list_to_map [
    ("expected_links", "links");
    ("expected_ports", "expected_ports");
    ("expected_exposed", "exposed_ports");
    ("expected_volumes", "volumes");
    ("expected_ulimits", "ulimits");
    ("expected_sysctls", "sysctls");
    ("expected_etc_hosts", "etc_hosts");
    ("expected_env", "env");
    ("expected_entrypoint", "entrypoint");
    ("expected_binds", "volumes");
    ("expected_cmd", "command");
    ("expected_devices", "devices");
    ("expected_healthcheck", "healthcheck")
  ].

Definition _compare (a b : value) (compare : compare_spec) : bool :=
  compare_generic a b (c_comparison compare) (c_type compare).

Definition _normalize_port (port : string) : string :=
  if negb (str_contains "/" port) then port +:+ "/tcp" else port.

(** [d.keys()]. *)
Definition py_keys (d : value) : result (list string) :=
  match d with
  | VDict items => Ok items.*1
  | _ => Err (AttributeError "keys")
  end.

(** Evaluates the keyword arguments of a [dict(...)] call in order. *)
Definition dict_of (entries : list (string * result value))
  : result (list (string * value)) :=
  traverse (λ kv : string * result value, let* v := kv.2 in Ok (kv.1, v)) entries.

(** The options that are handled as configuration changes when
    [update_container] is not available. *)
Definition limits_mapping (host_config : value)
  : list (string * result value) := [
    ("blkio_weight", py_get host_config "BlkioWeight");
    ("cpu_period", py_get host_config "CpuPeriod");
    ("cpu_quota", py_get host_config "CpuQuota");
    ("cpu_shares", py_get host_config "CpuShares");
    ("cpuset_cpus", py_get host_config "CpusetCpus");
    ("cpuset_mems", py_get host_config "CpusetMems");
    ("kernel_memory", py_get host_config "KernelMemory");
    ("memory", py_get host_config "Memory");
    ("memory_reservation", py_get host_config "MemoryReservation");
    ("memory_swap", py_get host_config "MemorySwap")
  ].

(** The [dict(...)] that maps the parameters to the inspect results. *)
Definition base_mapping (host_config config network restart_policy : value)
    (detach : bool) (expected_exposed : list value)
  : list (string * result value) := [
    ("expected_cmd", py_get config "Cmd");
    ("domainname", py_get config "Domainname");
    ("hostname", py_get config "Hostname");
    ("user", py_get config "User");
    ("detach", Ok (VBool detach));
    ("init", py_get host_config "Init");
    ("interactive", py_get config "OpenStdin");
    ("capabilities", py_get host_config "CapAdd");
    ("cap_drop", py_get host_config "CapDrop");
    ("expected_devices", py_get host_config "Devices");
    ("dns_servers", py_get host_config "Dns");
    ("dns_opts", py_get host_config "DnsOptions");
    ("dns_search_domains", py_get host_config "DnsSearch");
    ("expected_env",
      let* env := py_get config "Env" in Ok (if truthy env then env else VList []));
    ("expected_entrypoint", py_get config "Entrypoint");
    ("expected_etc_hosts", py_getitem host_config "ExtraHosts");
    ("expected_exposed", Ok (VList expected_exposed));
    ("groups", py_get host_config "GroupAdd");
    ("ipc_mode", py_get host_config "IpcMode");
    ("labels", py_get config "Labels");
    ("expected_links", py_get host_config "Links");
    ("mac_address", py_get network "MacAddress");
    ("memory_swappiness", py_get host_config "MemorySwappiness");
    ("network_mode", py_get host_config "NetworkMode");
    ("userns_mode", py_get host_config "UsernsMode");
    ("oom_killer", py_get host_config "OomKillDisable");
    ("oom_score_adj", py_get host_config "OomScoreAdj");
    ("pid_mode", py_get host_config "PidMode");
    ("privileged", py_get host_config "Privileged");
    ("expected_ports", py_get host_config "PortBindings");
    ("read_only", py_get host_config "ReadonlyRootfs");
    ("restart_policy", py_get restart_policy "Name");
    ("runtime", py_get host_config "Runtime");
    ("shm_size", py_get host_config "ShmSize");
    ("security_opts", py_get host_config "SecurityOpt");
    ("stop_signal", py_get config "StopSignal");
    ("tmpfs", py_get host_config "Tmpfs");
    ("tty", py_get config "Tty");
    ("expected_ulimits", py_get host_config "Ulimits");
    ("expected_sysctls", py_get host_config "Sysctls");
    ("uts", py_get host_config "UTSMode");
    ("expected_volumes", py_get config "Volumes");
    ("expected_binds", py_get host_config "Binds");
    ("volume_driver", py_get host_config "VolumeDriver");
    ("volumes_from", py_get host_config "VolumesFrom");
    ("working_dir", py_get config "WorkingDir");
    ("publish_all_ports", py_get host_config "PublishAllPorts");
    ("expected_healthcheck", py_get config "Healthcheck");
    ("disable_healthcheck",
      let* healthcheck := py_get config "Healthcheck" in
      if negb (truthy healthcheck) then Ok (VBool true)
      else let* test := py_get healthcheck "Test" in
           Ok (VBool (py_eq test (VList [VStr "NONE"]))));
    ("device_read_bps", py_get host_config "BlkioDeviceReadBps");
    ("device_write_bps", py_get host_config "BlkioDeviceWriteBps");
    ("device_read_iops", py_get host_config "BlkioDeviceReadIOps");
    ("device_write_iops", py_get host_config "BlkioDeviceWriteIOps");
    ("pids_limit", py_get host_config "PidsLimit")
  ].

(** [option_minimal_versions[option]['supported']]. *)
Definition option_supported (c : Client) (option : string) : result bool :=
  let* minimal := getitem (option_minimal_versions c !! option) option in
  getitem (supported minimal) "supported".

(** The first part of [has_different_configuration], from the checks of the
    inspect result to the complete [config_mapping]. *)
Definition config_mapping (self : t) : result (list (string * value)) :=
  let params := parameters self in
  let* host_config := py_get (container self) "HostConfig" in
  let* _ := fail_if (negb (truthy host_config))
        "has_config_diff: Error parsing container properties. HostConfig missing." in
  let* config := py_get (container self) "Config" in
  let* _ := fail_if (negb (truthy config))
        "has_config_diff: Error parsing container properties. Config missing." in
  let* network := py_get (container self) "NetworkSettings" in
  let* _ := fail_if (negb (truthy network))
        "has_config_diff: Error parsing container properties. NetworkSettings missing." in
  let* log_config := py_get_default host_config "LogConfig" (VDict []) in
  let* restart_policy := py_get_default host_config "RestartPolicy" (VDict []) in
  let* attach_stderr := py_get config "AttachStderr" in
  let* attach_stdout := py_get config "AttachStdout" in
  let detach := negb (truthy attach_stderr && truthy attach_stdout) in
  let* exposed_ports := py_get config "ExposedPorts" in
  let* expected_exposed :=
    (if negb (is_None exposed_ports)
     then let* ports := py_keys exposed_ports in
          Ok ((λ p, VStr (_normalize_port p)) <$> ports)
     else Ok []) in
  let* config_mapping := dict_of
    (base_mapping host_config config network restart_policy detach
       expected_exposed) in
  (* Options which don't make sense without their accompanying option *)
  let* restart_policy_param := getattr params "restart_policy" in
  let* config_mapping :=
    (if truthy restart_policy_param
     then let* retries := py_get restart_policy "MaximumRetryCount" in
          Ok (dict_set config_mapping "restart_retries" retries)
     else Ok config_mapping) in
  let* log_driver_param := getattr params "log_driver" in
  let* config_mapping :=
    (if truthy log_driver_param
     then let* type := py_get log_config "Type" in
          let* options := py_get log_config "Config" in
          Ok (dict_set (dict_set config_mapping "log_driver" type)
                "log_options" options)
     else Ok config_mapping) in
  let* auto_remove := option_supported (client params) "auto_remove" in
  let* config_mapping :=
    (if auto_remove : bool
     then let* v := py_get host_config "AutoRemove" in
          Ok (dict_set config_mapping "auto_remove" v)
     else Ok config_mapping) in
  let* stop_timeout := option_supported (client params) "stop_timeout" in
  let* config_mapping :=
    (if stop_timeout : bool
     then let* v := py_get config "StopTimeout" in
          Ok (dict_set config_mapping "stop_timeout" v)
     else Ok config_mapping) in
  if LooseVersion_lt (docker_api_version (client params)) [1; 22]
  then let* limits := dict_of (limits_mapping host_config) in
       Ok (dict_update config_mapping limits)
  else Ok config_mapping.

(** The state of the comparison loop: the tracker, and the keys for which
    [_compare] has been called so far, in call order.  The second component
    is no variable of the code; it records the calls. *)
Record loop_state := {
  differences : DifferenceTracker.t;
  compared : list string;
}.

(** The values recorded for a mismatch: unordered collections are sorted so
    that the diff output is better. *)
Definition display (type : value_type) (v : value) : result value :=
  match type with
  | type_set => if negb (is_None v) then sorted v else Ok v
  | type_set_dict => if negb (is_None v) then sorted_dicts v else Ok v
  | _ => Ok v
  end.

(** The body of the loop over [config_mapping.items()]. *)
Definition check_property (self : t) (st : loop_state)
    (item : string * value) : result loop_state :=
  let '(key, value) := item in
  let params := parameters self in
  let minimal :=
    default {| supported := None |}
      (option_minimal_versions (client params) !! key) in
  if negb (default true (supported minimal)) then Ok st
  else
    let option := default key (parameters_map !! key) in
    let* compare := getitem (comparisons (client params) !! option) option in
    let* _ := getattr params key in
    if negb (is_None (getattr_default params key VNone)) then
      let* p := getattr params key in
      let matches := _compare p value compare in
      let st := {| differences := differences st;
                   compared := compared st ++ [key] |} in
      if negb matches then
        let* p := display (c_type compare) p in
        let* c := display (c_type compare) value in
        Ok {| differences := DifferenceTracker.add (differences st) key p c;
              compared := compared st |}
      else Ok st
    else Ok st.

(** The loop, started with a new tracker. *)
Definition compare_properties (self : t)
    (config_mapping : list (string * value)) : result loop_state :=
  for_each (check_property self) config_mapping
    {| differences := DifferenceTracker.new; compared := [] |}.

(** Diff parameters vs existing container config.  Returns the pair of
    [has_differences] and the tracker. *)
Definition has_different_configuration (self : t)
  : result (bool * DifferenceTracker.t) :=
  let* config_mapping := config_mapping self in
  let* st := compare_properties self config_mapping in
  let has_differences := negb (DifferenceTracker.empty (differences st)) in
  Ok (has_differences, differences st).

(** The keys for which a run of [has_different_configuration] calls
    [_compare]. *)
Definition compared_properties (self : t) : result (list string) :=
  let* config_mapping := config_mapping self in
  let* st := compare_properties self config_mapping in
  Ok (compared st).

End Container.

(** ** [AnsibleDockerClientContainer]: the table of comparisons *)

(** An entry of the argument spec: its ['type'] and its ['aliases'], both of
    which may be absent. *)
Record option_spec := {
  o_type : option string;
  o_aliases : option (list string);
}.

(** What [_parse_comparisons] reads of the [AnsibleModule]: the argument spec,
    as the list of its items, and the parameters of the task. *)
Record AnsibleModule := {
  argument_spec : list (string * option_spec);
  params : gmap string value;
}.

Definition set_comparison (mode : comparison_mode) (v : compare_spec)
  : compare_spec :=
  {| c_type := c_type v; c_comparison := mode; c_name := c_name v |}.

Module AnsibleDockerClientContainer.

Section with_common_args.

(** The names of the options of [DOCKER_COMMON_ARGS], which is defined in
    [ansible.module_utils.docker.common]. *)
Variable DOCKER_COMMON_ARGS : list string.

(** A list of module options which are not docker container properties. *)
Definition NON_CONTAINER_PROPERTY_OPTIONS : list string :=
  [ "env_file"; "force_kill"; "keep_volumes"; "ignore_image"; "name"; "pull";
    "purge_networks"; "recreate"; "restart"; "state"; "trust_image_content";
    "networks"; "cleanup"; "kill_signal"; "output_logs"; "paused" ]
  ++ DOCKER_COMMON_ARGS.

Definition explicit_types : gmap string value_type :=
  list_to_map [
    ("command", type_list);
    ("devices", type_set_dict);
    ("dns_search_domains", type_list);
    ("dns_servers", type_list);
    ("env", type_set);
    ("entrypoint", type_list);
    ("etc_hosts", type_set);
    ("networks", type_set_dict);
    ("ulimits", type_set_dict);
    ("device_read_bps", type_set_dict);
    ("device_write_bps", type_set_dict);
    ("device_read_iops", type_set_dict);
    ("device_write_iops", type_set_dict)
  ].

Definition default_values : gmap string comparison_mode :=
  {[ "stop_timeout" := ignore ]}.

(** The variables of the first loop. *)
Record defaults := {
  d_comparisons : gmap string compare_spec;
  d_comp_aliases : gmap string string;
  d_all_options : gset string;
}.

(** [data.get('aliases', [])]. *)
Definition aliases_of (data : option_spec) : list string :=
  default [] (o_aliases data).

(** The body of the loop over [self.module.argument_spec.items()]. *)
Definition add_option (st : defaults) (item : string * option_spec)
  : result defaults :=
  let '(option, data) := item in
  let all_options :=
    foldl (λ s alias, s ∪ {[alias]}) (d_all_options st ∪ {[option]})
      (aliases_of data) in
  (* Ignore options which aren't used as container properties *)
  if bool_decide (option ∈ NON_CONTAINER_PROPERTY_OPTIONS)
     && negb (String.eqb option "networks")
  then Ok {| d_comparisons := d_comparisons st;
             d_comp_aliases := d_comp_aliases st;
             d_all_options := all_options |}
  else
    (* Determine option type *)
    let* type :=
      match explicit_types !! option with
      | Some type => Ok type
      | None =>
          let* declared := getitem (o_type data) "type" in
          Ok (if String.eqb declared "list" then type_set
              else if String.eqb declared "dict" then type_dict
              else type_value)
      end in
    (* Determine comparison type *)
    let comparison :=
      match default_values !! option with
      | Some comparison => comparison
      | None =>
          match type with
          | type_list | type_value => strict
          | _ => allow_more_present
          end
      end in
    let comparisons :=
      <[option := {| c_type := type; c_comparison := comparison;
                     c_name := option |}]> (d_comparisons st) in
    (* Keep track of aliases *)
    let comp_aliases :=
      foldl (λ m alias, <[alias := option]> m)
        (<[option := option]> (d_comp_aliases st)) (aliases_of data) in
    Ok {| d_comparisons := comparisons;
          d_comp_aliases := comp_aliases;
          d_all_options := all_options |}.

(** Put in defaults. *)
Definition put_in_defaults (module : AnsibleModule) : result defaults :=
  for_each add_option (argument_spec module)
    {| d_comparisons := ∅; d_comp_aliases := ∅; d_all_options := ∅ |}.

(** [comparisons[option]['comparison'] = mode]. *)
Definition assign_comparison (comparisons : gmap string compare_spec)
    (option : string) (mode : comparison_mode)
  : result (gmap string compare_spec) :=
  let* v := getitem (comparisons !! option) option in
  Ok (<[option := set_comparison mode v]> comparisons).

(** Process legacy ignore options. *)
Definition process_legacy (module : AnsibleModule)
    (comparisons : gmap string compare_spec)
  : result (gmap string compare_spec) :=
  let* ignore_image := getitem (params module !! "ignore_image") "ignore_image" in
  let* comparisons :=
    (if truthy ignore_image
     then assign_comparison comparisons "image" ignore
     else Ok comparisons) in
  let* purge_networks :=
    getitem (params module !! "purge_networks") "purge_networks" in
  if truthy purge_networks
  then assign_comparison comparisons "networks" strict
  else Ok comparisons.

(** If ['*'] appears in comparisons, process it first: [value] is what the
    parameter gives for ['*']. *)
Definition process_wildcard (module : AnsibleModule) (value : value)
    (comparisons : gmap string compare_spec)
  : result (gmap string compare_spec) :=
  let* _ := fail_if (negb (is_str value "strict" || is_str value "ignore"))
    "The wildcard can only be used with comparison modes 'strict' and 'ignore'!" in
  let mode := if is_str value "strict" then strict else ignore in
  (* `networks` is special: only update if some value is actually specified *)
  let* skip_networks :=
    match comparisons !! "networks" with
    | Some _ =>
        let* networks := getitem (params module !! "networks") "networks" in
        Ok (is_None networks)
    | None => Ok false
    end in
  Ok (map_imap (λ option v,
        Some (if String.eqb option "networks" && skip_networks then v
              else set_comparison mode v)) comparisons).

(** The variables of the loop over the other comparisons. *)
Record overrides := {
  o_comparisons : gmap string compare_spec;
  o_comp_aliases_used : gmap string string;
}.

(** [key_main in all_options], where [key_main] may be [None]. *)
Definition in_all_options (key_main : option string)
    (all_options : gset string) : bool :=
  match key_main with
  | Some k => bool_decide (k ∈ all_options)
  | None => false
  end.

(** The body of the loop over the items of the [comparisons] parameter. *)
Definition process_comparison (d : defaults) (st : overrides)
    (item : string * value) : result overrides :=
  let '(key, value) := item in
  if String.eqb key "*" then Ok st
  else
    (* Find main key *)
    match d_comp_aliases d !! key with
    | None =>
        let* _ := fail_if (in_all_options None (d_all_options d))
          ("The module option '" +:+ key +:+
           "' cannot be specified in the comparisons dict, " +:+
           "since it does not correspond to container's state!") in
        Err (fail_json
          ("Unknown module option '" +:+ key +:+ "' in comparisons dict!"))
    | Some key_main =>
        let* _ :=
          match o_comp_aliases_used st !! key_main with
          | Some other =>
              Err (fail_json
                ("Both '" +:+ key +:+ "' and '" +:+ other +:+
                 "' (aliases of " +:+ key_main +:+
                 ") are specified in comparisons dict!"))
          | None => Ok tt
          end in
        let comp_aliases_used := <[key_main := key]> (o_comp_aliases_used st) in
        (* Check value and update accordingly *)
        let* comparisons :=
          (if is_str value "strict" then
             assign_comparison (o_comparisons st) key_main strict
           else if is_str value "ignore" then
             assign_comparison (o_comparisons st) key_main ignore
           else if is_str value "allow_more_present" then
             let* v := getitem (o_comparisons st !! key_main) key_main in
             let* _ := fail_if (bool_decide (c_type v = type_value))
               ("Option '" +:+ key +:+
                "' is a value and not a set/list/dict, so its comparison cannot be allow_more_present") in
             assign_comparison (o_comparisons st) key_main allow_more_present
           else
             Err (fail_json
               ("Unknown comparison mode '" +:+ py_str value +:+ "'!"))) in
        Ok {| o_comparisons := comparisons;
              o_comp_aliases_used := comp_aliases_used |}
    end.

(** Process options: the [comparisons] parameter, when it is given. *)
Definition process_options (module : AnsibleModule) (d : defaults)
    (comparisons : gmap string compare_spec)
  : result (gmap string compare_spec) :=
  let given := default VNone (params module !! "comparisons") in
  if truthy given then
    match given with
    | VDict items =>
        let* comparisons :=
          match dict_lookup items "*" with
          | Some value => process_wildcard module value comparisons
          | None => Ok comparisons
          end in
        (* Now process all other comparisons. *)
        let* st :=
          for_each (process_comparison d) items
            {| o_comparisons := comparisons; o_comp_aliases_used := ∅ |} in
        Ok (o_comparisons st)
    | _ => Err (AttributeError "items")
    end
  else Ok comparisons.

(** Add implicit options. *)
Definition add_implicit (comparisons : gmap string compare_spec)
  : result (gmap string compare_spec) :=
  let comparisons :=
    <["publish_all_ports" :=
        {| c_type := type_value; c_comparison := strict;
           c_name := "published_ports" |}]> comparisons in
  let* published_ports :=
    getitem (comparisons !! "published_ports") "published_ports" in
  let comparisons :=
    <["expected_ports" :=
        {| c_type := type_dict;
           c_comparison := c_comparison published_ports;
           c_name := "expected_ports" |}]> comparisons in
  let* healthcheck := getitem (comparisons !! "healthcheck") "healthcheck" in
  Ok (<["disable_healthcheck" :=
          {| c_type := type_value;
             c_comparison :=
               if bool_decide (c_comparison healthcheck = ignore)
               then ignore else strict;
             c_name := "disable_healthcheck" |}]> comparisons).

(** Check legacy values: the warnings of [self.module.warn]. *)
Definition check_legacy (module : AnsibleModule)
    (comparisons : gmap string compare_spec) : result (list string) :=
  let* ignore_image := getitem (params module !! "ignore_image") "ignore_image" in
  let* warn_image :=
    (if truthy ignore_image then
       let* image := getitem (comparisons !! "image") "image" in
       Ok (negb (bool_decide (c_comparison image = ignore)))
     else Ok false) in
  let* purge_networks :=
    getitem (params module !! "purge_networks") "purge_networks" in
  let* warn_networks :=
    (if truthy purge_networks then
       let* networks := getitem (comparisons !! "networks") "networks" in
       Ok (negb (bool_decide (c_comparison networks = strict)))
     else Ok false) in
  Ok ((if warn_image : bool
       then ["The ignore_image option has been overridden by the comparisons option!"]
       else [])
      ++ (if warn_networks : bool
          then ["The purge_networks option has been overridden by the comparisons option!"]
          else [])).

(** [_parse_comparisons]: the value assigned to [self.comparisons], and the
    warnings. *)
Definition _parse_comparisons (module : AnsibleModule)
  : result (gmap string compare_spec * list string) :=
  let* d := put_in_defaults module in
  let* comparisons := process_legacy module (d_comparisons d) in
  let* comparisons := process_options module d comparisons in
  let* comparisons := add_implicit comparisons in
  let* warnings := check_legacy module comparisons in
  Ok (comparisons, warnings).

End with_common_args.

(** The argument spec that [main] passes to the client. *)
Definition option_of_type (type : string) : option_spec :=
  {| o_type := Some type; o_aliases := None |}.

Definition option_with_aliases (type : string) (aliases : list string)
  : option_spec :=
  {| o_type := Some type; o_aliases := Some aliases |}.

Definition main_argument_spec : list (string * option_spec) := [
  ("auto_remove", option_of_type "bool");
  ("blkio_weight", option_of_type "int");
  ("capabilities", option_of_type "list");
  ("cap_drop", option_of_type "list");
  ("cleanup", option_of_type "bool");
  ("command", option_of_type "raw");
  ("comparisons", option_of_type "dict");
  ("cpu_period", option_of_type "int");
  ("cpu_quota", option_of_type "int");
  ("cpuset_cpus", option_of_type "str");
  ("cpuset_mems", option_of_type "str");
  ("cpu_shares", option_of_type "int");
  ("detach", option_of_type "bool");
  ("devices", option_of_type "list");
  ("device_read_bps", option_of_type "list");
  ("device_write_bps", option_of_type "list");
  ("device_read_iops", option_of_type "list");
  ("device_write_iops", option_of_type "list");
  ("dns_servers", option_of_type "list");
  ("dns_opts", option_of_type "list");
  ("dns_search_domains", option_of_type "list");
  ("domainname", option_of_type "str");
  ("entrypoint", option_of_type "list");
  ("env", option_of_type "dict");
  ("env_file", option_of_type "path");
  ("etc_hosts", option_of_type "dict");
  ("exposed_ports", option_with_aliases "list" ["exposed"; "expose"]);
  ("force_kill", option_with_aliases "bool" ["forcekill"]);
  ("groups", option_of_type "list");
  ("healthcheck", option_of_type "dict");
  ("hostname", option_of_type "str");
  ("ignore_image", option_of_type "bool");
  ("image", option_of_type "str");
  ("init", option_of_type "bool");
  ("interactive", option_of_type "bool");
  ("ipc_mode", option_of_type "str");
  ("keep_volumes", option_of_type "bool");
  ("kernel_memory", option_of_type "str");
  ("kill_signal", option_of_type "str");
  ("labels", option_of_type "dict");
  ("links", option_of_type "list");
  ("log_driver", option_of_type "str");
  ("log_options", option_with_aliases "dict" ["log_opt"]);
  ("mac_address", option_of_type "str");
  ("memory", option_of_type "str");
  ("memory_reservation", option_of_type "str");
  ("memory_swap", option_of_type "str");
  ("memory_swappiness", option_of_type "int");
  ("name", option_of_type "str");
  ("network_mode", option_of_type "str");
  ("networks", option_of_type "list");
  ("networks_cli_compatible", option_of_type "bool");
  ("oom_killer", option_of_type "bool");
  ("oom_score_adj", option_of_type "int");
  ("output_logs", option_of_type "bool");
  ("paused", option_of_type "bool");
  ("pid_mode", option_of_type "str");
  ("pids_limit", option_of_type "int");
  ("privileged", option_of_type "bool");
  ("published_ports", option_with_aliases "list" ["ports"]);
  ("pull", option_of_type "bool");
  ("purge_networks", option_of_type "bool");
  ("read_only", option_of_type "bool");
  ("recreate", option_of_type "bool");
  ("restart", option_of_type "bool");
  ("restart_policy", option_of_type "str");
  ("restart_retries", option_of_type "int");
  ("runtime", option_of_type "str");
  ("security_opts", option_of_type "list");
  ("shm_size", option_of_type "str");
  ("state", option_of_type "str");
  ("stop_signal", option_of_type "str");
  ("stop_timeout", option_of_type "int");
  ("sysctls", option_of_type "dict");
  ("tmpfs", option_of_type "list");
  ("trust_image_content", option_of_type "bool");
  ("tty", option_of_type "bool");
  ("ulimits", option_of_type "list");
  ("user", option_of_type "str");
  ("userns_mode", option_of_type "str");
  ("uts", option_of_type "str");
  ("volume_driver", option_of_type "str");
  ("volumes", option_of_type "list");
  ("volumes_from", option_of_type "list");
  ("working_dir", option_of_type "str")
].

End AnsibleDockerClientContainer.

(** ** [ContainerManager]: removing and stopping a container *)

(** The exceptions of the Docker SDK that the manager tells apart:
    [NotFound] is a subclass of [APIError]; both carry an [explanation],
    which may be [None].  [text] is [str(exc)]. *)
Inductive py_exception :=
| NotFound (explanation : option string) (text : string)
| APIError (explanation : option string) (text : string)
| OtherException (text : string).

Definition str_of (exc : py_exception) : string :=
  match exc with
  | NotFound _ text | APIError _ text | OtherException text => text
  end.

Inductive call_result :=
| Returned (response : value)
| Raised (exc : py_exception).

(** The calls that the manager makes to the daemon, with what they gave. *)
Inductive call :=
| called_remove_container (r : call_result)
| called_stop (r : call_result)
| called_kill (r : call_result)
| called_unpause (r : call_result).

Definition is_unpause (c : call) : bool :=
  match c with called_unpause _ => true | _ => false end.

Definition paused_message : string :=
  "Unpause the container before stopping or killing".

Module ContainerManager.

Section with_daemon.

(** The daemon behind the client: a state [W] that every call may change. *)
Context {W : Type}.

Record DockerClient := {
  remove_container :
    string → bool (* v *) → bool (* link *) → bool (* force *) →
    W → call_result * W;
  stop : string → option value (* timeout *) → W → call_result * W;
  kill : string → option value (* signal *) → W → call_result * W;
  unpause : string → W → call_result * W;
}.

(** The manager: [self.check_mode], [self.parameters] and [self.results]. *)
Record t := {
  docker : DockerClient;
  check_mode : bool;
  parameters : TaskParameters;
  changed : bool;
  actions : list value;
}.

(** [self.results['actions'].append(action); self.results['changed'] = True]. *)
Definition record_action (self : t) (action : value) : t :=
  {| docker := docker self; check_mode := check_mode self;
     parameters := parameters self; changed := true;
     actions := actions self ++ [action] |}.

(** Where a method stands when it ends: what it returned or how it failed,
    the manager, the daemon, and the calls made to the daemon so far. *)
Record ended := {
  outcome : result value;
  manager : t;
  daemon : W;
  calls : list call;
}.

Definition ends (r : result value) (self : t) (w : W) (cs : list call)
  : option ended :=
  Some {| outcome := r; manager := self; daemon := w; calls := cs |}.

(** The [while True] loop of [container_remove], with [fuel] iterations at
    most; [None] when they do not suffice. *)
Fixpoint remove_loop (fuel : nat) (self : t) (container_id : string)
    (volume_state link force : bool) (count : nat) (w : W) (cs : list call)
  : option ended :=
  match fuel with
  | O => None
  | S fuel' =>
      let '(r, w) :=
        remove_container (docker self) container_id volume_state link force w in
      let cs := cs ++ [called_remove_container r] in
      match r with
      | Returned response => ends (Ok response) self w cs
      | Raised (NotFound _ _) => ends (Ok VNone) self w cs
      | Raised (APIError explanation text as exc) =>
          match explanation with
          | None =>
              ends (Err (TypeError "argument of type 'NoneType' is not iterable"))
                self w cs
          | Some explanation =>
              if str_contains paused_message explanation then
                (* New docker daemon versions do not allow containers to be
                   removed if they are paused. Make sure we don't end up in
                   an infinite loop. *)
                if (count =? 3)%nat then
                  ends (Err (fail_json
                    ("Error removing container " +:+ container_id +:+
                     " (tried to unpause three times): " +:+ str_of exc)))
                    self w cs
                else
                  let count := (count + 1)%nat in
                  (* Unpause *)
                  let '(u, w) := unpause (docker self) container_id w in
                  let cs := cs ++ [called_unpause u] in
                  match u with
                  | Raised exc2 =>
                      ends (Err (fail_json
                        ("Error unpausing container " +:+ container_id +:+
                         " for removal: " +:+ str_of exc2))) self w cs
                  | Returned _ =>
                      (* Now try again *)
                      remove_loop fuel' self container_id volume_state link
                        force count w cs
                  end
              else if str_contains "removal of container " explanation
                      && str_contains " is already in progress" explanation
              then ends (Ok VNone) self w cs
              else
                ends (Err (fail_json
                  ("Error removing container " +:+ container_id +:+ ": "
                   +:+ str_of exc))) self w cs
          end
      | Raised (OtherException _ as exc) =>
          ends (Err (fail_json
            ("Error removing container " +:+ container_id +:+ ": "
             +:+ str_of exc))) self w cs
      end
  end.

(** Reading an attribute of the parameters in a method of the manager. *)
Definition with_attribute (self : t) (w : W) (key : string)
    (k : value → option ended) : option ended :=
  match getattr (parameters self) key with
  | Ok v => k v
  | Err e => ends (Err e) self w []
  end.

Definition container_remove (fuel : nat) (self : t) (container_id : string)
    (link force : bool) (w : W) : option ended :=
  with_attribute self w "keep_volumes" (λ keep_volumes,
    let volume_state := negb (truthy keep_volumes) in
    let self := record_action self
      (VDict [("removed", VStr container_id);
              ("volume_state", VBool volume_state);
              ("link", VBool link); ("force", VBool force)]) in
    if negb (check_mode self) then
      remove_loop fuel self container_id volume_state link force 0 w []
    else ends (Ok VNone) self w []).

Definition container_kill (self : t) (container_id : string) (w : W)
  : option ended :=
  with_attribute self w "kill_signal" (λ kill_signal,
    let self := record_action self
      (VDict [("killed", VStr container_id); ("signal", kill_signal)]) in
    if negb (check_mode self) then
      let '(r, w) :=
        kill (docker self) container_id
          (if truthy kill_signal then Some kill_signal else None) w in
      let cs := [called_kill r] in
      match r with
      | Returned response => ends (Ok response) self w cs
      | Raised exc =>
          ends (Err (fail_json
            ("Error killing container " +:+ container_id +:+ ": "
             +:+ str_of exc))) self w cs
      end
    else ends (Ok VNone) self w []).

(** The [while True] loop of [container_stop]. *)
Fixpoint stop_loop (fuel : nat) (self : t) (container_id : string)
    (stop_timeout : value) (count : nat) (w : W) (cs : list call)
  : option ended :=
  match fuel with
  | O => None
  | S fuel' =>
      let '(r, w) :=
        stop (docker self) container_id
          (if truthy stop_timeout then Some stop_timeout else None) w in
      let cs := cs ++ [called_stop r] in
      match r with
      | Returned response => ends (Ok response) self w cs
      | Raised (NotFound explanation _ as exc)
      | Raised (APIError explanation _ as exc) =>
          match explanation with
          | None =>
              ends (Err (TypeError "argument of type 'NoneType' is not iterable"))
                self w cs
          | Some explanation =>
              if str_contains paused_message explanation then
                if (count =? 3)%nat then
                  ends (Err (fail_json
                    ("Error removing container " +:+ container_id +:+
                     " (tried to unpause three times): " +:+ str_of exc)))
                    self w cs
                else
                  let count := (count + 1)%nat in
                  (* Unpause *)
                  let '(u, w) := unpause (docker self) container_id w in
                  let cs := cs ++ [called_unpause u] in
                  match u with
                  | Raised exc2 =>
                      ends (Err (fail_json
                        ("Error unpausing container " +:+ container_id +:+
                         " for removal: " +:+ str_of exc2))) self w cs
                  | Returned _ =>
                      (* Now try again *)
                      stop_loop fuel' self container_id stop_timeout count w cs
                  end
              else
                ends (Err (fail_json
                  ("Error stopping container " +:+ container_id +:+ ": "
                   +:+ str_of exc))) self w cs
          end
      | Raised (OtherException _ as exc) =>
          ends (Err (fail_json
            ("Error stopping container " +:+ container_id +:+ ": "
             +:+ str_of exc))) self w cs
      end
  end.

Definition container_stop (fuel : nat) (self : t) (container_id : string)
    (w : W) : option ended :=
  with_attribute self w "force_kill" (λ force_kill,
    if truthy force_kill then
      match container_kill self container_id w with
      | Some e =>
          match outcome e with
          | Ok _ => ends (Ok VNone) (manager e) (daemon e) (calls e)
          | Err _ => Some e
          end
      | None => None
      end
    else
      with_attribute self w "stop_timeout" (λ stop_timeout,
        let self := record_action self
          (VDict [("stopped", VStr container_id); ("timeout", stop_timeout)]) in
        if negb (check_mode self) then
          stop_loop fuel self container_id stop_timeout 0 w []
        else ends (Ok VNone) self w [])).

End with_daemon.

Arguments DockerClient : clear implicits.
Arguments t : clear implicits.
Arguments ended : clear implicits.

End ContainerManager.

(** * The vocabulary of the statements *)

(** The property is not marked unsupported for the versions at hand. *)
Definition is_supported (self : Container.t) (key : string) : Prop :=
  ∀ minimal,
    option_minimal_versions (client (Container.parameters self)) !! key
      = Some minimal →
    supported minimal ≠ Some false.

(** What one iteration of the loop does, by cases: the property is skipped
    because it is unsupported, or because the parameter is unset, or it is
    compared; a comparison that does not match records the displayed
    values. *)
Inductive step_of (self : Container.t) (st : Container.loop_state)
    (key : string) (value : value) (st' : Container.loop_state) : Prop :=
| step_unsupported :
    (∃ minimal,
      option_minimal_versions (client (Container.parameters self)) !! key
        = Some minimal ∧ supported minimal = Some false) →
    st' = st →
    step_of self st key value st'
| step_unset compare :
    comparisons (client (Container.parameters self))
      !! default key (Container.parameters_map !! key) = Some compare →
    attributes (Container.parameters self) !! key = Some VNone →
    st' = st →
    step_of self st key value st'
| step_match compare p :
    is_supported self key →
    comparisons (client (Container.parameters self))
      !! default key (Container.parameters_map !! key) = Some compare →
    attributes (Container.parameters self) !! key = Some p →
    p ≠ VNone →
    Container._compare p value compare = true →
    st' = {| Container.differences := Container.differences st;
             Container.compared := Container.compared st ++ [key] |} →
    step_of self st key value st'
| step_mismatch compare p p' c' :
    is_supported self key →
    comparisons (client (Container.parameters self))
      !! default key (Container.parameters_map !! key) = Some compare →
    attributes (Container.parameters self) !! key = Some p →
    p ≠ VNone →
    Container._compare p value compare = false →
    Container.display (c_type compare) p = Ok p' →
    Container.display (c_type compare) value = Ok c' →
    st' = {| Container.differences :=
               DifferenceTracker.add (Container.differences st) key p' c';
             Container.compared := Container.compared st ++ [key] |} →
    step_of self st key value st'.

(** The keys that the [dict(...)] call of [has_different_configuration]
    always gives. *)
Definition base_keys : list string :=
  (Container.base_mapping VNone VNone VNone VNone false []).*1.

(** The keys that are added for a Docker API before 1.22. *)
Definition limits_keys : list string := (Container.limits_mapping VNone).*1.

(** The order of strings, as a lexicographic order of stdpp. *)
#[global] Instance string_lexico : Lexico string :=
  λ s t, String.ltb s t = true.













(** The comparison mode that a value of the [comparisons] parameter names. *)
Definition mode_of (v : value) : option comparison_mode :=
  if is_str v "strict" then Some strict
  else if is_str v "ignore" then Some ignore
  else if is_str v "allow_more_present" then Some allow_more_present
  else None.

(** The entries that [_parse_comparisons] adds by itself in the end. *)
Definition implicit_options : list string :=
  ["publish_all_ports"; "expected_ports"; "disable_healthcheck"].

(** No entry for a scalar allows more to be present. *)
Definition scalars_are_exact (comparisons : gmap string compare_spec) : Prop :=
  ∀ option v, comparisons !! option = Some v →
    c_type v = type_value → c_comparison v ≠ allow_more_present.

(** The [networks] parameter is [None]. *)
Definition networks_unset (module : AnsibleModule) : bool :=
  match params module !! "networks" with
  | Some v => is_None v
  | None => false
  end.

(** What the wildcard does to an entry of the table. *)
Definition wildcard_entry (module : AnsibleModule) (mode : comparison_mode)
    (option : string) (v : compare_spec) : compare_spec :=
  if String.eqb option "networks" && networks_unset module then v
  else set_comparison mode v.

(** The unpauses and the attempts (removals or stops) among the calls. *)
Definition count_unpause (cs : list call) : nat :=
  length (List.filter is_unpause cs).

Definition is_attempt (c : call) : bool :=
  match c with
  | called_remove_container _ | called_stop _ => true
  | _ => false
  end.

Definition count_attempts (cs : list call) : nat :=
  length (List.filter is_attempt cs).

(** The call failed because the container is paused, in the eyes of
    [container_remove] and of [container_stop]. *)
Definition remove_fails_paused (r : call_result) : bool :=
  match r with
  | Raised (APIError (Some explanation) _) =>
      str_contains paused_message explanation
  | _ => false
  end.

Definition stop_fails_paused (r : call_result) : bool :=
  match r with
  | Raised (APIError (Some explanation) _)
  | Raised (NotFound (Some explanation) _) =>
      str_contains paused_message explanation
  | _ => false
  end.

(** The failure after the third unpause. *)
Definition tried_three_times (container_id : string) (r : call_result) : exn :=
  fail_json
    ("Error removing container " +:+ container_id +:+
     " (tried to unpause three times): " +:+
     match r with Raised exc => str_of exc | Returned _ => "" end).

(** The failure when the unpause itself fails. *)
Definition unpausing_failed (container_id : string) (exc : py_exception)
  : exn :=
  fail_json
    ("Error unpausing container " +:+ container_id +:+ " for removal: "
     +:+ str_of exc).

(** How a run of attempts and unpauses ends: with an attempt that did not
    fail because the container is paused, with an attempt that failed so
    after the third unpause, or with an unpause that failed. *)
Inductive retry_end :=
| settled (r : call_result)
| gave_up (r : call_result)
| unpause_failed (exc : py_exception).

(** The failure that an end brings with it. *)
Definition fatal_outcome (container_id : string) (ending : retry_end)
  : option exn :=
  match ending with
  | settled _ => None
  | gave_up r => Some (tried_three_times container_id r)
  | unpause_failed exc => Some (unpausing_failed container_id exc)
  end.

(** Unpause and retry with a budget of three.  [retries count w cs w' ending]:
    started on the daemon [w] with [count] unpauses behind it, the operation
    makes the calls [cs], which leave the daemon at [w'], and ends with
    [ending].  Every attempt is [operation] run on the daemon as the calls
    before it left it.  An attempt that does not fail because the container is
    paused is the last call.  One that does is followed by an unpause while
    fewer than three were made, and the unpause, if it returns, by the next
    attempt; after three unpauses it is the last call. *)
Inductive retries {W : Type} (fails_paused : call_result → bool)
    (attempt : call_result → call) (operation unpause : W → call_result * W)
  : nat → W → list call → W → retry_end → Prop :=
| retries_settled count w r w' :
    operation w = (r, w') →
    fails_paused r = false →
    retries fails_paused attempt operation unpause
      count w [attempt r] w' (settled r)
| retries_gave_up w r w' :
    operation w = (r, w') →
    fails_paused r = true →
    retries fails_paused attempt operation unpause
      3 w [attempt r] w' (gave_up r)
| retries_unpause_failed count w r w' exc w'' :
    count < 3 →
    operation w = (r, w') →
    fails_paused r = true →
    unpause w' = (Raised exc, w'') →
    retries fails_paused attempt operation unpause
      count w [attempt r; called_unpause (Raised exc)] w'' (unpause_failed exc)
| retries_again count w r w' response w'' cs wf ending :
    count < 3 →
    operation w = (r, w') →
    fails_paused r = true →
    unpause w' = (Returned response, w'') →
    retries fails_paused attempt operation unpause (S count) w'' cs wf ending →
    retries fails_paused attempt operation unpause
      count w (attempt r :: called_unpause (Returned response) :: cs) wf ending.

(** ** Concrete inputs *)

(** The parameters of a task that gives [given] as its [comparisons]. *)
Definition example_params (given : list (string * value)) (networks : value)
  : gmap string value :=
  list_to_map [
    ("ignore_image", VBool false);
    ("purge_networks", VBool false);
    ("networks", networks);
    ("comparisons", VDict given)
  ].

Definition example_module (given : list (string * value)) (networks : value)
  : AnsibleModule :=
  {| argument_spec := AnsibleDockerClientContainer.main_argument_spec;
     params := example_params given networks |}.

(** The result of the first loop of [_parse_comparisons] on the argument spec
    of [main], which does not depend on the parameters. *)
Definition main_defaults : AnsibleDockerClientContainer.defaults :=
  Eval vm_compute in
    match AnsibleDockerClientContainer.put_in_defaults []
            (example_module [] VNone) with
    | Ok d => d
    | Err _ =>
        {| AnsibleDockerClientContainer.d_comparisons := ∅;
           AnsibleDockerClientContainer.d_comp_aliases := ∅;
           AnsibleDockerClientContainer.d_all_options := ∅ |}
    end.

(** The table that [_parse_comparisons] makes for a task, empty if it
    fails. *)
Definition example_comparisons (given : list (string * value))
  : gmap string compare_spec :=
  match AnsibleDockerClientContainer._parse_comparisons []
          (example_module given VNone) with
  | Ok (comparisons, _) => comparisons
  | Err _ => ∅
  end.

(** The tables of a task without [comparisons], of a task that ignores
    everything but the image, and of a task that asks for strict comparisons
    without giving [networks]. *)
Definition plain_table : gmap string compare_spec :=
  Eval vm_compute in example_comparisons [].

Definition image_only_table : gmap string compare_spec :=
  Eval vm_compute in
    example_comparisons [("*", VStr "ignore"); ("image", VStr "strict")].

Definition all_strict_table : gmap string compare_spec :=
  Eval vm_compute in example_comparisons [("*", VStr "strict")].


Definition example_client (table : gmap string compare_spec) : Client :=
  {| comparisons := table;
     option_minimal_versions :=
       list_to_map [
         ("auto_remove", {| supported := Some true |});
         ("stop_timeout", {| supported := Some true |});
         ("uts", {| supported := Some false |})
       ];
     docker_api_version := [1; 40] |}.


(** The attributes of the parameters: those of [set], and [None] for every
    other one. *)
Definition example_attributes (set : list (string * value))
  : gmap string value :=
  list_to_map
    (set ++ ((λ key, (key, VNone)) <$>
       (base_keys
        ++ ["restart_policy"; "restart_retries"; "log_driver"; "log_options";
            "auto_remove"; "stop_timeout"]))).



(** The client of a task with the Docker SDK for Python 1.10 on API 1.24,
    where [healthcheck] and the other options that need a newer SDK or API
    are marked unsupported; the task asks for strict comparisons. *)
Definition old_sdk_client : Client :=
  {| comparisons := all_strict_table;
     option_minimal_versions :=
       list_to_map [
         ("log_config", {| supported := Some true |});
         ("publish_all_ports", {| supported := Some true |});
         ("ports", {| supported := Some true |});
         ("volume_binds", {| supported := Some true |});
         ("name", {| supported := Some true |});
         ("device_read_bps", {| supported := Some true |});
         ("device_read_iops", {| supported := Some true |});
         ("device_write_bps", {| supported := Some true |});
         ("device_write_iops", {| supported := Some true |});
         ("dns_opts", {| supported := Some true |});
         ("ipc_mode", {| supported := Some false |});
         ("mac_address", {| supported := Some false |});
         ("oom_killer", {| supported := Some false |});
         ("oom_score_adj", {| supported := Some false |});
         ("shm_size", {| supported := Some true |});
         ("stop_signal", {| supported := Some true |});
         ("tmpfs", {| supported := Some true |});
         ("volume_driver", {| supported := Some true |});
         ("memory_reservation", {| supported := Some true |});
         ("kernel_memory", {| supported := Some true |});
         ("auto_remove", {| supported := Some false |});
         ("healthcheck", {| supported := Some false |});
         ("init", {| supported := Some false |});
         ("runtime", {| supported := Some false |});
         ("sysctls", {| supported := Some true |});
         ("userns_mode", {| supported := Some true |});
         ("uts", {| supported := Some false |});
         ("pids_limit", {| supported := Some true |});
         ("ipvX_address_supported", {| supported := Some true |});
         ("stop_timeout", {| supported := Some false |})
       ];
     docker_api_version := [1; 24] |}.

(** The attributes of a task that gives a name and an image only, as they
    are when the comparison loop starts: the defaults of the argument spec,
    the empty [tmpfs] of [_parse_tmpfs], the environment of the image, and
    the empty dict that [_get_expected_healthcheck] returns when no
    [healthcheck] is given. *)
Definition plain_task : gmap string value :=
  Eval vm_compute in
    example_attributes
      [("detach", VBool true); ("init", VBool false);
       ("interactive", VBool false); ("privileged", VBool false);
       ("read_only", VBool false); ("tty", VBool false);
       ("auto_remove", VBool false); ("publish_all_ports", VBool false);
       ("tmpfs", VDict []);
       ("expected_env", VList [VStr "PATH=/usr/local/bin:/usr/bin:/bin"]);
       ("expected_exposed", VList []); ("expected_binds", VList []);
       ("expected_healthcheck", VDict []); ("healthcheck", VNone)].

(** The inspect result of a container of that task, whose image declares a
    health check. *)
Definition checked_inspect : value :=
  VDict [
    ("HostConfig",
      VDict [("ExtraHosts", VNone); ("NetworkMode", VStr "default");
             ("Privileged", VBool false); ("ReadonlyRootfs", VBool false);
             ("PublishAllPorts", VBool false); ("Tmpfs", VDict []);
             ("RestartPolicy",
               VDict [("Name", VStr ""); ("MaximumRetryCount", VInt 0)])]);
    ("Config",
      VDict [("Hostname", VStr "4f2a9c0d1e3b");
             ("AttachStderr", VBool false); ("AttachStdout", VBool false);
             ("OpenStdin", VBool false); ("Tty", VBool false);
             ("Env", VList [VStr "PATH=/usr/local/bin:/usr/bin:/bin"]);
             ("Healthcheck",
               VDict [("Test", VList [VStr "CMD-SHELL";
                                      VStr "curl -f http://localhost/"])])]);
    ("NetworkSettings", VDict [("Networks", VDict [])])
  ].

Definition checked_container : Container.t :=
  {| Container.container := checked_inspect;
     Container.parameters :=
       {| attributes := plain_task; client := old_sdk_client |} |}.

(** A daemon that always answers that the container is paused, and that
    counts the calls it gets. *)
Definition paused_daemon : ContainerManager.DockerClient nat :=
  {| ContainerManager.remove_container := λ _ _ _ _ n,
       (Raised (APIError (Some ("cannot remove: " +:+ paused_message)) "409"),
        S n);
     ContainerManager.stop := λ _ _ n,
       (Raised (APIError (Some ("cannot stop: " +:+ paused_message)) "409"),
        S n);
     ContainerManager.kill := λ _ _ n, (Returned VNone, S n);
     ContainerManager.unpause := λ _ n, (Returned VNone, S n) |}.

Definition example_manager : ContainerManager.t nat :=
  {| ContainerManager.docker := paused_daemon;
     ContainerManager.check_mode := false;
     ContainerManager.parameters :=
       {| attributes :=
            list_to_map [("keep_volumes", VBool true);
                         ("force_kill", VBool false);
                         ("stop_timeout", VNone); ("kill_signal", VNone)];
          client := example_client ∅ |};
     ContainerManager.changed := false;
     ContainerManager.actions := [] |}.

(** * Parsing the options, and the other comparisons *)

(** ** Strings *)

(** [s.split(sep)] for a separator of one character: the pieces between the
    separators, of which there is always one at least. *)
Fixpoint str_split (sep : Ascii.ascii) (s : string) : list string :=
  match s with
  | EmptyString => [EmptyString]
  | String c s' =>
      if Ascii.eqb c sep then EmptyString :: str_split sep s'
      else match str_split sep s' with
           | piece :: pieces => String c piece :: pieces
           | [] => [String c EmptyString]
           end
  end.

(** [s.split(sep, 1)]: the split at the first separator only. *)
Fixpoint str_split_once (sep : Ascii.ascii) (s : string) : list string :=
  match s with
  | EmptyString => [EmptyString]
  | String c s' =>
      if Ascii.eqb c sep then [EmptyString; s']
      else match str_split_once sep s' with
           | piece :: pieces => String c piece :: pieces
           | [] => [String c EmptyString]
           end
  end.

(** [c in s] for a character. *)
Fixpoint str_has (c : Ascii.ascii) (s : string) : bool :=
  match s with
  | EmptyString => false
  | String a s' => Ascii.eqb a c || str_has c s'
  end.

(** [s[n:]] and [s[:n]]. *)
Fixpoint str_from (n : nat) (s : string) : string :=
  match n, s with
  | O, _ => s
  | S n', String _ s' => str_from n' s'
  | S _, EmptyString => EmptyString
  end.

Fixpoint str_upto (n : nat) (s : string) : string :=
  match n, s with
  | O, _ => EmptyString
  | S n', String c s' => String c (str_upto n' s')
  | S _, EmptyString => EmptyString
  end.

(** [s[i:j]]. *)
Definition str_slice (i j : nat) (s : string) : string :=
  str_upto (j - i) (str_from i s).

(** [s.find(c)]: the index of the first [c], [None] for Python's [-1]. *)
Fixpoint str_index (c : Ascii.ascii) (s : string) : option nat :=
  match s with
  | EmptyString => None
  | String a s' => if Ascii.eqb a c then Some O else S <$> str_index c s'
  end.

(** [s.find(c, start)]. *)
Definition str_find (c : Ascii.ascii) (s : string) (start : nat) : option nat :=
  (λ i, start + i) <$> str_index c (str_from start s).

(** [l[-1] += x]; a list without items is left alone. *)
Fixpoint add_to_last (l : list string) (x : string) : list string :=
  match l with
  | [] => []
  | [y] => [y +:+ x]
  | y :: l' => y :: add_to_last l' x
  end.

Definition double_quote : string := String "034"%char EmptyString.

(** ** Helper functions of the module *)

Definition volume_permissions : list string :=
  ["rw"; "ro"; "z"; "Z"; "consistent"; "delegated"; "cached"; "rprivate";
   "private"; "rshared"; "shared"; "rslave"; "slave"].

Definition is_volume_permissions (input : string) : bool :=
  forallb (λ part, bool_decide (part ∈ volume_permissions))
    (str_split ","%char input).

(** The message of [split_colon_ipv6] for a bracket that is not closed. *)
Definition no_closing_bracket (input : string) (index : nat) : string :=
  "Cannot find closing " +:+ double_quote +:+ "]" +:+ double_quote
  +:+ " in input " +:+ double_quote +:+ input +:+ double_quote
  +:+ " for opening " +:+ double_quote +:+ "[" +:+ double_quote
  +:+ " at index " +:+ pretty index +:+ "!".

(** The [while start < len(input)] loop of [split_colon_ipv6]; every
    iteration moves [start] forward, and [fuel] bounds their number. *)
Fixpoint split_colon_ipv6_loop (fuel : nat) (input : string) (start : nat)
    (parts : list string) : option (result (list string)) :=
  match fuel with
  | O => None
  | S fuel' =>
      if (start <? String.length input)%nat then
        match str_find "["%char input start with
        | None => Some (Ok (parts ++ str_split ":"%char (str_from start input)))
        | Some i =>
            match str_find "]"%char input i with
            | None =>
                Some (Err (fail_json (no_closing_bracket input (i + 1))))
            | Some j =>
                let parts := parts ++ str_split ":"%char (str_slice start i input) in
                match str_find ":"%char input j with
                | None =>
                    let parts :=
                      add_to_last parts (str_from i input) in
                    split_colon_ipv6_loop fuel' input (String.length input)
                      parts
                | Some k =>
                    let parts := add_to_last parts (str_slice i k input) in
                    if (k =? String.length input)%nat
                    then Some (Ok (parts ++ [EmptyString]))
                    else split_colon_ipv6_loop fuel' input (k + 1) parts
                end
            end
        end
      else Some (Ok parts)
  end.

(** Split string by [':'], while keeping IPv6 addresses in square brackets in
    one component. *)
Definition split_colon_ipv6 (input : string) : option (result (list string)) :=
  if negb (str_has "["%char input) then Some (Ok (str_split ":"%char input))
  else split_colon_ipv6_loop (S (String.length input)) input 0 [].

(** What the loop of [split_colon_ipv6] has put into [parts] when it stands
    at [start]. *)
Definition split_invariant (input : string) (start : nat)
    (parts : list string) : Prop :=
  (parts = [] ∧ start = 0)
  ∨ (parts ≠ []
     ∧ String.concat ":" parts +:+ ":" +:+ str_from start input = input)
  ∨ (parts ≠ [] ∧ String.length input ≤ start
     ∧ String.concat ":" parts = input).

(** The pieces give the input back when they are joined, but for a colon at
    its end. *)
Definition joins_to (input : string) (parts : list string) : Prop :=
  parts ≠ []
  ∧ (String.concat ":" parts = input
     ∨ String.concat ":" parts +:+ ":" = input).

(** ** [TaskParameters]: parsing the options

    The options [links], [tmpfs], [devices] and [volumes] are declared as
    lists of strings in the argument spec; an option that is not given is
    [None]. *)

(** One link of [_parse_links]: [link.split(':', 1)] gives the name and the
    alias, and a link without an alias is its own alias. *)
Definition parse_link (link : string) : string * string :=
  let parsed_link := str_split_once ":" link in
  if (length parsed_link =? 2)%nat
  then (default "" (parsed_link !! 0%nat), default "" (parsed_link !! 1%nat))
  else (default "" (parsed_link !! 0%nat), default "" (parsed_link !! 0%nat)).

(** Turn links into a list of pairs. *)
Definition _parse_links (links : option (list string))
  : option (list (string * string)) :=
  match links with
  | None => None
  | Some links => Some (parse_link <$> links)
  end.

(** Turn tmpfs into a dict of mount options by path. *)
Definition _parse_tmpfs (tmpfs : option (list string)) : list (string * string) :=
  match tmpfs with
  | None => []
  | Some tmpfs =>
      foldl (λ res tmpfs_spec,
          let split_spec := str_split_once ":" tmpfs_spec in
          if (1 <? length split_spec)%nat
          then dict_set res (default "" (split_spec !! 0%nat))
                 (default "" (split_spec !! 1%nat))
          else dict_set res (default "" (split_spec !! 0%nat)) "")
        [] tmpfs
  end.

(** The volume that the loops over [self.volumes] bind to a path of the
    host: [host], [container] and [mode] when [host] has been assigned.  A
    mode that is no list of permissions ends the module. *)
Definition parse_bind (vol : string)
  : result (option (string * string * string)) :=
  let parts := str_split ":" vol in
  let part n := default "" (parts !! n) in
  if str_has ":" vol then
    let* bound :=
      (if (length parts =? 3)%nat then
         let* _ := fail_if (negb (is_volume_permissions (part 2%nat)))
           ("Found invalid volumes mode: " +:+ part 2%nat) in
         Ok (Some (part 0%nat, part 1%nat, part 2%nat))
       else Ok None) in
    if (length parts =? 2)%nat && negb (is_volume_permissions (part 1%nat))
    then Ok (Some (part 0%nat, part 1%nat, "rw"))
    else Ok bound
  else Ok None.

(** The body of the loop of [_get_volume_binds]. *)
Definition add_volume_bind (res : list (string * value)) (vol : string)
  : result (list (string * value)) :=
  let* bound := parse_bind vol in
  match bound with
  | Some (host, container, mode) =>
      Ok (dict_set res host
            (VDict [("bind", VStr container); ("mode", VStr mode)]))
  | None => Ok res
  end.

(** Extract host bindings, if any, from list of volume mapping strings. *)
Definition _get_volume_binds (volumes : option (list string))
  : result (list (string * value)) :=
  match volumes with
  | Some ((_ :: _) as volumes) => for_each add_volume_bind volumes []
  | _ => Ok []
  end.


(** ** [Container]: what the parameters make the daemon report *)

(** The device that the daemon reports for a device of the parameters. *)
Definition expected_device (device : string) : value :=
  let parts := str_split ":" device in
  let part n := VStr (default "" (parts !! n)) in
  if (length parts =? 1)%nat then
    VDict [("CgroupPermissions", VStr "rwm");
           ("PathInContainer", part 0%nat); ("PathOnHost", part 0%nat)]
  else if (length parts =? 2)%nat then
    VDict [("CgroupPermissions", VStr "rwm");
           ("PathInContainer", part 1%nat); ("PathOnHost", part 0%nat)]
  else
    VDict [("CgroupPermissions", part 2%nat);
           ("PathInContainer", part 1%nat); ("PathOnHost", part 0%nat)].

Definition _get_expected_devices (devices : option (list string)) : value :=
  match devices with
  | Some ((_ :: _) as devices) => VList (expected_device <$> devices)
  | _ => VNone
  end.

(** [links] is what [_parse_links] made of the option, [name] the name of
    the container, a required string. *)
Definition _get_expected_links (name : string)
    (links : option (list (string * string))) : option (list string) :=
  match links with
  | None => None
  | Some links =>
      Some ((λ '(link, alias),
               "/" +:+ link +:+ ":" +:+ ("/" +:+ name) +:+ "/" +:+ alias)
            <$> links)
  end.

(** ** More vocabulary *)

Definition no_colon (s : string) : Prop := str_has ":" s = false.

(** A device by its path on the host, its path in the container and its
    permissions: how the option spells it, and how the daemon reports it. *)
Definition device_spec (d : string * string * string) : string :=
  let '(host, container, permissions) := d in
  host +:+ ":" +:+ container +:+ ":" +:+ permissions.

Definition device_dict (d : string * string * string) : value :=
  let '(host, container, permissions) := d in
  VDict [("CgroupPermissions", VStr permissions);
         ("PathInContainer", VStr container); ("PathOnHost", VStr host)].

Definition no_colons (d : string * string * string) : Prop :=
  let '(host, container, permissions) := d in
  no_colon host ∧ no_colon container ∧ no_colon permissions.

(** The value of a bind in the dict of [_get_volume_binds]. *)
Definition bind_dict (container mode : string) : value :=
  VDict [("bind", VStr container); ("mode", VStr mode)].

(** A volume of three parts whose last part is no list of permissions. *)
Definition has_invalid_mode (vol : string) : Prop :=
  ∃ host container mode,
    str_split ":" vol = [host; container; mode]
    ∧ is_volume_permissions mode = false.

Definition some_volumes : option (list string) :=
  Some ["/srv/www:/www:ro,z"; "/var/log:/log"; "/data:ro"; "cache"].

(** ** [Container]: resource limits *)

(** The body of the loop of [has_different_resource_limits]. *)
Definition check_limit (self : Container.t)
    (differences : DifferenceTracker.t) (item : string * value)
  : result DifferenceTracker.t :=
  let '(key, value) := item in
  let params := Container.parameters self in
  if truthy (getattr_default params key VNone) then
    let option := default key (Container.parameters_map !! key) in
    let* compare := getitem (comparisons (client params) !! option) option in
    let* p := getattr params key in
    if negb (Container._compare p value compare) then
      (* no match. record the differences *)
      let* p := getattr params key in
      Ok (DifferenceTracker.add differences key p value)
    else Ok differences
  else Ok differences.

(** Diff parameters and container resource limits.  For an API before 1.22
    the code returns an empty list in the place of the tracker. *)
Definition has_different_resource_limits (self : Container.t)
  : result (bool * DifferenceTracker.t) :=
  let params := Container.parameters self in
  let* host_config := py_get (Container.container self) "HostConfig" in
  let* _ := fail_if (negb (truthy host_config))
    "limits_differ_from_container: Error parsing container properties. HostConfig missing." in
  if LooseVersion_lt (docker_api_version (client params)) [1; 22]
  then (* update_container() call not supported *) Ok (false, [])
  else
    let* host_config := py_getitem (Container.container self) "HostConfig" in
    let* config_mapping :=
      Container.dict_of (Container.limits_mapping host_config) in
    let* differences :=
      for_each (check_limit self) config_mapping DifferenceTracker.new in
    let different := negb (DifferenceTracker.empty differences) in
    Ok (different, differences).

(** ** [TaskParameters]: the parameters of an update *)

(** The arguments of [update_container] and the options that give them. *)
Definition update_parameters_map : list (string * string) := [
  ("blkio_weight", "blkio_weight");
  ("cpu_period", "cpu_period");
  ("cpu_quota", "cpu_quota");
  ("cpu_shares", "cpu_shares");
  ("cpuset_cpus", "cpuset_cpus");
  ("cpuset_mems", "cpuset_mems");
  ("mem_limit", "memory");
  ("mem_reservation", "memory_reservation");
  ("memswap_limit", "memory_swap");
  ("kernel_memory", "kernel_memory")
].

(** The body of the loop of [update_parameters]. *)
Definition add_update_parameter (self : TaskParameters)
    (res : list (string * value)) (item : string * string)
  : result (list (string * value)) :=
  let '(key, value) := item in
  if negb (is_None (getattr_default self value VNone)) then
    let* supported := Container.option_supported (client self) value in
    if supported : bool then
      let* v := getattr self value in
      Ok (dict_set res key v)
    else Ok res
  else Ok res.

(** Returns parameters used to update a container. *)
Definition update_parameters (self : TaskParameters)
  : result (list (string * value)) :=
  for_each (add_update_parameter self) update_parameters_map [].

(** A recorded difference of a resource limit: the parameter is set to
    something that is not false, and does not compare equal to what the
    daemon reports. *)
Definition is_limit_difference (self : Container.t) (d : Difference) : Prop :=
  name d ∈ limits_keys
  ∧ attributes (Container.parameters self) !! name d = Some (parameter d)
  ∧ truthy (parameter d) = true
  ∧ ∃ compare,
      comparisons (client (Container.parameters self)) !! name d = Some compare
      ∧ Container._compare (parameter d) (active d) compare = false.

(** A container whose memory limit is not the requested one. *)
Definition limited_container (api : list nat) : Container.t :=
  {| Container.container :=
       VDict [("HostConfig",
                VDict [("ExtraHosts", VNone); ("Memory", VInt 1024);
                       ("CpuShares", VInt 0)]);
              ("Config", VDict [("Hostname", VStr "web")]);
              ("NetworkSettings", VDict [("Networks", VDict [])])];
     Container.parameters :=
       {| attributes :=
            list_to_map [("memory", VInt 2048); ("cpu_shares", VInt 0);
                         ("cpuset_cpus", VNone); ("restart_policy", VNone);
                         ("log_driver", VNone)];
          client :=
            {| comparisons := plain_table;
               option_minimal_versions :=
                 list_to_map [("memory", {| supported := Some true |});
                              ("cpu_shares", {| supported := Some true |});
                              ("auto_remove", {| supported := Some false |});
                              ("stop_timeout", {| supported := Some false |})];
               docker_api_version := api |} |} |}.


(** ** [Container]: networks that were not requested *)

(** [d.items()]. *)
Definition py_items (d : value) : result (list (string * value)) :=
  match d with
  | VDict items => Ok items
  | _ => Err (AttributeError "items")
  end.

(** The inner loop of [has_extra_networks]: whether one of the requested
    networks bears the name. *)
Definition is_expected_network (self : Container.t) (network : string)
  : result bool :=
  let* networks := getattr (Container.parameters self) "networks" in
  if truthy networks then
    let* expected := py_iter networks in
    for_each (λ keep expected_network,
        let* name := py_getitem expected_network "name" in
        Ok (if py_eq name (VStr network) then true else keep : bool))
      expected false
  else Ok false.

(** The body of the loop over the connected networks. *)
Definition check_connected_network (self : Container.t)
    (st : bool * list value) (item : string * value)
  : result (bool * list value) :=
  let '(extra, extra_networks) := st in
  let '(network, network_config) := item in
  let* keep := is_expected_network self network in
  if negb keep then
    let* id := py_getitem network_config "NetworkID" in
    Ok (true, extra_networks ++ [VDict [("name", VStr network); ("id", id)]])
  else Ok (extra, extra_networks).

(** Check if the container is connected to non-requested networks. *)
Definition has_extra_networks (self : Container.t)
  : result (bool * list value) :=
  let* settings := py_get (Container.container self) "NetworkSettings" in
  let* _ := fail_if (negb (truthy settings))
    "has_extra_networks: Error parsing container properties. NetworkSettings missing." in
  let* settings := py_getitem (Container.container self) "NetworkSettings" in
  let* connected_networks := py_get settings "Networks" in
  if truthy connected_networks then
    let* items := py_items connected_networks in
    for_each (check_connected_network self) items (false, [])
  else Ok (false, []).

(** The names of the networks of the [networks] parameter. *)
Definition requested_names (networks : value) : list value :=
  match networks with
  | VList l =>
      omap (λ network,
              match network with
              | VDict d => dict_lookup d "name"
              | _ => None
              end) l
  | _ => []
  end.

Definition is_requested (networks : value) (network : string) : bool :=
  existsb (λ name, is_str name network) (requested_names networks).

(** What [has_extra_networks] reports for a connected network. *)
Definition extra_network (item : string * value) : value :=
  VDict [("name", VStr item.1);
         ("id", match item.2 with
                | VDict d => default VNone (dict_lookup d "NetworkID")
                | _ => VNone
                end)].

(** A container on two networks, of which one is requested. *)
Definition connected_container : Container.t :=
  {| Container.container :=
       VDict [("NetworkSettings",
                VDict [("Networks",
                         VDict [("bridge", VDict [("NetworkID", VStr "b1")]);
                                ("backend", VDict [("NetworkID", VStr "b2")])])])];
     Container.parameters :=
       {| attributes :=
            list_to_map [("networks", VList [VDict [("name", VStr "backend")]])];
          client := example_client ∅ |} |}.

(** ** [ContainerManager]: what the methods leave behind *)

(** A method that ran without touching the daemon: it made no call, the
    daemon is as it was, and either it returned [None] after recording one
    action and setting [changed], or it failed to read an attribute of the
    parameters before doing anything. *)
Definition dry_run {W} (self : ContainerManager.t W) (w : W)
    (run : option (ContainerManager.ended W)) : Prop :=
  ∃ e, run = Some e
    ∧ ContainerManager.calls e = []
    ∧ ContainerManager.daemon e = w
    ∧ (∀ v, ContainerManager.outcome e = Ok v →
         v = VNone
         ∧ ContainerManager.changed (ContainerManager.manager e) = true
         ∧ ∃ action,
             ContainerManager.actions (ContainerManager.manager e)
             = ContainerManager.actions self ++ [action])
    ∧ (∀ err, ContainerManager.outcome e = Err err →
         ContainerManager.manager e = self ∧ ∃ attr, err = AttributeError attr).

(** The answers of [remove_container] after which [container_remove] returns
    [v]: the call returned [v], or the container is gone, or its removal is
    already under way. *)
Definition removal_done (r : call_result) (v : value) : Prop :=
  match r with
  | Returned response => v = response
  | Raised (NotFound _ _) => v = VNone
  | Raised (APIError (Some explanation) _) =>
      v = VNone
      ∧ str_contains paused_message explanation = false
      ∧ str_contains "removal of container " explanation = true
      ∧ str_contains " is already in progress" explanation = true
  | Raised _ => False
  end.

Definition is_kill (c : call) : bool :=
  match c with called_kill _ => true | _ => false end.

(** The manager of the examples in check mode, and a daemon that does not
    know the container. *)
Definition dry_manager : ContainerManager.t nat :=
  {| ContainerManager.docker := paused_daemon;
     ContainerManager.check_mode := true;
     ContainerManager.parameters :=
       ContainerManager.parameters example_manager;
     ContainerManager.changed := false;
     ContainerManager.actions := [] |}.

Definition gone_manager (force_kill : bool) : ContainerManager.t nat :=
  {| ContainerManager.docker :=
       {| ContainerManager.remove_container := λ _ _ _ _ n,
            (Raised (NotFound (Some "No such container") "404"), S n);
          ContainerManager.stop := λ _ _ n,
            (Raised (NotFound (Some "No such container") "404"), S n);
          ContainerManager.kill := λ _ _ n, (Returned (VStr "killed"), S n);
          ContainerManager.unpause := λ _ n, (Returned VNone, S n) |};
     ContainerManager.check_mode := false;
     ContainerManager.parameters :=
       {| attributes :=
            list_to_map [("keep_volumes", VBool true);
                         ("force_kill", VBool force_kill);
                         ("stop_timeout", VNone); ("kill_signal", VNone)];
          client := example_client ∅ |};
     ContainerManager.changed := false;
     ContainerManager.actions := [] |}.

(** ** [_parse_comparisons]: its messages and its defaults *)

(** The message for a key that is an option of the module but no property of
    the container. *)
Definition cannot_be_specified (key : string) : string :=
  "The module option '" +:+ key +:+
  "' cannot be specified in the comparisons dict, " +:+
  "since it does not correspond to container's state!".

(** The comparison that the first loop of [_parse_comparisons] gives to an
    option of a type. *)
Definition default_comparison (option : string) (type : value_type)
  : comparison_mode :=
  match AnsibleDockerClientContainer.default_values !! option with
  | Some comparison => comparison
  | None =>
      match type with
      | type_list | type_value => strict
      | _ => allow_more_present
      end
  end.

(** A task without [comparisons] and without the legacy options. *)
Definition plain_module : AnsibleModule :=
  {| argument_spec := AnsibleDockerClientContainer.main_argument_spec;
     params := list_to_map [("ignore_image", VBool false);
                            ("purge_networks", VBool false);
                            ("networks", VNone);
                            ("comparisons", VNone)] |}.

(** * Properties *)

(** ** The error monad *)

Lemma bind_Ok {A B} (m : result A) (f : A → result B) (b : B) :
  bind m f = Ok b ↔ ∃ a, m = Ok a ∧ f a = Ok b.
Proof.
  destruct m as [a|e]; simpl; split.
  - eauto.
  - by intros (? & [= ->] & ?).
  - done.
  - by intros (? & [=] & ?).
Qed.

Lemma fail_if_Ok (cond : bool) (msg : string) (u : unit) :
  fail_if cond msg = Ok u ↔ cond = false.
Proof. destruct cond, u; simpl; split; congruence. Qed.

Lemma getitem_Ok {A} (o : option A) (key : string) (a : A) :
  getitem o key = Ok a ↔ o = Some a.
Proof. destruct o; simpl; split; congruence. Qed.

(** Takes the first bind of a hypothesis saying that a sequence succeeded. *)
Tactic Notation "step_bind" hyp(H) ident(x) ident(Hx) :=
  apply bind_Ok in H as (x & Hx & H).

(** An invariant of the loop state holds after the loop when every iteration
    that succeeds keeps it. *)
Lemma for_each_invariant {A S} (body : S → A → result S) (I : S → Prop)
    (l : list A) (st st' : S) :
  (∀ s x s', x ∈ l → I s → body s x = Ok s' → I s') →
  I st → for_each body l st = Ok st' → I st'.
Proof.
  revert st. induction l as [|x l IH]; intros st Hbody Hst; simpl.
  - by intros [= <-].
  - intros (s & Hs & Hrest)%bind_Ok.
    eapply IH; [|by eapply (Hbody st x s); [left|..]|done].
    intros ????; apply Hbody. by right.
Qed.

(** ** Values *)


Lemma is_None_reflect (v : value) : reflect (v = VNone) (is_None v).
Proof. destruct v; by constructor. Qed.


(** ** The comparator matches equal values *)


Section reflexive.
Variable eqb : value → value → bool.
Hypothesis eqb_refl : ∀ v, eqb v v = true.


End reflexive.






Lemma compare_generic_ignore (a b : value) (type : value_type) :
  compare_generic a b ignore type = true.
Proof. done. Qed.

(** ** The comparison loop *)

Lemma tracker_add_names (self : DifferenceTracker.t) (key : string)
    (p c : value) (n : string) :
  n ∈ name <$> DifferenceTracker.add self key p c →
  n = key ∨ n ∈ name <$> self.
Proof.
  induction self as [|d self IH]; simpl.
  - rewrite list_elem_of_singleton. auto.
  - destruct (String.eqb_spec (name d) key) as [Heq|Hne]; simpl.
    + rewrite !elem_of_cons. intros [->| ?]; auto.
    + rewrite !elem_of_cons. intros [->| ?]; [auto|].
      destruct IH; auto.
Qed.

Lemma check_property_step (self : Container.t) (st st' : Container.loop_state)
    (key : string) (value : value) :
  Container.check_property self st (key, value) = Ok st' →
  step_of self st key value st'.
Proof.
  unfold Container.check_property, getattr, getattr_default.
  destruct (option_minimal_versions _ !! key) as [[[[]|]]|] eqn:Hmin; simpl.
  2: { intros [= <-]. apply step_unsupported; eauto. }
  all: assert (is_supported self key)
         by (intros minimal; rewrite Hmin; by intros [= <-]).
  all: intros (compare & Hcompare%getitem_Ok & Hrest)%bind_Ok; revert Hrest.
  all: destruct (attributes _ !! key) as [p|] eqn:Hp; simpl; [|done].
  all: destruct (is_None_reflect p) as [->|HNone]; simpl;
         [intros [= <-]; by eapply step_unset|].
  all: destruct (Container._compare p value compare) eqn:Hmatch; simpl.
  all: try (intros [= <-]; by eapply step_match).
  all: intros (p' & Hp' & (c' & Hc' & [= <-])%bind_Ok)%bind_Ok.
  all: by eapply step_mismatch.
Qed.

(** The keys of [config_mapping]. *)

Lemma dict_of_keys (entries : list (string * result value))
    (d : list (string * value)) :
  Container.dict_of entries = Ok d → d.*1 = entries.*1.
Proof.
  unfold Container.dict_of. revert d.
  induction entries as [|[k r] entries IH]; intros d; simpl.
  - by intros [= <-].
  - intros (y & Hy & (ys & Hys & [= <-])%bind_Ok)%bind_Ok.
    apply bind_Ok in Hy as (v & _ & [= <-]). simpl. f_equal. auto.
Qed.

Lemma dict_set_keys {A} (d : list (string * A)) (key : string) (v : A)
    (k : string) :
  k ∈ (dict_set d key v).*1 → k = key ∨ k ∈ d.*1.
Proof.
  induction d as [|[k' w] d IH]; simpl.
  - rewrite list_elem_of_singleton. auto.
  - destruct (String.eqb k' key); simpl; rewrite !elem_of_cons; [tauto|].
    intros [->|?%IH]; tauto.
Qed.

Lemma dict_update_keys {A} (d e : list (string * A)) (k : string) :
  k ∈ (dict_update d e).*1 → k ∈ d.*1 ∨ k ∈ e.*1.
Proof.
  unfold dict_update. revert d.
  induction e as [|[k' w] e IH]; intros d; simpl; [auto|].
  intros [[->|?]%dict_set_keys|?]%IH; rewrite ?elem_of_cons; auto.
Qed.

Lemma base_mapping_keys host_config config network restart_policy detach
    expected_exposed :
  (Container.base_mapping host_config config network restart_policy detach
     expected_exposed).*1 = base_keys.
Proof. reflexivity. Qed.

(** The options that depend on an accompanying option are not among the
    keys that are always compared. *)
Lemma dependent_keys_apart (key : string) :
  key ∈ ["restart_retries"; "log_driver"; "log_options"] →
  key ∉ base_keys ++ ["auto_remove"; "stop_timeout"] ++ limits_keys.
Proof.
  revert key. apply Forall_forall.
  apply (bool_decide_unpack _). by vm_compute.
Qed.

(** Where a key of [config_mapping] comes from. *)
Lemma config_mapping_keys (self : Container.t) (cm : list (string * value))
    (key : string) :
  Container.config_mapping self = Ok cm →
  key ∈ cm.*1 →
  key ∈ base_keys ++ ["auto_remove"; "stop_timeout"] ++ limits_keys
  ∨ (key = "restart_retries"
     ∧ ∃ v, attributes (Container.parameters self) !! "restart_policy" = Some v
            ∧ truthy v = true)
  ∨ ((key = "log_driver" ∨ key = "log_options")
     ∧ ∃ v, attributes (Container.parameters self) !! "log_driver" = Some v
            ∧ truthy v = true).
Proof.
  unfold Container.config_mapping. intros H.
  step_bind H host_config Hhc. step_bind H u1 Hu1.
  step_bind H config Hc. step_bind H u2 Hu2.
  step_bind H network Hn. step_bind H u3 Hu3.
  step_bind H log_config Hlc. step_bind H restart_policy Hrp.
  step_bind H attach_stderr Hse. step_bind H attach_stdout Hso.
  step_bind H exposed_ports Hep. step_bind H expected_exposed Hee.
  step_bind H cm0 Hcm0. step_bind H rp Hrpp. step_bind H cm1 Hcm1.
  step_bind H ld Hld. step_bind H cm2 Hcm2.
  step_bind H auto_remove Har. step_bind H cm3 Hcm3.
  step_bind H stop_timeout Hst. step_bind H cm4 Hcm4.
  apply dict_of_keys in Hcm0. rewrite base_mapping_keys in Hcm0.
  assert (Hrp' : attributes (Container.parameters self) !! "restart_policy"
                 = Some rp).
  { unfold getattr in Hrpp. by destruct (attributes _ !! _); simplify_eq. }
  assert (Hld' : attributes (Container.parameters self) !! "log_driver"
                 = Some ld).
  { unfold getattr in Hld. by destruct (attributes _ !! _); simplify_eq. }
  assert (Hk1 : ∀ k, k ∈ cm1.*1 → k ∈ base_keys ∨
    (k = "restart_retries" ∧ truthy rp = true)).
  { intros k. destruct (truthy rp); [|simplify_eq; rewrite Hcm0; auto].
    step_bind Hcm1 retries Hr. simplify_eq.
    intros [->|?]%dict_set_keys; [auto|]. rewrite <-Hcm0. auto. }
  assert (Hk2 : ∀ k, k ∈ cm2.*1 → k ∈ cm1.*1 ∨
    ((k = "log_driver" ∨ k = "log_options") ∧ truthy ld = true)).
  { intros k. destruct (truthy ld); [|simplify_eq; auto].
    step_bind Hcm2 type Ht. step_bind Hcm2 options Ho. simplify_eq.
    intros [->|[->|?]%dict_set_keys]%dict_set_keys; auto. }
  assert (Hk3 : ∀ k, k ∈ cm3.*1 → k ∈ cm2.*1 ∨ k = "auto_remove").
  { intros k. destruct auto_remove; [|simplify_eq; auto].
    step_bind Hcm3 v Hv. simplify_eq. intros [->|?]%dict_set_keys; auto. }
  assert (Hk4 : ∀ k, k ∈ cm4.*1 → k ∈ cm3.*1 ∨ k = "stop_timeout").
  { intros k. destruct stop_timeout; [|simplify_eq; auto].
    step_bind Hcm4 v Hv. simplify_eq. intros [->|?]%dict_set_keys; auto. }
  assert (Hcm : key ∈ cm.*1 → key ∈ cm4.*1 ∨ key ∈ limits_keys).
  { destruct (LooseVersion_lt _ _); [|simplify_eq; auto].
    step_bind H limits Hl. simplify_eq. apply dict_of_keys in Hl.
    intros [?|Hin]%dict_update_keys; [auto|]. right. by rewrite Hl in Hin. }
  intros Hin. rewrite !elem_of_app.
  destruct (Hcm Hin) as [[[[[?|[-> ?]]%Hk1|[? ?]]%Hk2| ->]%Hk3| ->]%Hk4|?];
    rewrite ?elem_of_cons; eauto 10.
Qed.


Lemma has_different_configuration_Ok (self : Container.t) (changed : bool)
    (diffs : DifferenceTracker.t) :
  Container.has_different_configuration self = Ok (changed, diffs) ↔
  ∃ cm st,
    Container.config_mapping self = Ok cm
    ∧ Container.compare_properties self cm = Ok st
    ∧ changed = negb (DifferenceTracker.empty (Container.differences st))
    ∧ diffs = Container.differences st.
Proof.
  unfold Container.has_different_configuration. split.
  - intros (cm & Hcm & (st & Hst & [= <- <-])%bind_Ok)%bind_Ok. eauto 10.
  - intros (cm & st & -> & Hst & -> & ->). simpl. by rewrite Hst.
Qed.

(** C6.  A property whose comparison strategy is [ignore] always matches:
    [_compare] answers [True] for all desired and observed values, and no run
    of [has_different_configuration] records a difference under the name of
    such a property. *)
Theorem ignore_never_differs :
  (∀ (a b : value) (compare : compare_spec),
     c_comparison compare = ignore → Container._compare a b compare = true)
  ∧ (∀ (self : Container.t) (changed : bool) (diffs : DifferenceTracker.t)
       (key : string) (compare : compare_spec),
       Container.has_different_configuration self = Ok (changed, diffs) →
       comparisons (client (Container.parameters self))
         !! default key (Container.parameters_map !! key) = Some compare →
       c_comparison compare = ignore →
       key ∉ name <$> diffs).
Proof.
  split.
  - intros a b compare Hignore. unfold Container._compare.
    rewrite Hignore. apply compare_generic_ignore.
  - intros self changed diffs key compare
      (cm & st & _ & Hloop & _ & ->)%has_different_configuration_Ok
      Hcompare Hignore.
    revert Hloop. unfold Container.compare_properties.
    apply (for_each_invariant _
      (λ st, key ∉ name <$> Container.differences st)); [|by apply not_elem_of_nil].
    intros s [k v] s' _ Hs Hstep%check_property_step.
    destruct Hstep as [_ ->|? _ _ ->|? ? _ _ _ _ _ ->
                      |compare' p p' c' _ Hcompare' _ _ Hmismatch _ _ ->];
      try done.
    simpl. intros [->|?]%tracker_add_names; [|done].
    rewrite Hcompare in Hcompare'. simplify_eq.
    unfold Container._compare in Hmismatch. rewrite Hignore in Hmismatch.
    by rewrite compare_generic_ignore in Hmismatch.
Qed.

(** The keys that a run of [has_different_configuration] compares are not
    marked unsupported under their own name, which is where the loop looks
    the mark up, and the parameters hold a value other than [None] for them;
    [restart_retries] is compared only when [restart_policy] is set, and
    [log_driver] and [log_options] only when [log_driver] is set.  Every
    recorded difference belongs to a compared key. *)
Lemma compared_only_when_supported_and_set (self : Container.t)
    (keys : list string) :
  Container.compared_properties self = Ok keys →
  (∀ key, key ∈ keys →
     is_supported self key
     ∧ (∃ p, attributes (Container.parameters self) !! key = Some p
             ∧ p ≠ VNone)
     ∧ (key = "restart_retries" →
        ∃ v, attributes (Container.parameters self) !! "restart_policy" = Some v
             ∧ v ≠ VNone ∧ truthy v = true)
     ∧ (key = "log_driver" ∨ key = "log_options" →
        ∃ v, attributes (Container.parameters self) !! "log_driver" = Some v
             ∧ v ≠ VNone ∧ truthy v = true))
  ∧ (∀ changed diffs d,
       Container.has_different_configuration self = Ok (changed, diffs) →
       d ∈ diffs → name d ∈ keys).
Proof.
  unfold Container.compared_properties.
  intros (cm & Hcm & (st & Hloop & [= <-])%bind_Ok)%bind_Ok.
  assert (Hinv :
    (∀ key, key ∈ Container.compared st →
       key ∈ cm.*1
       ∧ is_supported self key
       ∧ (∃ p, attributes (Container.parameters self) !! key = Some p
               ∧ p ≠ VNone))
    ∧ (∀ n, n ∈ name <$> Container.differences st → n ∈ Container.compared st)).
  { revert Hloop. unfold Container.compare_properties.
    apply (for_each_invariant _ (λ st,
      (∀ key, key ∈ Container.compared st →
         key ∈ cm.*1
         ∧ is_supported self key
         ∧ (∃ p, attributes (Container.parameters self) !! key = Some p
                 ∧ p ≠ VNone))
      ∧ (∀ n, n ∈ name <$> Container.differences st →
           n ∈ Container.compared st))).
    2: { split; intros ? []%elem_of_nil. }
    intros s [k v] s' Hin [Hcompared Hnames] Hstep%check_property_step.
    assert (Hk : k ∈ cm.*1) by (apply list_elem_of_fmap; by exists (k, v)).
    destruct Hstep as [_ ->|? _ _ ->|compare p ? _ Hp HNone _ ->
                      |compare p p' c' ? _ Hp HNone _ _ _ ->]; try done.
    - simpl. split.
      + intros key [?| ->%list_elem_of_singleton]%elem_of_app; eauto.
      + intros n Hn. apply elem_of_app. auto.
    - simpl. split.
      + intros key [?| ->%list_elem_of_singleton]%elem_of_app; eauto.
      + intros n [->|?]%tracker_add_names; apply elem_of_app;
          [right; by apply list_elem_of_singleton|auto]. }
  destruct Hinv as [Hcompared Hnames]. split.
  - intros key (Hin & Hsupported & Hset)%Hcompared.
    split; [done|]. split; [done|].
    destruct (config_mapping_keys self cm key Hcm Hin)
      as [Hbase|[[-> (v & Hv & Htruthy)]|[Hlog (v & Hv & Htruthy)]]].
    + assert (Hn : key ∉ ["restart_retries"; "log_driver"; "log_options"]).
      { intros Hk. by apply (dependent_keys_apart key). }
      split; [intros ->|intros [->| ->]]; exfalso; apply Hn;
        repeat constructor.
    + split; [|by intros [|]].
      intros _. exists v. repeat split; [done| |done]. by intros ->.
    + split; [by destruct Hlog as [-> | ->]|].
      intros _. exists v. repeat split; [done| |done]. by intros ->.
  - intros changed diffs d
      (cm' & st' & Hcm' & Hloop' & _ & ->)%has_different_configuration_Ok Hd.
    rewrite Hcm in Hcm'. simplify_eq. rewrite Hloop in Hloop'. simplify_eq.
    apply Hnames, list_elem_of_fmap. eauto.
Qed.



(** ** Sorting *)

Lemma string_ltb_lt (s t : string) :
  String.ltb s t = true ↔ OrderedTypeEx.String_as_OT.lt s t.
Proof.
  rewrite <-OrderedTypeEx.String_as_OT.cmp_lt.
  unfold String.ltb, OrderedTypeEx.String_as_OT.cmp.
  by destruct (String.compare s t).
Qed.

#[global] Instance string_lexico_po : StrictOrder (@lexico string _).
Proof.
  split.
  - intros s Hs. apply string_ltb_lt in Hs.
    by apply OrderedTypeEx.String_as_OT.lt_not_eq in Hs.
  - intros s t u Hst Htu. apply string_ltb_lt.
    eapply OrderedTypeEx.String_as_OT.lt_trans; by apply string_ltb_lt.
Qed.

#[global] Instance string_lexico_trichotomy : TrichotomyT (@lexico string _).
Proof.
  red; refine (λ s t,
    match String.compare s t as c return String.compare s t = c → _ with
    | Lt => λ H, inleft (left _)
    | Eq => λ H, inleft (right _)
    | Gt => λ H, inright _
    end eq_refl).
  - by apply String.compare_eq_iff.
  - unfold lexico, string_lexico, String.ltb. by rewrite H.
  - unfold lexico, string_lexico, String.ltb.
    rewrite String.compare_antisym, H. done.
Defined.

(** A stable insertion sort orders its items, and its result does not depend
    on the order of the input, when the keys are totally ordered.  The keys
    for which this is known are those that satisfy [P]; through [π] they
    are the elements of a strict total order [R]. *)
Section sort_by_total_order.
Context {A K K' : Type} (lt : K → K → result bool).
Context (R : relation K') `{!StrictOrder R, !Trichotomy R}.
Context (π : K → K') (P : K → Prop).
Hypothesis π_inj : ∀ x y, P x → P y → π x = π y → x = y.
Hypothesis lt_spec :
  ∀ x y, P x → P y → ∃ b, lt x y = Ok b ∧ (b = true ↔ R (π x) (π y)).





End sort_by_total_order.









Section atoms.
Context (ints : string → bool).









End atoms.


(** ** The table of comparisons *)

Import AnsibleDockerClientContainer.

Lemma is_str_true (v : value) (s : string) : is_str v s = true ↔ v = VStr s.
Proof.
  destruct v; simpl; try (split; congruence).
  rewrite String.eqb_eq. split; congruence.
Qed.

Lemma assign_comparison_Ok (comparisons comparisons' : gmap string compare_spec)
    (option : string) (mode : comparison_mode) :
  assign_comparison comparisons option mode = Ok comparisons' ↔
  ∃ v, comparisons !! option = Some v
       ∧ comparisons' = <[option := set_comparison mode v]> comparisons.
Proof.
  unfold assign_comparison. rewrite bind_Ok.
  setoid_rewrite getitem_Ok. split.
  - intros (v & Hv & [= <-]). eauto.
  - intros (v & Hv & ->). eauto.
Qed.

(** What an iteration over the [comparisons] parameter does when it
    succeeds. *)
Lemma process_comparison_Ok (d : defaults) (st st' : overrides) (key : string)
    (value : value) :
  process_comparison d st (key, value) = Ok st' →
  (key = "*" ∧ st' = st)
  ∨ (key ≠ "*" ∧ ∃ key_main mode v,
       d_comp_aliases d !! key = Some key_main
       ∧ o_comp_aliases_used st !! key_main = None
       ∧ mode_of value = Some mode
       ∧ o_comparisons st !! key_main = Some v
       ∧ (mode = allow_more_present → c_type v ≠ type_value)
       ∧ st' = {| o_comparisons :=
                    <[key_main := set_comparison mode v]> (o_comparisons st);
                  o_comp_aliases_used :=
                    <[key_main := key]> (o_comp_aliases_used st) |}).
Proof.
  unfold process_comparison.
  destruct (String.eqb_spec key "*") as [->|Hkey]; [intros [= <-]; by left|].
  destruct (d_comp_aliases d !! key) as [key_main|] eqn:Hmain.
  2: { intros H. step_bind H u Hu. done. }
  intros H. right. split; [done|].
  step_bind H u Hused. step_bind H comparisons Hassign. simplify_eq.
  destruct (o_comp_aliases_used st !! key_main) eqn:Hnone; [done|].
  unfold mode_of.
  destruct (is_str value "strict").
  { apply assign_comparison_Ok in Hassign as (v & Hv & ->).
    exists key_main, strict, v. by repeat split. }
  destruct (is_str value "ignore").
  { apply assign_comparison_Ok in Hassign as (v & Hv & ->).
    exists key_main, ignore, v. by repeat split. }
  destruct (is_str value "allow_more_present"); [|done].
  step_bind Hassign v Hv. step_bind Hassign u' Htype.
  apply getitem_Ok in Hv. apply fail_if_Ok in Htype.
  apply assign_comparison_Ok in Hassign as (v' & Hv' & ->).
  rewrite Hv in Hv'. simplify_eq.
  exists key_main, allow_more_present, v'. repeat split; try done.
  intros _. by apply bool_decide_eq_false in Htype.
Qed.

Section loop_over_comparisons.
Context (d : defaults).

(** The keys that are recorded as used stay recorded. *)
Lemma loop_keeps_used (items : list (string * value)) (st st' : overrides)
    (key_main key : string) :
  for_each (process_comparison d) items st = Ok st' →
  o_comp_aliases_used st !! key_main = Some key →
  o_comp_aliases_used st' !! key_main = Some key
  ∧ o_comparisons st' !! key_main = o_comparisons st !! key_main.
Proof.
  revert st. induction items as [|[k v] items IH]; intros st; simpl.
  - by intros [= <-].
  - intros (s & Hs & Hrest)%bind_Ok Hused.
    apply process_comparison_Ok in Hs
      as [[_ ->]|(_ & m & mode & w & _ & Hnone & _ & _ & _ & ->)]; [eauto|].
    assert (m ≠ key_main) by congruence.
    destruct (IH _ Hrest) as [-> ->]; simpl; by rewrite lookup_insert_ne.
Qed.

(** Every key of the parameter ends up recorded for its option, and the
    option gets the mode that the key asks for. *)
Lemma loop_assigns (items : list (string * value)) (st st' : overrides)
    (key key_main : string) (value : value) :
  for_each (process_comparison d) items st = Ok st' →
  (key, value) ∈ items → key ≠ "*" →
  d_comp_aliases d !! key = Some key_main →
  o_comp_aliases_used st' !! key_main = Some key
  ∧ ∃ v, o_comparisons st' !! key_main = Some v
         ∧ mode_of value = Some (c_comparison v)
         ∧ (c_comparison v = allow_more_present → c_type v ≠ type_value).
Proof.
  revert st. induction items as [|[k w] items IH]; intros st; simpl.
  - by intros _ ?%elem_of_nil.
  - intros (s & Hs & Hrest)%bind_Ok [[= <- <-]|Hin]%elem_of_cons Hkey Hmain;
      [|by eapply IH].
    apply process_comparison_Ok in Hs
      as [[-> _]|(_ & m & mode & v & Hm & _ & Hmode & _ & Hamp & ->)]; [done|].
    rewrite Hmain in Hm. simplify_eq.
    destruct (loop_keeps_used items _ st' m key Hrest) as [-> ->];
      simpl; [by rewrite lookup_insert_eq|].
    split; [done|]. rewrite lookup_insert_eq. eauto.
Qed.


(** The loop changes no type and adds no entry. *)
Lemma loop_keeps_types (items : list (string * value)) (st st' : overrides)
    (option : string) :
  for_each (process_comparison d) items st = Ok st' →
  c_type <$> o_comparisons st' !! option = c_type <$> o_comparisons st !! option.
Proof.
  apply (for_each_invariant _ (λ s,
    c_type <$> o_comparisons s !! option = c_type <$> o_comparisons st !! option));
    [|done].
  intros s [k w] s' _ IH Hs. rewrite <-IH.
  apply process_comparison_Ok in Hs
    as [[_ ->]|(_ & m & mode & v & _ & _ & _ & Hv & _ & ->)]; [done|].
  simpl. destruct (decide (m = option)) as [->|?].
  - by rewrite lookup_insert_eq, Hv.
  - by rewrite lookup_insert_ne.
Qed.

Lemma loop_keeps_scalars_exact (items : list (string * value))
    (st st' : overrides) :
  for_each (process_comparison d) items st = Ok st' →
  scalars_are_exact (o_comparisons st) → scalars_are_exact (o_comparisons st').
Proof.
  intros Hloop Hst. revert Hloop.
  apply (for_each_invariant _ (λ s, scalars_are_exact (o_comparisons s)));
    [|done].
  intros s [k w] s' _ IH Hs.
  apply process_comparison_Ok in Hs
    as [[_ ->]|(_ & m & mode & v & _ & _ & _ & Hv & Hamp & ->)]; [done|].
  simpl. intros option v' Hv' Htype.
  destruct (decide (m = option)) as [->|?].
  - rewrite lookup_insert_eq in Hv'. simplify_eq. simpl in *.
    intros Hmode. by apply Hamp.
  - rewrite lookup_insert_ne in Hv' by done. eauto.
Qed.

End loop_over_comparisons.

Section phases.
Context (common : list string).

(** What the first loop does for one option when it succeeds: it leaves the
    table alone or adds the entry of the option, whose comparison is exact
    when its type is a scalar. *)
Lemma add_option_Ok (st st' : defaults) (option : string) (data : option_spec) :
  add_option common st (option, data) = Ok st' →
  d_comparisons st' = d_comparisons st
  ∨ ∃ v, d_comparisons st' = <[option := v]> (d_comparisons st)
         ∧ (c_type v = type_value → c_comparison v ≠ allow_more_present).
Proof.
  unfold add_option.
  destruct (_ && _); [intros [= <-]; by left|].
  intros H. step_bind H type Htype. simplify_eq. simpl.
  right. eexists. split; [done|]. simpl.
  destruct (default_values !! option) as [mode|] eqn:Hmode.
  - unfold default_values in Hmode.
    apply lookup_singleton_Some in Hmode as [_ <-]. done.
  - by intros ->.
Qed.

Lemma put_in_defaults_scalars_exact (module : AnsibleModule) (d : defaults) :
  put_in_defaults common module = Ok d → scalars_are_exact (d_comparisons d).
Proof.
  unfold put_in_defaults.
  apply (for_each_invariant _ (λ s, scalars_are_exact (d_comparisons s))).
  - intros s [option data] s' _ IH [->|(v & -> & Hv)]%add_option_Ok; [done|].
    intros k w Hw. destruct (decide (option = k)) as [->|?].
    + rewrite lookup_insert_eq in Hw. by simplify_eq.
    + rewrite lookup_insert_ne in Hw by done. eauto.
  - intros k w Hw. simpl in Hw. by rewrite lookup_empty in Hw.
Qed.

Lemma parse_comparisons_Ok (module : AnsibleModule)
    (comparisons : gmap string compare_spec) (warnings : list string) :
  _parse_comparisons common module = Ok (comparisons, warnings) →
  ∃ d c1 c2,
    put_in_defaults common module = Ok d
    ∧ process_legacy module (d_comparisons d) = Ok c1
    ∧ process_options module d c1 = Ok c2
    ∧ add_implicit c2 = Ok comparisons.
Proof.
  unfold _parse_comparisons. intros H.
  step_bind H d Hd. step_bind H c1 Hc1. step_bind H c2 Hc2.
  step_bind H c3 Hc3. step_bind H w Hw. simplify_eq. eauto 10.
Qed.

End phases.

(** Assigning a mode that is not [allow_more_present] keeps the scalars
    exact. *)
Lemma assign_comparison_scalars_exact
    (comparisons comparisons' : gmap string compare_spec) (option : string)
    (mode : comparison_mode) :
  assign_comparison comparisons option mode = Ok comparisons' →
  mode ≠ allow_more_present →
  scalars_are_exact comparisons → scalars_are_exact comparisons'.
Proof.
  intros (v & Hv & ->)%assign_comparison_Ok Hmode Hexact k w Hw.
  destruct (decide (option = k)) as [->|?].
  - rewrite lookup_insert_eq in Hw. by simplify_eq.
  - rewrite lookup_insert_ne in Hw by done. eauto.
Qed.

Lemma assign_comparison_types
    (comparisons comparisons' : gmap string compare_spec) (option k : string)
    (mode : comparison_mode) :
  assign_comparison comparisons option mode = Ok comparisons' →
  c_type <$> comparisons' !! k = c_type <$> comparisons !! k.
Proof.
  intros (v & Hv & ->)%assign_comparison_Ok.
  destruct (decide (option = k)) as [->|?].
  - by rewrite lookup_insert_eq, Hv.
  - by rewrite lookup_insert_ne.
Qed.

Lemma process_legacy_keeps (module : AnsibleModule)
    (comparisons comparisons' : gmap string compare_spec) :
  process_legacy module comparisons = Ok comparisons' →
  (scalars_are_exact comparisons → scalars_are_exact comparisons')
  ∧ ∀ k, c_type <$> comparisons' !! k = c_type <$> comparisons !! k.
Proof.
  unfold process_legacy. intros H.
  step_bind H ignore_image Hii. step_bind H c1 Hc1. step_bind H purge Hpn.
  assert ((scalars_are_exact comparisons → scalars_are_exact c1)
          ∧ ∀ k, c_type <$> c1 !! k = c_type <$> comparisons !! k) as [He1 Ht1].
  { destruct (truthy ignore_image); [|by simplify_eq].
    split; [by eapply assign_comparison_scalars_exact|].
    intros k. by eapply assign_comparison_types. }
  destruct (truthy purge); [|by simplify_eq].
  split.
  - intros ?. eapply assign_comparison_scalars_exact; eauto.
  - intros k. rewrite <-Ht1. by eapply assign_comparison_types.
Qed.

(** What the wildcard does: it names [strict] or [ignore], and every entry
    gets that mode, except the entry of [networks] when the [networks]
    parameter is [None]. *)
Lemma process_wildcard_Ok (module : AnsibleModule) (value : value)
    (comparisons comparisons' : gmap string compare_spec) :
  process_wildcard module value comparisons = Ok comparisons' →
  ∃ mode,
    mode_of value = Some mode ∧ mode ≠ allow_more_present
    ∧ ∀ option,
        comparisons' !! option
        = wildcard_entry module mode option <$> comparisons !! option.
Proof.
  unfold process_wildcard. intros H.
  step_bind H u Hvalue. step_bind H skip Hskip. simplify_eq.
  apply fail_if_Ok, negb_false_iff, orb_true_iff in Hvalue.
  exists (if is_str value "strict" then strict else ignore). split; [|split].
  - unfold mode_of. destruct Hvalue as [->| ->]; [done|].
    by destruct (is_str value "strict").
  - by destruct (is_str value "strict").
  - intros option. rewrite map_lookup_imap.
    destruct (comparisons !! option) as [v|] eqn:Hv; simpl; [|done].
    f_equal. unfold wildcard_entry, networks_unset.
    destruct (String.eqb_spec option "networks") as [->|Hne]; simpl; [|done].
    rewrite Hv in Hskip. step_bind Hskip networks Hnetworks.
    apply getitem_Ok in Hnetworks. simplify_eq. by rewrite Hnetworks.
Qed.

Lemma process_wildcard_keeps (module : AnsibleModule) (value : value)
    (comparisons comparisons' : gmap string compare_spec) :
  process_wildcard module value comparisons = Ok comparisons' →
  (scalars_are_exact comparisons → scalars_are_exact comparisons')
  ∧ ∀ k, c_type <$> comparisons' !! k = c_type <$> comparisons !! k.
Proof.
  intros (mode & _ & Hmode & Hlookup)%process_wildcard_Ok. split.
  - intros Hexact k w. rewrite Hlookup.
    destruct (comparisons !! k) as [v|] eqn:Hv; simpl; [|done].
    intros [= <-]. unfold wildcard_entry.
    destruct (_ && _); [by eapply Hexact|done].
  - intros k. rewrite Hlookup. destruct (comparisons !! k); simpl; [|done].
    unfold wildcard_entry. by destruct (_ && _).
Qed.

(** The phases of [process_options] when the parameter is given. *)
Lemma process_options_Ok (module : AnsibleModule) (d : defaults)
    (items : list (string * value)) (c1 c2 : gmap string compare_spec) :
  params module !! "comparisons" = Some (VDict items) →
  items ≠ [] →
  process_options module d c1 = Ok c2 →
  ∃ c1' st,
    match dict_lookup items "*" with
    | Some value => process_wildcard module value c1
    | None => Ok c1
    end = Ok c1'
    ∧ for_each (process_comparison d) items
        {| o_comparisons := c1'; o_comp_aliases_used := ∅ |} = Ok st
    ∧ c2 = o_comparisons st.
Proof.
  unfold process_options. intros -> Hitems. simpl.
  destruct items; [done|]. intros H.
  step_bind H c1' Hc1. step_bind H st Hst. simplify_eq. eauto.
Qed.

Lemma add_implicit_Ok (comparisons comparisons' : gmap string compare_spec) :
  add_implicit comparisons = Ok comparisons' →
  (∀ option, option ∉ implicit_options →
     comparisons' !! option = comparisons !! option)
  ∧ (scalars_are_exact comparisons → scalars_are_exact comparisons').
Proof.
  unfold add_implicit. intros H.
  step_bind H published_ports Hpp. step_bind H healthcheck Hhc. simplify_eq.
  split.
  - intros option Hoption. unfold implicit_options in Hoption.
    rewrite !lookup_insert_ne; [done|..]; intros <-; apply Hoption;
      repeat constructor.
  - intros Hexact option v Hv Htype.
    repeat (apply lookup_insert_Some in Hv as [[<- <-]|[_ Hv]]; simpl in *;
            [by try case_bool_decide|]).
    eauto.
Qed.

Lemma elem_of_items_nonempty (items : list (string * value)) (key : string)
    (value : value) :
  (key, value) ∈ items → items ≠ [].
Proof. by intros ?%elem_of_not_nil. Qed.

Lemma dict_lookup_nonempty {A} (items : list (string * A)) (key : string)
    (a : A) :
  dict_lookup items key = Some a → items ≠ [].
Proof. by destruct items. Qed.


(** C4.  A wildcard whose value is neither ['strict'] nor ['ignore'] makes
    [_parse_comparisons] fail; when the defaults and the legacy options went
    through, the failure is the [fail_json] about the wildcard. *)
Theorem wildcard_must_be_strict_or_ignore (common : list string)
    (module : AnsibleModule) (items : list (string * value)) (wildcard : value) :
  params module !! "comparisons" = Some (VDict items) →
  dict_lookup items "*" = Some wildcard →
  wildcard ≠ VStr "strict" →
  wildcard ≠ VStr "ignore" →
  ∃ e, _parse_comparisons common module = Err e
       ∧ ∀ d c1,
           put_in_defaults common module = Ok d →
           process_legacy module (d_comparisons d) = Ok c1 →
           e = fail_json
             "The wildcard can only be used with comparison modes 'strict' and 'ignore'!".
Proof.
  intros Hparam Hwildcard Hstrict Hignore.
  assert (is_str wildcard "strict" = false) as Hs.
  { apply not_true_is_false. by rewrite is_str_true. }
  assert (is_str wildcard "ignore" = false) as Hi.
  { apply not_true_is_false. by rewrite is_str_true. }
  unfold _parse_comparisons.
  destruct (put_in_defaults common module) as [d|e] eqn:Hd; simpl;
    [|exists e; split; [done|]; by intros ?? [=]].
  destruct (process_legacy module (d_comparisons d)) as [c1|e] eqn:Hc1; simpl;
    [|exists e; split; [done|]; intros ?? [= <-]; by rewrite Hc1].
  eexists. split; [|done].
  unfold process_options. rewrite Hparam. simpl.
  pose proof (dict_lookup_nonempty _ _ _ Hwildcard) as Hne.
  destruct items as [|item items]; [done|].
  rewrite Hwildcard. unfold process_wildcard. by rewrite Hs, Hi.
Qed.

(** C5.  A key of the [comparisons] parameter that asks for
    ['allow_more_present'] on an option whose type is ['value'] makes
    [_parse_comparisons] fail; and the table of a run that succeeds has no
    entry of type ['value'] whose comparison is ['allow_more_present']. *)
Theorem allow_more_present_rejected_for_values (common : list string)
    (module : AnsibleModule) :
  (∀ (items : list (string * value)) (key key_main : string) (d : defaults)
     (v : compare_spec),
     params module !! "comparisons" = Some (VDict items) →
     (key, VStr "allow_more_present") ∈ items →
     key ≠ "*" →
     put_in_defaults common module = Ok d →
     d_comp_aliases d !! key = Some key_main →
     d_comparisons d !! key_main = Some v →
     c_type v = type_value →
     ∃ e, _parse_comparisons common module = Err e)
  ∧ (∀ (comparisons : gmap string compare_spec) (warnings : list string),
       _parse_comparisons common module = Ok (comparisons, warnings) →
       scalars_are_exact comparisons).
Proof.
  split.
  - intros items key key_main d v Hparam Hin Hkey Hd Hmain Hv Htype.
    destruct (_parse_comparisons common module) as [[comparisons warnings]|e]
      eqn:Hparse; [exfalso|by eauto].
    apply parse_comparisons_Ok in Hparse
      as (d' & c1 & c2 & Hd' & Hlegacy & Hoptions & _).
    rewrite Hd in Hd'. simplify_eq.
    eapply process_options_Ok in Hoptions
      as (c1' & st & Hwild & Hloop & ->);
      [|done|by eapply elem_of_items_nonempty].
    destruct (loop_assigns d' items _ st key key_main _ Hloop Hin Hkey Hmain)
      as (_ & w & Hw & Hmode & Hamp).
    injection Hmode as Hmode. apply Hamp; [done|].
    assert (c_type <$> o_comparisons st !! key_main = Some type_value) as Hty.
    { rewrite (loop_keeps_types d' items _ st key_main Hloop). simpl.
      apply process_legacy_keeps in Hlegacy as [_ Hlegacy].
      destruct (dict_lookup items "*").
      - apply process_wildcard_keeps in Hwild as [_ ->].
        by rewrite Hlegacy, Hv, <-Htype.
      - simplify_eq. by rewrite Hlegacy, Hv, <-Htype. }
    rewrite Hw in Hty. simpl in Hty. by injection Hty.
  - intros comparisons warnings Hparse.
    pose proof Hparse as (d & c1 & c2 & Hd & Hlegacy & Hoptions & Himpl)
      %parse_comparisons_Ok.
    apply add_implicit_Ok in Himpl as [_ Himpl]. apply Himpl.
    apply put_in_defaults_scalars_exact in Hd.
    apply process_legacy_keeps in Hlegacy as [Hc1 _].
    specialize (Hc1 Hd). clear Hd Himpl Hparse.
    revert Hoptions. unfold process_options.
    destruct (truthy _); [|by intros [= <-]].
    destruct (default VNone _) as [| | | | |items]; try done.
    intros H. step_bind H c1' Hwild. step_bind H st Hloop. simplify_eq.
    eapply loop_keeps_scalars_exact; [done|]. simpl.
    destruct (dict_lookup items "*"); [|by simplify_eq].
    apply process_wildcard_keeps in Hwild as [Hwild _]. auto.
Qed.



(** C10.  Two different keys of the [comparisons] parameter that name the
    same option, as the option and an alias of it or as two of its aliases,
    make [_parse_comparisons] fail. *)
Theorem same_option_twice_is_rejected (common : list string)
    (module : AnsibleModule) (items : list (string * value))
    (key1 key2 key_main : string) (value1 value2 : value) (d : defaults) :
  params module !! "comparisons" = Some (VDict items) →
  (key1, value1) ∈ items →
  (key2, value2) ∈ items →
  key1 ≠ key2 →
  key1 ≠ "*" →
  key2 ≠ "*" →
  put_in_defaults common module = Ok d →
  d_comp_aliases d !! key1 = Some key_main →
  d_comp_aliases d !! key2 = Some key_main →
  ∃ e, _parse_comparisons common module = Err e.
Proof.
  intros Hparam Hin1 Hin2 Hne Hkey1 Hkey2 Hd Hmain1 Hmain2.
  destruct (_parse_comparisons common module) as [[comparisons warnings]|e]
    eqn:Hparse; [exfalso|by eauto].
  apply parse_comparisons_Ok in Hparse
    as (d' & c1 & c2 & Hd' & _ & Hoptions & _).
  rewrite Hd in Hd'. simplify_eq.
  eapply process_options_Ok in Hoptions
    as (c1' & st & _ & Hloop & ->); [|done|by eapply elem_of_items_nonempty].
  destruct (loop_assigns d' items _ st key1 key_main value1 Hloop Hin1 Hkey1 Hmain1)
    as [Hused1 _].
  destruct (loop_assigns d' items _ st key2 key_main value2 Hloop Hin2 Hkey2 Hmain2)
    as [Hused2 _].
  congruence.
Qed.

(** ** The unpause-and-retry loops *)

Section retry.
Context {W : Type}.
Implicit Types (self : ContainerManager.t W) (w : W).

Lemma remove_attempt_is_attempt (r : call_result) :
  is_attempt (called_remove_container r) = true
  ∧ is_unpause (called_remove_container r) = false.
Proof. done. Qed.

Lemma stop_attempt_is_attempt (r : call_result) :
  is_attempt (called_stop r) = true ∧ is_unpause (called_stop r) = false.
Proof. done. Qed.

(** A run of [retries] that starts with [count] unpauses behind it makes at
    most [3 - count] more, and one attempt more than unpauses at most. *)
Lemma retries_bounds (fails_paused : call_result → bool)
    (attempt : call_result → call) (operation unpause : W → call_result * W)
    (count : nat) w (cs : list call) w' (ending : retry_end) :
  (∀ r, is_attempt (attempt r) = true ∧ is_unpause (attempt r) = false) →
  retries fails_paused attempt operation unpause count w cs w' ending →
  count_unpause cs ≤ 3 - count ∧ count_attempts cs ≤ count_unpause cs + 1.
Proof.
  intros Hattempt. unfold count_unpause, count_attempts.
  induction 1 as [count w r w' _ _|w r w' _ _|count w r w' exc w'' Hcount _ _ _
                 |count w r w' response w'' cs wf ending Hcount _ _ _ _ IH];
    destruct (Hattempt r) as [Ha Hu]; simpl; rewrite Ha, Hu; simpl; lia.
Qed.

(** With the fuel that the remaining unpauses need, the loop of
    [container_remove] ends, and its calls are a run of [retries]. *)
Lemma remove_loop_retries (fuel count : nat) self (container_id : string)
    (volume_state link force : bool) w (cs : list call) :
  count ≤ 3 → 4 - count ≤ fuel →
  ∃ e new ending,
    ContainerManager.remove_loop fuel self container_id volume_state link
      force count w cs = Some e
    ∧ ContainerManager.calls e = cs ++ new
    ∧ retries remove_fails_paused called_remove_container
        (ContainerManager.remove_container (ContainerManager.docker self)
           container_id volume_state link force)
        (ContainerManager.unpause (ContainerManager.docker self) container_id)
        count w new (ContainerManager.daemon e) ending
    ∧ ∀ err, fatal_outcome container_id ending = Some err →
        ContainerManager.outcome e = Err err.
Proof.
  revert count w cs.
  induction fuel as [|fuel IH]; intros count w cs Hcount Hfuel; [lia|].
  simpl.
  destruct (ContainerManager.remove_container _ _ _ _ _ w) as [r w'] eqn:Hr.
  assert (Hsettled : ∀ o, remove_fails_paused r = false →
    ∃ e new ending,
      ContainerManager.ends o self w' (cs ++ [called_remove_container r])
        = Some e
      ∧ ContainerManager.calls e = cs ++ new
      ∧ retries remove_fails_paused called_remove_container
          (ContainerManager.remove_container (ContainerManager.docker self)
             container_id volume_state link force)
          (ContainerManager.unpause (ContainerManager.docker self)
             container_id)
          count w new (ContainerManager.daemon e) ending
      ∧ ∀ err, fatal_outcome container_id ending = Some err →
          ContainerManager.outcome e = Err err).
  { intros o Hpaused.
    eexists _, [called_remove_container r], (settled r).
    split; [done|]. split; [done|].
    split; [by apply retries_settled|by intros ? [=]]. }
  destruct r as [response|[explanation text|[explanation|] text|text]];
    try by apply Hsettled.
  destruct (str_contains paused_message explanation) eqn:Hpaused.
  2: { destruct (_ && _); apply Hsettled; simpl; by rewrite Hpaused. }
  destruct (Nat.eqb_spec count 3) as [->|Hthree].
  { eexists _, [_], (gave_up _). split; [done|]. split; [done|].
    split; [by apply retries_gave_up|]. by intros ? [= <-]. }
  destruct (ContainerManager.unpause _ _ w') as [[response|exc2] w''] eqn:Hu.
  - destruct (IH (count + 1) w''
      ((cs ++ [called_remove_container
                 (Raised (APIError (Some explanation) text))])
         ++ [called_unpause (Returned response)]))
      as (e & new & ending & -> & Hcalls & Hrun & Hfatal); [lia..|].
    exists e, (called_remove_container
                 (Raised (APIError (Some explanation) text))
               :: called_unpause (Returned response) :: new), ending.
    split; [done|]. split; [by rewrite Hcalls, <-!app_assoc|].
    split; [|done]. rewrite Nat.add_1_r in Hrun.
    eapply retries_again; [lia|done..].
  - eexists _, [_; _], (unpause_failed exc2). split; [done|].
    split; [by rewrite <-app_assoc|].
    split; [eapply retries_unpause_failed; [lia|done..]|].
    by intros ? [= <-].
Qed.

(** The same for the loop of [container_stop]. *)
Lemma stop_loop_retries (fuel count : nat) self (container_id : string)
    (stop_timeout : value) w (cs : list call) :
  count ≤ 3 → 4 - count ≤ fuel →
  ∃ e new ending,
    ContainerManager.stop_loop fuel self container_id stop_timeout count w cs
      = Some e
    ∧ ContainerManager.calls e = cs ++ new
    ∧ retries stop_fails_paused called_stop
        (ContainerManager.stop (ContainerManager.docker self) container_id
           (if truthy stop_timeout then Some stop_timeout else None))
        (ContainerManager.unpause (ContainerManager.docker self) container_id)
        count w new (ContainerManager.daemon e) ending
    ∧ ∀ err, fatal_outcome container_id ending = Some err →
        ContainerManager.outcome e = Err err.
Proof.
  revert count w cs.
  induction fuel as [|fuel IH]; intros count w cs Hcount Hfuel; [lia|].
  simpl.
  destruct (ContainerManager.stop _ _ _ w) as [r w'] eqn:Hr.
  assert (Hsettled : ∀ o, stop_fails_paused r = false →
    ∃ e new ending,
      ContainerManager.ends o self w' (cs ++ [called_stop r]) = Some e
      ∧ ContainerManager.calls e = cs ++ new
      ∧ retries stop_fails_paused called_stop
          (ContainerManager.stop (ContainerManager.docker self) container_id
             (if truthy stop_timeout then Some stop_timeout else None))
          (ContainerManager.unpause (ContainerManager.docker self)
             container_id)
          count w new (ContainerManager.daemon e) ending
      ∧ ∀ err, fatal_outcome container_id ending = Some err →
          ContainerManager.outcome e = Err err).
  { intros o Hpaused. eexists _, [called_stop r], (settled r).
    split; [done|]. split; [done|].
    split; [by apply retries_settled|by intros ? [=]]. }
  destruct r as [response|[[explanation|] text|[explanation|] text|text]];
    try by apply Hsettled.
  all: destruct (str_contains paused_message explanation) eqn:Hpaused;
    [|apply Hsettled; simpl; by rewrite Hpaused].
  all: destruct (Nat.eqb_spec count 3) as [->|Hthree];
    [eexists _, [_], (gave_up _); split; [done|]; split; [done|];
     split; [by apply retries_gave_up|by intros ? [= <-]]|].
  all: destruct (ContainerManager.unpause _ _ w') as [[response|exc2] w'']
         eqn:Hu;
    [|eexists _, [_; _], (unpause_failed exc2); split; [done|];
      split; [by rewrite <-app_assoc|];
      split; [eapply retries_unpause_failed; [lia|done..]
             |by intros ? [= <-]]].
  all: match goal with
       | |- ∃ e new ending,
              ContainerManager.stop_loop _ _ _ _ _ _ ((_ ++ [?a]) ++ [?u])
              = _ ∧ _ =>
           destruct (IH (count + 1) w'' ((cs ++ [a]) ++ [u]))
             as (e & new & ending & -> & Hcalls & Hrun & Hfatal); [lia..|];
           exists e, (a :: u :: new), ending
       end.
  all: split; [done|]; split; [by rewrite Hcalls, <-!app_assoc|].
  all: split; [|done]; rewrite Nat.add_1_r in Hrun.
  all: eapply retries_again; [lia|done..].
Qed.

End retry.

(** C9.  With fuel for four rounds, [container_remove] and [container_stop]
    end, whatever the daemon answers, after three unpauses and four attempts
    at most.  When they reach their loop (outside check mode, and for
    [container_stop] without [force_kill]) their calls are a run of
    [retries] on the daemon they were given: they start with an attempt; an
    attempt that fails because the container is paused is followed by an
    unpause, and the unpause by the next attempt, three times at most; a
    fourth such failure, and a failure of an unpause, make the method fail
    with [fail_json]. *)
Theorem paused_failures_are_retried_three_times {W : Type}
    (self : ContainerManager.t W) (container_id : string) (link force : bool)
    (w : W) (fuel : nat) :
  4 ≤ fuel →
  (∃ e,
     ContainerManager.container_remove fuel self container_id link force w
       = Some e
     ∧ count_unpause (ContainerManager.calls e) ≤ 3
     ∧ count_attempts (ContainerManager.calls e) ≤ 4
     ∧ ∀ keep_volumes,
         ContainerManager.check_mode self = false →
         attributes (ContainerManager.parameters self) !! "keep_volumes"
           = Some keep_volumes →
         ∃ ending,
           retries remove_fails_paused called_remove_container
             (ContainerManager.remove_container (ContainerManager.docker self)
                container_id (negb (truthy keep_volumes)) link force)
             (ContainerManager.unpause (ContainerManager.docker self)
                container_id)
             0 w (ContainerManager.calls e) (ContainerManager.daemon e) ending
           ∧ ∀ err, fatal_outcome container_id ending = Some err →
               ContainerManager.outcome e = Err err)
  ∧ (∃ e,
       ContainerManager.container_stop fuel self container_id w = Some e
       ∧ count_unpause (ContainerManager.calls e) ≤ 3
       ∧ count_attempts (ContainerManager.calls e) ≤ 4
       ∧ ∀ force_kill stop_timeout,
           ContainerManager.check_mode self = false →
           attributes (ContainerManager.parameters self) !! "force_kill"
             = Some force_kill →
           truthy force_kill = false →
           attributes (ContainerManager.parameters self) !! "stop_timeout"
             = Some stop_timeout →
           ∃ ending,
             retries stop_fails_paused called_stop
               (ContainerManager.stop (ContainerManager.docker self)
                  container_id
                  (if truthy stop_timeout then Some stop_timeout else None))
               (ContainerManager.unpause (ContainerManager.docker self)
                  container_id)
               0 w (ContainerManager.calls e) (ContainerManager.daemon e)
               ending
             ∧ ∀ err, fatal_outcome container_id ending = Some err →
                 ContainerManager.outcome e = Err err).
Proof.
  intros Hfuel. split.
  - unfold ContainerManager.container_remove, ContainerManager.with_attribute,
      getattr.
    destruct (attributes _ !! "keep_volumes") as [keep_volumes|].
    2: { eexists. split; [done|]. simpl.
         unfold count_unpause, count_attempts. simpl.
         split; [lia|]. split; [lia|]. by intros. }
    simpl. destruct (ContainerManager.check_mode self); simpl.
    { eexists. split; [done|]. simpl.
      unfold count_unpause, count_attempts. simpl.
      split; [lia|]. split; [lia|]. by intros. }
    match goal with
    | |- ∃ e, ContainerManager.remove_loop _ ?s _ ?v _ _ _ _ _ = _ ∧ _ =>
        destruct (remove_loop_retries fuel 0 s container_id v link force w [])
          as (e & new & ending & -> & Hcalls & Hrun & Hfatal); [lia..|]
    end.
    simpl in Hcalls. subst new. exists e. split; [done|].
    destruct (retries_bounds _ _ _ _ _ _ _ _ _ remove_attempt_is_attempt Hrun)
      as [Hunpause Hattempts].
    split; [lia|]. split; [lia|].
    intros ? _ [= <-]. by exists ending.
  - unfold ContainerManager.container_stop,
      ContainerManager.with_attribute at 1, getattr.
    destruct (attributes _ !! "force_kill") as [force_kill|].
    2: { eexists. split; [done|]. simpl.
         unfold count_unpause, count_attempts. simpl.
         split; [lia|]. split; [lia|]. by intros. }
    destruct (truthy force_kill) eqn:Hforce.
    { unfold ContainerManager.container_kill,
        ContainerManager.with_attribute, getattr.
      assert (Hkill : ∀ e : ContainerManager.ended W,
        (ContainerManager.calls e = []
         ∨ ∃ r, ContainerManager.calls e = [called_kill r]) →
        count_unpause (ContainerManager.calls e) ≤ 3
        ∧ count_attempts (ContainerManager.calls e) ≤ 4).
      { intros e [->|[r ->]]; unfold count_unpause, count_attempts; simpl;
          lia. }
      destruct (attributes _ !! "kill_signal") as [kill_signal|]; simpl.
      2: { eexists. split; [done|].
           split; [by apply Hkill; left|]. split; [by apply Hkill; left|].
           intros ?? _ [= <-] ?. congruence. }
      destruct (ContainerManager.check_mode self); simpl.
      { eexists. split; [done|].
        split; [by apply Hkill; left|]. split; [by apply Hkill; left|].
        by intros. }
      destruct (ContainerManager.kill _ _ _ w) as [[response|exc] w']; simpl;
        (eexists; split; [done|]);
        (split; [apply Hkill; right; by eexists|]);
        (split; [apply Hkill; right; by eexists|]);
        intros ?? _ [= <-] ?; congruence. }
    unfold ContainerManager.with_attribute, getattr.
    destruct (attributes _ !! "stop_timeout") as [stop_timeout|].
    2: { eexists. split; [done|]. simpl.
         unfold count_unpause, count_attempts. simpl.
         split; [lia|]. split; [lia|]. by intros. }
    simpl. destruct (ContainerManager.check_mode self); simpl.
    { eexists. split; [done|]. simpl.
      unfold count_unpause, count_attempts. simpl.
      split; [lia|]. split; [lia|]. by intros. }
    match goal with
    | |- ∃ e, ContainerManager.stop_loop _ ?s _ _ _ _ _ = _ ∧ _ =>
        destruct (stop_loop_retries fuel 0 s container_id stop_timeout w [])
          as (e & new & ending & -> & Hcalls & Hrun & Hfatal); [lia..|]
    end.
    simpl in Hcalls. subst new. exists e. split; [done|].
    destruct (retries_bounds _ _ _ _ _ _ _ _ _ stop_attempt_is_attempt Hrun)
      as [Hunpause Hattempts].
    split; [lia|]. split; [lia|].
    intros ?? _ [= <-] _ [= <-]. by exists ending.
Qed.

(** ** The statements at concrete inputs *)



(** C2.  A property that is marked unsupported is compared all the same when
    its key in the loop is not the name of its option.  At a task that gives
    no [healthcheck], with strict comparisons and an SDK for which
    [healthcheck] is marked unsupported, on a container whose image declares
    a health check: the mark is looked up under [expected_healthcheck], where
    there is none, although the entry of the comparisons is looked up under
    [healthcheck]; the health check is compared and a difference is
    recorded. *)
Theorem unsupported_healthcheck_is_compared :
  Container.option_supported old_sdk_client "healthcheck" = Ok false
  ∧ option_minimal_versions old_sdk_client !! "expected_healthcheck" = None
  ∧ Container.parameters_map !! "expected_healthcheck" = Some "healthcheck"
  ∧ plain_task !! "healthcheck" = Some VNone
  ∧ Container.compared_properties checked_container
    = Ok ["detach"; "interactive"; "expected_env"; "expected_exposed";
          "privileged"; "read_only"; "tmpfs"; "tty"; "expected_binds";
          "publish_all_ports"; "expected_healthcheck"]
  ∧ Container.has_different_configuration checked_container
    = Ok (true,
          [{| name := "expected_healthcheck";
              parameter := VDict [];
              active :=
                VDict [("Test", VList [VStr "CMD-SHELL";
                                       VStr "curl -f http://localhost/"])] |}]).
Proof. repeat split; vm_compute; reflexivity. Qed.


(** C4 at a task whose wildcard asks for ['allow_more_present']. *)
Lemma wildcard_must_be_strict_or_ignore_witness :
  ∃ e, AnsibleDockerClientContainer._parse_comparisons []
         (example_module [("*", VStr "allow_more_present")] VNone) = Err e.
Proof.
  destruct (wildcard_must_be_strict_or_ignore []
    (example_module [("*", VStr "allow_more_present")] VNone)
    [("*", VStr "allow_more_present")] (VStr "allow_more_present"))
    as (e & He & _).
  - reflexivity.
  - reflexivity.
  - discriminate.
  - discriminate.
  - exists e. exact He.
Defined.

(** C5 at a task that asks for ['allow_more_present'] on the hostname. *)
Lemma allow_more_present_rejected_for_values_witness :
  ∃ e, AnsibleDockerClientContainer._parse_comparisons []
         (example_module [("hostname", VStr "allow_more_present")] VNone)
       = Err e.
Proof.
  apply (proj1 (allow_more_present_rejected_for_values []
    (example_module [("hostname", VStr "allow_more_present")] VNone))
    [("hostname", VStr "allow_more_present")] "hostname" "hostname"
    main_defaults
    {| c_type := type_value; c_comparison := strict; c_name := "hostname" |}).
  - reflexivity.
  - repeat constructor.
  - discriminate.
  - reflexivity.
  - reflexivity.
  - reflexivity.
  - reflexivity.
Defined.

(** C6 at a hostname that differs. *)
Lemma ignore_never_differs_witness :
  Container._compare (VStr "db") (VStr "web")
    {| c_type := type_value; c_comparison := ignore; c_name := "hostname" |}
  = true.
Proof. apply (proj1 ignore_never_differs). reflexivity. Defined.




(** C9 at a container that stays paused, with fuel for four rounds: the
    calls are a run of [retries], which can only be four removals with an
    unpause after each of the first three, and the method fails. *)
Lemma paused_failures_are_retried_three_times_witness :
  4 ≤ 4
  ∧ ∃ e,
      ContainerManager.container_remove 4 example_manager "c1" false false 0
        = Some e
      ∧ count_unpause (ContainerManager.calls e) ≤ 3
      ∧ count_attempts (ContainerManager.calls e) ≤ 4
      ∧ ∃ ending,
          retries remove_fails_paused called_remove_container
            (ContainerManager.remove_container paused_daemon "c1" false false
               false)
            (ContainerManager.unpause paused_daemon "c1")
            0 0 (ContainerManager.calls e) (ContainerManager.daemon e) ending
          ∧ ∀ err, fatal_outcome "c1" ending = Some err →
              ContainerManager.outcome e = Err err.
Proof.
  split; [exact (le_n 4)|].
  destruct (paused_failures_are_retried_three_times example_manager "c1"
              false false 0 4 (le_n 4))
    as [(e & He & Hunpause & Hattempts & Hrun) _].
  exists e. split; [exact He|]. split; [exact Hunpause|].
  split; [exact Hattempts|].
  exact (Hrun (VBool true) eq_refl eq_refl).
Defined.

(** C10 at a task that names [exposed_ports] by two of its aliases. *)
Lemma same_option_twice_is_rejected_witness :
  ∃ e, AnsibleDockerClientContainer._parse_comparisons []
         (example_module
            [("exposed", VStr "strict"); ("expose", VStr "ignore")] VNone)
       = Err e.
Proof.
  apply (same_option_twice_is_rejected []
    (example_module [("exposed", VStr "strict"); ("expose", VStr "ignore")] VNone)
    [("exposed", VStr "strict"); ("expose", VStr "ignore")]
    "exposed" "expose" "exposed_ports" (VStr "strict") (VStr "ignore")
    main_defaults).
  - reflexivity.
  - repeat constructor.
  - repeat constructor.
  - discriminate.
  - discriminate.
  - discriminate.
  - reflexivity.
  - reflexivity.
  - reflexivity.
Defined.

(** * Properties of the parsing and of the other comparisons *)

(** ** Strings *)

Lemma str_app_nil_l (s : string) : "" +:+ s = s.
Proof. done. Qed.

Lemma str_app_cons (a : Ascii.ascii) (s t : string) :
  String a s +:+ t = String a (s +:+ t).
Proof. done. Qed.

Lemma str_app_char (c : Ascii.ascii) (s : string) :
  String c "" +:+ s = String c s.
Proof. done. Qed.

Lemma str_app_assoc (a b c : string) : (a +:+ b) +:+ c = a +:+ (b +:+ c).
Proof.
  induction a as [|x a IH]; [done|]. by rewrite !str_app_cons, IH.
Qed.

Lemma str_app_nil_r (a : string) : a +:+ "" = a.
Proof. induction a as [|x a IH]; [done|]. by rewrite str_app_cons, IH. Qed.

Lemma str_split_nonempty (sep : Ascii.ascii) (s : string) : str_split sep s ≠ [].
Proof.
  induction s as [|c s IH]; simpl; [done|].
  destruct (Ascii.eqb c sep); [done|]. by destruct (str_split sep s).
Qed.

Lemma concat_cons_cons (sep x y : string) (l : list string) :
  String.concat sep (x :: y :: l) = x +:+ sep +:+ String.concat sep (y :: l).
Proof. done. Qed.

Lemma concat_app (sep : string) (l m : list string) :
  l ≠ [] → m ≠ [] →
  String.concat sep (l ++ m)
  = String.concat sep l +:+ sep +:+ String.concat sep m.
Proof.
  intros Hl Hm. induction l as [|x [|y l] IH]; [done| |].
  - by destruct m.
  - change ((x :: y :: l) ++ m) with (x :: y :: (l ++ m)).
    rewrite !concat_cons_cons. change (y :: l ++ m) with ((y :: l) ++ m).
    rewrite IH by done. by rewrite !str_app_assoc.
Qed.

Lemma add_to_last_nonempty (l : list string) (x : string) :
  l ≠ [] → add_to_last l x ≠ [].
Proof. destruct l as [|y [|z l]]; done. Qed.

Lemma concat_add_to_last (sep : string) (l : list string) (x : string) :
  l ≠ [] →
  String.concat sep (add_to_last l x) = String.concat sep l +:+ x.
Proof.
  intros Hl. induction l as [|y [|z l] IH]; [done| |].
  { reflexivity. }
  change (add_to_last (y :: z :: l) x) with (y :: add_to_last (z :: l) x).
  destruct (add_to_last (z :: l) x) as [|w l'] eqn:Heq;
    [by apply add_to_last_nonempty in Heq|].
  rewrite !concat_cons_cons, IH by done. by rewrite !str_app_assoc.
Qed.


(** Joining the pieces of a split gives the string back. *)
Lemma concat_str_split (sep : Ascii.ascii) (s : string) :
  String.concat (String sep "") (str_split sep s) = s.
Proof.
  induction s as [|c s IH]; [done|]. simpl.
  pose proof (str_split_nonempty sep s) as Hne.
  destruct (Ascii.eqb_spec c sep) as [->|Hc].
  - destruct (str_split sep s) as [|y l] eqn:Heq; [done|].
    by rewrite concat_cons_cons, IH.
  - destruct (str_split sep s) as [|y [|z l]] eqn:Heq; [done|..].
    + simpl in *. by rewrite IH.
    + rewrite concat_cons_cons in *. by rewrite str_app_cons, IH.
Qed.

Lemma str_upto_from (n : nat) (s : string) :
  str_upto n s +:+ str_from n s = s.
Proof.
  revert s. induction n as [|n IH]; intros [|c s]; simpl; try done.
  by rewrite str_app_cons, IH.
Qed.

Lemma str_from_from (n m : nat) (s : string) :
  str_from m (str_from n s) = str_from (n + m) s.
Proof.
  revert s. induction n as [|n IH]; intros s; [done|].
  destruct s as [|c s]; simpl; [by destruct m|]. apply IH.
Qed.

Lemma str_from_length (n : nat) (s : string) :
  String.length (str_from n s) = String.length s - n.
Proof.
  revert s. induction n as [|n IH]; intros [|c s]; simpl; try done.
Qed.

Lemma str_from_all (n : nat) (s : string) :
  String.length s ≤ n → str_from n s = "".
Proof.
  revert s. induction n as [|n IH]; intros [|c s]; simpl; try done; [lia|].
  intros. apply IH. lia.
Qed.

Lemma str_slice_from (i j : nat) (s : string) :
  i ≤ j → str_slice i j s +:+ str_from j s = str_from i s.
Proof.
  intros Hij. unfold str_slice.
  replace j with (i + (j - i)) at 2 by lia.
  rewrite <-str_from_from. apply str_upto_from.
Qed.

Lemma str_index_Some (c : Ascii.ascii) (s : string) (i : nat) :
  str_index c s = Some i → str_from i s = String c (str_from (S i) s).
Proof.
  revert i. induction s as [|a s IH]; intros i; simpl; [done|].
  destruct (Ascii.eqb_spec a c) as [->|Hc].
  - by intros [= <-].
  - destruct (str_index c s) as [i'|]; simpl; [|done].
    intros [= <-]. by apply IH.
Qed.

Lemma str_index_None (c : Ascii.ascii) (s : string) :
  str_index c s = None ↔ str_has c s = false.
Proof.
  induction s as [|a s IH]; simpl; [done|].
  destruct (Ascii.eqb a c); simpl; [done|].
  rewrite <-IH. by destruct (str_index c s).
Qed.

(** What [find] finds: an index from [start] on at which the character is. *)
Lemma str_find_Some (c : Ascii.ascii) (s : string) (start k : nat) :
  str_find c s start = Some k →
  start ≤ k < String.length s ∧ str_from k s = String c (str_from (S k) s).
Proof.
  unfold str_find. destruct (str_index c (str_from start s)) as [i|] eqn:Hi;
    simpl; [|done].
  intros [= <-]. apply str_index_Some in Hi.
  rewrite !str_from_from, Nat.add_succ_r in Hi.
  split; [|done]. split; [lia|].
  apply (f_equal String.length) in Hi. rewrite !str_from_length in Hi.
  simpl in Hi. lia.
Qed.

Lemma str_find_None (c : Ascii.ascii) (s : string) (start : nat) :
  str_find c s start = None ↔ str_has c (str_from start s) = false.
Proof.
  unfold str_find. rewrite <-str_index_None.
  by destruct (str_index c (str_from start s)).
Qed.

(** ** [split_colon_ipv6] *)

Lemma split_invariant_extend (input : string) (start i : nat)
    (parts : list string) :
  start < String.length input → start ≤ i →
  split_invariant input start parts →
  parts ++ str_split ":" (str_slice start i input) ≠ []
  ∧ String.concat ":" (parts ++ str_split ":" (str_slice start i input))
    +:+ str_from i input = input.
Proof.
  intros Hstart Hi Hinv.
  pose proof (str_split_nonempty ":" (str_slice start i input)) as Hne.
  split; [by destruct parts, (str_split ":" (str_slice start i input))|].
  destruct Hinv as [[-> ->]|[[Hparts Hinv]|(_ & ? & _)]]; [| |lia].
  - rewrite app_nil_l. rewrite (concat_str_split ":").
    by rewrite str_slice_from.
  - rewrite concat_app by done. rewrite (concat_str_split ":").
    by rewrite !str_app_assoc, str_slice_from.
Qed.

Lemma split_loop_joins (fuel : nat) (input : string) (start : nat)
    (parts out : list string) :
  input ≠ "" →
  split_invariant input start parts →
  split_colon_ipv6_loop fuel input start parts = Some (Ok out) →
  joins_to input out.
Proof.
  intros Hinput. revert start parts.
  induction fuel as [|fuel IH]; intros start parts Hinv; simpl; [done|].
  destruct (Nat.ltb_spec start (String.length input)) as [Hstart|Hstart].
  - destruct (str_find "[" input start) as [i|] eqn:Hi.
    + apply str_find_Some in Hi as [[Hi _] _].
      destruct (str_find "]" input i) as [j|] eqn:Hj; [|done].
      apply str_find_Some in Hj as [[Hj _] _].
      destruct (split_invariant_extend input start i parts)
        as [Hne Hparts]; [done..|].
      destruct (str_find ":" input j) as [k|] eqn:Hk.
      * apply str_find_Some in Hk as [[Hk Hlen] Hcolon].
        destruct (Nat.eqb_spec k (String.length input)) as [?|_]; [lia|].
        apply IH. right; left.
        split; [by apply add_to_last_nonempty|].
        rewrite concat_add_to_last by done.
        rewrite Nat.add_1_r, str_app_assoc.
        change (":" +:+ str_from (S k) input)
          with (String ":" (str_from (S k) input)).
        rewrite <-Hcolon, str_slice_from by lia. done.
      * apply IH. right; right.
        split; [by apply add_to_last_nonempty|]. split; [done|].
        by rewrite concat_add_to_last.
    + intros [= <-].
      pose proof (str_split_nonempty ":" (str_from start input)) as Hne.
      split; [by destruct parts, (str_split ":" (str_from start input))|].
      left. destruct Hinv as [[-> ->]|[[Hparts Hinv]|(_ & ? & _)]]; [| |lia].
      * rewrite app_nil_l. apply (concat_str_split ":").
      * rewrite concat_app by done. by rewrite (concat_str_split ":").
  - intros [= <-].
    destruct Hinv as [[-> ->]|[[Hparts Hinv]|(Hparts & _ & Hinv)]].
    + destruct input; [done|simpl in Hstart; lia].
    + split; [done|]. right.
      by rewrite str_from_all, str_app_nil_r in Hinv.
    + split; [done|by left].
Qed.

(** The loop ends when its fuel exceeds what is left of the input. *)
Lemma split_loop_ends (fuel : nat) (input : string) (start : nat)
    (parts : list string) :
  String.length input - start < fuel →
  is_Some (split_colon_ipv6_loop fuel input start parts).
Proof.
  revert start parts.
  induction fuel as [|fuel IH]; intros start parts Hfuel; simpl; [lia|].
  destruct (Nat.ltb_spec start (String.length input)) as [Hstart|Hstart];
    [|done].
  destruct (str_find "[" input start) as [i|] eqn:Hi; [|done].
  apply str_find_Some in Hi as [[Hi _] _].
  destruct (str_find "]" input i) as [j|] eqn:Hj; [|done].
  apply str_find_Some in Hj as [[Hj _] _].
  destruct (str_find ":" input j) as [k|] eqn:Hk.
  - apply str_find_Some in Hk as [[Hk Hlen] _].
    destruct (k =? String.length input); [done|]. apply IH. lia.
  - apply IH. lia.
Qed.

Lemma split_loop_fails (fuel : nat) (input : string) (start : nat)
    (parts : list string) (e : exn) :
  split_colon_ipv6_loop fuel input start parts = Some (Err e) →
  ∃ i, str_from i input = String "[" (str_from (S i) input)
       ∧ str_has "]" (str_from i input) = false
       ∧ e = fail_json (no_closing_bracket input (i + 1)).
Proof.
  revert start parts.
  induction fuel as [|fuel IH]; intros start parts; simpl; [done|].
  destruct (start <? String.length input); [|done].
  destruct (str_find "[" input start) as [i|] eqn:Hi; [|done].
  apply str_find_Some in Hi as [_ Hi].
  destruct (str_find "]" input i) as [j|] eqn:Hj.
  - destruct (str_find ":" input j) as [k|]; [|by apply IH].
    destruct (k =? String.length input); [done|]. apply IH.
  - apply str_find_None in Hj. intros [= <-]. eauto.
Qed.

(** X1. [split_colon_ipv6] always ends.  When it succeeds there is a piece at
    least, and joining the pieces with [':'] gives the input back, or the
    input without the colon at its end; without a bracket in the input the
    result is that of [input.split(':')]. *)
Theorem split_colon_ipv6_joins (input : string) :
  ∃ r, split_colon_ipv6 input = Some r
       ∧ ∀ parts, r = Ok parts →
           joins_to input parts
           ∧ (str_has "[" input = false →
              parts = str_split ":" input
              ∧ String.concat ":" parts = input).
Proof.
  unfold split_colon_ipv6. destruct (str_has "[" input) eqn:Hbracket;
    cbn [negb].
  - destruct (split_loop_ends (S (String.length input)) input 0 [])
      as [r Hr]; [lia|].
    exists r. split; [done|]. intros parts ->. split; [|done].
    eapply split_loop_joins; [|by left|done]. by intros ->.
  - eexists. split; [done|]. intros parts [= <-].
    pose proof (concat_str_split ":" input) as Hjoin.
    split; [|done]. split; [apply str_split_nonempty|by left].
Qed.

(** X2. [split_colon_ipv6] fails only for an opening bracket that no closing
    bracket follows, with the message that names the place of the bracket,
    counted from one. *)
Theorem split_colon_ipv6_fails_on_open_bracket (input : string) (e : exn) :
  split_colon_ipv6 input = Some (Err e) →
  ∃ i, str_from i input = String "[" (str_from (S i) input)
       ∧ str_has "]" (str_from i input) = false
       ∧ e = fail_json (no_closing_bracket input (i + 1)).
Proof.
  unfold split_colon_ipv6. destruct (str_has "[" input); [|done].
  apply split_loop_fails.
Qed.

Lemma split_colon_ipv6_fails_on_open_bracket_witness :
  ∃ i, str_from i "80:[::1" = String "[" (str_from (S i) "80:[::1")
       ∧ str_has "]" (str_from i "80:[::1") = false
       ∧ fail_json (no_closing_bracket "80:[::1" 4)
         = fail_json (no_closing_bracket "80:[::1" (i + 1)).
Proof.
  apply (split_colon_ipv6_fails_on_open_bracket "80:[::1"). reflexivity.
Defined.

(** ** Splitting *)

Lemma str_split_app (sep : Ascii.ascii) (a b : string) :
  str_split sep (a +:+ String sep b) = str_split sep a ++ str_split sep b.
Proof.
  induction a as [|c a IH].
  - rewrite str_app_nil_l. simpl. by rewrite Ascii.eqb_refl.
  - rewrite str_app_cons. simpl. rewrite IH.
    destruct (Ascii.eqb c sep); [done|].
    pose proof (str_split_nonempty sep a).
    by destruct (str_split sep a).
Qed.

Lemma str_split_none (sep : Ascii.ascii) (s : string) :
  str_has sep s = false → str_split sep s = [s].
Proof.
  induction s as [|c s IH]; simpl; [done|].
  intros [-> Hs]%orb_false_iff. by rewrite IH.
Qed.

Lemma str_split_once_app (sep : Ascii.ascii) (a b : string) :
  str_has sep a = false →
  str_split_once sep (a +:+ String sep b) = [a; b].
Proof.
  induction a as [|c a IH].
  - intros _. rewrite str_app_nil_l. simpl. by rewrite Ascii.eqb_refl.
  - intros [Hc Ha]%orb_false_iff. rewrite str_app_cons. simpl.
    by rewrite Hc, IH.
Qed.

Lemma str_split_once_none (sep : Ascii.ascii) (s : string) :
  str_has sep s = false → str_split_once sep s = [s].
Proof.
  induction s as [|c s IH]; simpl; [done|].
  intros [-> Hs]%orb_false_iff. by rewrite IH.
Qed.

Lemma str_has_app (c : Ascii.ascii) (a b : string) :
  str_has c (a +:+ b) = str_has c a || str_has c b.
Proof.
  induction a as [|x a IH]; [done|].
  rewrite str_app_cons. simpl. by rewrite IH, orb_assoc.
Qed.

(** ** [is_volume_permissions] *)

(** X3. A list of modes joined with a comma is a list of permissions exactly
    when both sides are; the empty string is none, so that a comma at the end
    or at the start of the string makes it invalid. *)
Theorem is_volume_permissions_of_joined (a b : string) :
  is_volume_permissions (a +:+ "," +:+ b)
  = is_volume_permissions a && is_volume_permissions b
  ∧ is_volume_permissions (a +:+ ",") = false
  ∧ is_volume_permissions ("," +:+ a) = false.
Proof.
  assert (Hjoin : ∀ a b, is_volume_permissions (a +:+ "," +:+ b)
    = is_volume_permissions a && is_volume_permissions b).
  { intros a' b'. unfold is_volume_permissions.
    change ("," +:+ b') with (String "," b').
    by rewrite str_split_app, forallb_app. }
  split; [apply Hjoin|]. split.
  - rewrite <-(str_app_nil_r (a +:+ ",")), str_app_assoc, Hjoin.
    apply andb_false_r.
  - apply (Hjoin "" a).
Qed.

(** ** Links, tmpfs and devices *)

Lemma parse_link_with_alias (source alias : string) :
  str_has ":" source = false →
  parse_link (source +:+ ":" +:+ alias) = (source, alias).
Proof.
  intros Hsource. unfold parse_link.
  change (":" +:+ alias) with (String ":" alias).
  by rewrite str_split_once_app.
Qed.

Lemma parse_link_without_alias (link : string) :
  str_has ":" link = false → parse_link link = (link, link).
Proof.
  intros Hlink. unfold parse_link. by rewrite str_split_once_none.
Qed.

(** X4. The links that the daemon is expected to report for the [links]
    option of a container called [name]: as many as the option has, in its
    order; a link without a colon is its own alias, a link with colons is cut
    at the first one. *)
Theorem expected_links_of_option (name : string) (links : list string) :
  ∃ expected,
    _get_expected_links name (_parse_links (Some links)) = Some expected
    ∧ length expected = length links
    ∧ ∀ i link, links !! i = Some link →
        (str_has ":" link = false →
         expected !! i
         = Some ("/" +:+ link +:+ ":/" +:+ name +:+ "/" +:+ link))
        ∧ (∀ source alias,
             str_has ":" source = false →
             link = source +:+ ":" +:+ alias →
             expected !! i
             = Some ("/" +:+ source +:+ ":/" +:+ name +:+ "/" +:+ alias)).
Proof.
  eexists. split; [done|]. split; [by rewrite !length_fmap|].
  intros i link Hlink. rewrite <-list_fmap_compose, list_lookup_fmap, Hlink.
  split.
  - intros Hnone. simpl. by rewrite parse_link_without_alias.
  - intros source alias Hsource ->. simpl.
    by rewrite parse_link_with_alias.
Qed.

Lemma dict_lookup_dict_set {A} (d : list (string * A)) (key key' : string)
    (v : A) :
  dict_lookup (dict_set d key v) key'
  = if String.eqb key key' then Some v else dict_lookup d key'.
Proof.
  induction d as [|[k w] d IH]; simpl; [done|].
  destruct (String.eqb_spec k key) as [->|Hk]; simpl.
  - by destruct (String.eqb key key').
  - rewrite IH. destruct (String.eqb_spec k key') as [->|Hk'];
      destruct (String.eqb_spec key key'); congruence.
Qed.

(** X5. [_parse_tmpfs] keeps for every path the options of the last spec
    that names it: a spec [path:options] at the end of the list sets the
    options of [path], a spec without a colon sets the empty options, and the
    other paths keep what the specs before gave them. *)
Theorem tmpfs_last_spec_wins (specs : list string) (path options key : string) :
  str_has ":" path = false →
  dict_lookup (_parse_tmpfs (Some (specs ++ [path +:+ ":" +:+ options]))) key
  = (if String.eqb path key then Some options
     else dict_lookup (_parse_tmpfs (Some specs)) key)
  ∧ dict_lookup (_parse_tmpfs (Some (specs ++ [path]))) key
    = (if String.eqb path key then Some ""
       else dict_lookup (_parse_tmpfs (Some specs)) key).
Proof.
  intros Hpath. unfold _parse_tmpfs. rewrite !foldl_app. simpl.
  change (":" +:+ options) with (String ":" options).
  rewrite str_split_once_app, str_split_once_none by done. simpl.
  by rewrite !dict_lookup_dict_set.
Qed.

Lemma tmpfs_last_spec_wins_witness :
  dict_lookup (_parse_tmpfs (Some (["/run:size=1m"] ++ ["/run" +:+ ":" +:+ "rw,noexec"]))) "/run"
  = (if String.eqb "/run" "/run" then Some "rw,noexec"
     else dict_lookup (_parse_tmpfs (Some ["/run:size=1m"])) "/run")
  ∧ dict_lookup (_parse_tmpfs (Some (["/run:size=1m"] ++ ["/run"]))) "/run"
    = (if String.eqb "/run" "/run" then Some ""
       else dict_lookup (_parse_tmpfs (Some ["/run:size=1m"])) "/run").
Proof. apply tmpfs_last_spec_wins. reflexivity. Defined.

(** The device [host:container:permissions]. *)
Lemma expected_device_of_triple (host container permissions rest : string) :
  str_has ":" host = false → str_has ":" container = false →
  str_has ":" permissions = false →
  expected_device (host +:+ ":" +:+ container +:+ ":" +:+ permissions)
  = VDict [("CgroupPermissions", VStr permissions);
           ("PathInContainer", VStr container); ("PathOnHost", VStr host)]
  ∧ expected_device
      (host +:+ ":" +:+ container +:+ ":" +:+ permissions +:+ ":" +:+ rest)
    = VDict [("CgroupPermissions", VStr permissions);
             ("PathInContainer", VStr container); ("PathOnHost", VStr host)].
Proof.
  intros Hhost Hcontainer Hpermissions. unfold expected_device.
  rewrite !str_app_char, !str_split_app, !str_split_none by done.
  split; [done|].
  pose proof (str_split_nonempty ":" rest).
  by destruct (str_split ":" rest).
Qed.

(** X6. Devices that the option gives by host path, container path and
    permissions are expected from the daemon as these three; what follows
    the permissions after a third colon is dropped; a device of two parts or
    of one gets the permissions [rwm], and a single path stands for both
    places. *)
Theorem expected_devices_round_trip (devices : list (string * string * string))
    (host container rest : string) :
  devices ≠ [] → Forall no_colons devices →
  no_colon host → no_colon container →
  _get_expected_devices (Some (device_spec <$> devices))
  = VList (device_dict <$> devices)
  ∧ _get_expected_devices
      (Some ((λ d, device_spec d +:+ ":" +:+ rest) <$> devices))
    = VList (device_dict <$> devices)
  ∧ _get_expected_devices (Some [host +:+ ":" +:+ container])
    = VList [device_dict (host, container, "rwm")]
  ∧ _get_expected_devices (Some [host])
    = VList [device_dict (host, host, "rwm")].
Proof.
  intros Hne Hdevices Hhost Hcontainer.
  assert (Hlist : ∀ f : string * string * string → string,
    (∀ d, no_colons d → expected_device (f d) = device_dict d) →
    _get_expected_devices (Some (f <$> devices))
    = VList (device_dict <$> devices)).
  { intros f Hf. unfold _get_expected_devices.
    destruct (f <$> devices) as [|spec specs] eqn:Hspecs.
    { by apply fmap_nil_inv in Hspecs. }
    rewrite <-Hspecs, <-list_fmap_compose. f_equal.
    apply Forall_fmap_ext_1. eapply Forall_impl; [done|]. apply Hf. }
  split; [|split; [|split]].
  - apply Hlist. intros [[h c] p] (? & ? & ?).
    by apply (expected_device_of_triple h c p "").
  - apply Hlist. intros [[h c] p] (? & ? & ?).
    unfold device_spec. rewrite !str_app_assoc.
    by apply (expected_device_of_triple h c p rest).
  - unfold _get_expected_devices, expected_device. simpl.
    by rewrite !str_app_char, !str_split_app, !str_split_none.
  - unfold _get_expected_devices, expected_device. simpl.
    by rewrite !str_split_none.
Qed.

Lemma expected_devices_round_trip_witness :
  _get_expected_devices
    (Some (device_spec <$> [("/dev/sda", "/dev/xvda", "rw")]))
  = VList (device_dict <$> [("/dev/sda", "/dev/xvda", "rw")])
  ∧ _get_expected_devices
      (Some ((λ d, device_spec d +:+ ":" +:+ "x")
             <$> [("/dev/sda", "/dev/xvda", "rw")]))
    = VList (device_dict <$> [("/dev/sda", "/dev/xvda", "rw")])
  ∧ _get_expected_devices (Some ["/dev/sda" +:+ ":" +:+ "/dev/xvda"])
    = VList [device_dict ("/dev/sda", "/dev/xvda", "rwm")]
  ∧ _get_expected_devices (Some ["/dev/sda"])
    = VList [device_dict ("/dev/sda", "/dev/sda", "rwm")].
Proof.
  apply expected_devices_round_trip; [done| |reflexivity..].
  repeat constructor.
Defined.

(** ** Volumes *)

Lemma for_each_Err {A S} (body : S → A → result S) (l : list A) (st : S)
    (e : exn) :
  for_each body l st = Err e → ∃ x s, x ∈ l ∧ body s x = Err e.
Proof.
  revert st. induction l as [|x l IH]; intros st; simpl; [done|].
  destruct (body st x) as [s|e'] eqn:Hbody; simpl.
  - intros (y & s' & ? & ?)%IH. exists y, s'. split; [by right|done].
  - intros [= <-]. exists x, st. split; [by left|done].
Qed.

(** What [parse_bind] gives, by the parts of the volume. *)
Lemma parse_bind_Ok (vol host container mode : string) :
  parse_bind vol = Ok (Some (host, container, mode)) →
  is_volume_permissions mode = true
  ∧ (str_split ":" vol = [host; container; mode]
     ∨ (str_split ":" vol = [host; container] ∧ mode = "rw"
        ∧ is_volume_permissions container = false)).
Proof.
  unfold parse_bind. destruct (str_has ":" vol); [|done].
  destruct (str_split ":" vol) as [|p0 [|p1 [|p2 [|p3 parts]]]]; simpl;
    try done.
  - destruct (is_volume_permissions p1) eqn:Hp1; simpl; [done|].
    intros [= <- <- <-]. split; [done|]. right. done.
  - destruct (is_volume_permissions p2) eqn:Hp2; simpl; [|done].
    intros [= <- <- <-]. split; [done|]. by left.
Qed.

Lemma parse_bind_Err (vol : string) (e : exn) :
  parse_bind vol = Err e ↔
  ∃ host container mode,
    str_split ":" vol = [host; container; mode]
    ∧ is_volume_permissions mode = false
    ∧ e = fail_json ("Found invalid volumes mode: " +:+ mode).
Proof.
  unfold parse_bind.
  assert (Hcolon : str_has ":" vol = false → str_split ":" vol = [vol])
    by apply str_split_none.
  destruct (str_has ":" vol).
  - destruct (str_split ":" vol) as [|p0 [|p1 [|p2 [|p3 parts]]]]; simpl;
      try (split; [done|by intros (? & ? & ? & [=] & _)]).
    + destruct (is_volume_permissions p1); simpl;
        (split; [done|by intros (? & ? & ? & [=] & _)]).
    + destruct (is_volume_permissions p2) eqn:Hp2; simpl.
      * split; [done|]. intros (? & ? & ? & [= _ _ <-] & ? & _). congruence.
      * split; [intros [= <-]; eauto 10|].
        by intros (? & ? & ? & [= _ _ <-] & _ & ->).
  - rewrite Hcolon by done. split; [done|by intros (? & ? & ? & [=] & _)].
Qed.

Lemma elem_of_dict_set {A} (d : list (string * A)) (key k : string) (v w : A) :
  (k, w) ∈ dict_set d key v → (k, w) ∈ d ∨ (k = key ∧ w = v).
Proof.
  induction d as [|[k' w'] d IH]; simpl.
  - rewrite list_elem_of_singleton. intros [= -> ->]. auto.
  - destruct (String.eqb_spec k' key) as [->|Hk]; rewrite !elem_of_cons.
    + intros [[= -> ->]|?]; auto.
    + intros [?|[?|?]%IH]; auto.
Qed.

Lemma str_split_three (vol host container mode : string) :
  str_split ":" vol = [host; container; mode] →
  vol = host +:+ ":" +:+ container +:+ ":" +:+ mode.
Proof.
  intros Hsplit. rewrite <-(concat_str_split ":" vol), Hsplit. done.
Qed.

Lemma str_split_two (vol host container : string) :
  str_split ":" vol = [host; container] →
  vol = host +:+ ":" +:+ container.
Proof.
  intros Hsplit. rewrite <-(concat_str_split ":" vol), Hsplit. done.
Qed.

(** X7. Every bind of [_get_volume_binds] comes from a volume of the option:
    from [host:container:mode], whose mode is a list of permissions, or from
    [host:container], which is bound read-write. *)
Theorem volume_binds_are_valid (volumes : option (list string))
    (binds : list (string * value)) (host : string) (v : value) :
  _get_volume_binds volumes = Ok binds →
  (host, v) ∈ binds →
  ∃ container mode vol,
    v = bind_dict container mode
    ∧ is_volume_permissions mode = true
    ∧ vol ∈ default [] volumes
    ∧ (vol = host +:+ ":" +:+ container +:+ ":" +:+ mode
       ∨ (vol = host +:+ ":" +:+ container ∧ mode = "rw")).
Proof.
  intros Hbinds. revert host v.
  destruct volumes as [[|vol0 volumes]|]; unfold _get_volume_binds in Hbinds;
    try (injection Hbinds as <-; intros ?? []%elem_of_nil).
  change (default [] (Some (vol0 :: volumes))) with (vol0 :: volumes).
  revert Hbinds. generalize (vol0 :: volumes). intros l.
  apply (for_each_invariant _ (λ res, ∀ host v, (host, v) ∈ res → _));
    [|intros ?? []%elem_of_nil].
  unfold add_volume_bind.
  intros res vol res' Hvol IH (bound & Hbound & Hres)%bind_Ok host v.
  destruct bound as [[[h c] m]|]; injection Hres as <-; [|apply IH].
  intros [?|[-> ->]]%elem_of_dict_set; [by apply IH|].
  apply parse_bind_Ok in Hbound as [Hmode Hparts].
  exists c, m, vol. repeat split; [done..|].
  destruct Hparts as [?%str_split_three|(?%str_split_two & ? & _)]; auto.
Qed.

Lemma volume_binds_are_valid_witness :
  ∃ container mode vol,
    bind_dict "/www" "ro,z" = bind_dict container mode
    ∧ is_volume_permissions mode = true
    ∧ vol ∈ default [] some_volumes
    ∧ (vol = "/srv/www" +:+ ":" +:+ container +:+ ":" +:+ mode
       ∨ (vol = "/srv/www" +:+ ":" +:+ container ∧ mode = "rw")).
Proof.
  eapply (volume_binds_are_valid some_volumes); [reflexivity|].
  apply list_elem_of_here.
Defined.

(** X8. [_get_volume_binds] ends the module exactly when a volume has three
    parts of which the last is no list of permissions, and the message shows
    the mode of such a volume; a volume of more than three parts is never
    refused. *)
Theorem volume_binds_fail_on_invalid_mode (volumes : list string) :
  (∀ e, _get_volume_binds (Some volumes) = Err e →
     ∃ vol host container mode,
       vol ∈ volumes
       ∧ str_split ":" vol = [host; container; mode]
       ∧ is_volume_permissions mode = false
       ∧ e = fail_json ("Found invalid volumes mode: " +:+ mode))
  ∧ ((∃ vol, vol ∈ volumes ∧ has_invalid_mode vol) →
     ∃ e, _get_volume_binds (Some volumes) = Err e).
Proof.
  split.
  - intros e. destruct volumes as [|vol0 volumes]; [done|].
    unfold _get_volume_binds. generalize (vol0 :: volumes). intros l.
    intros (vol & res & Hvol & Hbody)%for_each_Err.
    unfold add_volume_bind in Hbody.
    destruct (parse_bind vol) as [[[[h c] m]|]|e'] eqn:Hbind; simpl in Hbody;
      try done.
    injection Hbody as ->.
    apply parse_bind_Err in Hbind as (h & c & m & ? & ? & ->).
    by exists vol, h, c, m.
  - intros (vol & Hvol & Hbad).
    destruct volumes as [|vol0 volumes]; [by apply elem_of_nil in Hvol|].
    unfold _get_volume_binds. revert Hvol.
    generalize (vol0 :: volumes). intros l Hvol.
    generalize (@nil (string * value)).
    induction l as [|x l IH]; intros res; [by apply elem_of_nil in Hvol|].
    simpl. unfold add_volume_bind at 1.
    destruct (parse_bind x) as [bound|e] eqn:Hbind; simpl; [|eauto].
    apply elem_of_cons in Hvol as [<-|Hvol].
    + destruct Hbad as (h & c & m & Hsplit & Hmode).
      assert (parse_bind vol = Err (fail_json ("Found invalid volumes mode: " +:+ m)))
        as Herr by (apply parse_bind_Err; eauto 10).
      congruence.
    + destruct bound as [[[h c] m]|]; by apply IH.
Qed.

Lemma volume_binds_fail_on_invalid_mode_witness :
  ∃ e, _get_volume_binds (Some ["/data:/data:rw"; "/a:/b:readonly"]) = Err e.
Proof.
  apply (proj2 (volume_binds_fail_on_invalid_mode
                  ["/data:/data:rw"; "/a:/b:readonly"])).
  exists "/a:/b:readonly". split; [repeat constructor|].
  by exists "/a", "/b", "readonly".
Defined.



(** ** Brackets in [split_colon_ipv6] *)

Lemma str_from_app (p q : string) : str_from (String.length p) (p +:+ q) = q.
Proof. induction p as [|c p IH]; [done|]. by rewrite str_app_cons. Qed.

Lemma str_upto_app (p q : string) : str_upto (String.length p) (p +:+ q) = p.
Proof.
  induction p as [|c p IH]; [done|]. rewrite str_app_cons. simpl.
  by rewrite IH.
Qed.

Lemma str_length_app (p q : string) :
  String.length (p +:+ q) = String.length p + String.length q.
Proof.
  induction p as [|c p IH]; [done|]. rewrite str_app_cons. simpl.
  by rewrite IH.
Qed.

Lemma str_index_app (c : Ascii.ascii) (p q : string) :
  str_has c p = false →
  str_index c (p +:+ q) = (λ i, String.length p + i) <$> str_index c q.
Proof.
  intros Hp. induction p as [|x p IH].
  - rewrite str_app_nil_l. by destruct (str_index c q).
  - simpl in Hp. apply orb_false_iff in Hp as [Hx Hp].
    rewrite str_app_cons. simpl. rewrite Hx, IH by done.
    by destruct (str_index c q).
Qed.

(** [find] from the end of a prefix on. *)
Lemma str_find_app (c : Ascii.ascii) (p q : string) :
  str_find c (p +:+ q) (String.length p)
  = (λ i, String.length p + i) <$> str_index c q.
Proof. unfold str_find. by rewrite str_from_app. Qed.

(** More fuel does not change what the loop gives. *)
Lemma split_loop_more_fuel (fuel fuel' : nat) (input : string) (start : nat)
    (parts : list string) (r : result (list string)) :
  fuel ≤ fuel' →
  split_colon_ipv6_loop fuel input start parts = Some r →
  split_colon_ipv6_loop fuel' input start parts = Some r.
Proof.
  revert fuel' start parts.
  induction fuel as [|fuel IH]; intros [|fuel'] start parts Hle; simpl;
    try done; [lia|].
  destruct (start <? String.length input); [|done].
  destruct (str_find "[" input start) as [i|]; [|done].
  destruct (str_find "]" input i) as [j|]; [|done].
  destruct (str_find ":" input j) as [k|].
  - destruct (k =? String.length input); [done|]. apply IH. lia.
  - apply IH. lia.
Qed.

Lemma split_loop_step (fuel : nat) (input : string) (start : nat)
    (parts : list string) :
  split_colon_ipv6_loop (S fuel) input start parts
  = if start <? String.length input then
      match str_find "[" input start with
      | None => Some (Ok (parts ++ str_split ":" (str_from start input)))
      | Some i =>
          match str_find "]" input i with
          | None => Some (Err (fail_json (no_closing_bracket input (i + 1))))
          | Some j =>
              match str_find ":" input j with
              | None =>
                  split_colon_ipv6_loop fuel input (String.length input)
                    (add_to_last
                       (parts ++ str_split ":" (str_slice start i input))
                       (str_from i input))
              | Some k =>
                  if k =? String.length input
                  then Some (Ok (add_to_last
                         (parts ++ str_split ":" (str_slice start i input))
                         (str_slice i k input) ++ [""]))
                  else split_colon_ipv6_loop fuel input (k + 1)
                         (add_to_last
                            (parts ++ str_split ":" (str_slice start i input))
                            (str_slice i k input))
              end
          end
      end
    else Some (Ok parts).
Proof. done. Qed.

Lemma bracket_loop (a b c rest : string) :
  str_has "[" a = false → str_has "]" b = false → str_has ":" c = false →
  rest = "" ∨ (∃ d, rest = String ":" d ∧ str_has "[" d = false) →
  split_colon_ipv6_loop 3 (a +:+ String "[" (b +:+ String "]" (c +:+ rest)))
    0 []
  = Some (Ok (add_to_last (str_split ":" a) (String "[" (b +:+ String "]" c))
              ++ match rest with
                 | String _ (String _ _ as d) => str_split ":" d
                 | _ => []
                 end)).
Proof.
  intros Ha Hb Hc Hrest.
  set (m := String "[" (b +:+ String "]" c)).
  set (input := a +:+ String "[" (b +:+ String "]" (c +:+ rest))).
  assert (Hinput : input = a +:+ m +:+ rest).
  { unfold input, m. f_equal. rewrite str_app_cons. f_equal.
    by rewrite str_app_assoc. }
  assert (Hlen : String.length input
                 = String.length a + String.length m + String.length rest).
  { by rewrite Hinput, !str_length_app, Nat.add_assoc. }
  assert (Hfirst : str_find "[" input 0 = Some (String.length a)).
  { unfold str_find, input. simpl. rewrite str_index_app by done.
    simpl. by rewrite Nat.add_0_r. }
  assert (Hsecond : str_find "]" input (String.length a)
                    = Some (String.length a + S (String.length b))).
  { unfold input. rewrite str_find_app. simpl.
    rewrite str_index_app by done. simpl. by rewrite Nat.add_0_r. }
  assert (Hafter : str_from (String.length a + S (String.length b)) input
                   = String "]" (c +:+ rest)).
  { unfold input. rewrite <-str_from_from, str_from_app. simpl.
    by rewrite str_from_app. }
  assert (Hslice0 : str_slice 0 (String.length a) input = a).
  { unfold str_slice, input. rewrite Nat.sub_0_r. simpl.
    by rewrite str_upto_app. }
  assert (Hk : String.length a + S (String.length b) + S (String.length c)
               = String.length a + String.length m).
  { unfold m. simpl. rewrite str_length_app. simpl. lia. }
  assert (Hslice : str_slice (String.length a)
                     (String.length a + String.length m) input = m).
  { unfold str_slice.
    replace (String.length a + String.length m - String.length a)
      with (String.length m) by lia.
    rewrite Hinput, str_from_app. apply str_upto_app. }
  assert (Hrest' : str_from (String.length a) input = m +:+ rest).
  { by rewrite Hinput, str_from_app. }
  assert (Hpos : 0 < String.length input) by (rewrite Hlen; simpl; lia).
  assert (Hend : str_from (String.length a + String.length m + 1) input
                 = str_from 1 rest).
  { rewrite Hinput, <-str_app_assoc, <-str_length_app, <-str_from_from.
    by rewrite str_from_app. }
  rewrite (split_loop_step 2).
  apply Nat.ltb_lt in Hpos as ->.
  rewrite Hfirst, Hsecond, Hslice0, app_nil_l.
  unfold str_find at 1. rewrite Hafter.
  destruct Hrest as [->|(d & -> & Hd)].
  - simpl str_index. rewrite str_app_nil_r.
    apply str_index_None in Hc as ->. simpl fmap. cbv iota.
    rewrite (split_loop_step 1), Nat.ltb_irrefl, app_nil_r.
    by rewrite Hrest', str_app_nil_r.
  - simpl str_index. rewrite str_index_app by done. simpl str_index.
    simpl fmap. cbv iota.
    rewrite Nat.add_0_r, Hk, Hslice.
    replace (String.length a + String.length m =? String.length input)
      with false by (symmetry; apply Nat.eqb_neq; rewrite Hlen; simpl; lia).
    rewrite (split_loop_step 1).
    change (str_from 1 (String ":" d)) with d in Hend.
    destruct d as [|x d].
    + replace (String.length a + String.length m + 1 <? String.length input)
        with false by (symmetry; apply Nat.ltb_ge; rewrite Hlen; simpl; lia).
      by rewrite app_nil_r.
    + replace (String.length a + String.length m + 1 <? String.length input)
        with true by (symmetry; apply Nat.ltb_lt; rewrite Hlen; simpl; lia).
      unfold str_find. rewrite Hend.
      apply str_index_None in Hd as ->. done.
Qed.

(** X10. An address in brackets stays in one piece: for an input that has an
    opening bracket after [a], the next closing bracket after [b] and then no
    colon in [c], the pieces are those of [a], of which the last goes on with
    the brackets and [c]; when a colon and [d] follow, the pieces of [d]
    follow, but none for an empty [d], where [split] gives an empty piece. *)
Theorem brackets_stay_in_one_piece (a b c d : string) :
  str_has "[" a = false → str_has "]" b = false → str_has ":" c = false →
  str_has "[" d = false →
  split_colon_ipv6 (a +:+ "[" +:+ b +:+ "]" +:+ c)
  = Some (Ok (add_to_last (str_split ":" a) ("[" +:+ b +:+ "]" +:+ c)))
  ∧ split_colon_ipv6 (a +:+ "[" +:+ b +:+ "]" +:+ c +:+ ":" +:+ d)
    = Some (Ok (add_to_last (str_split ":" a) ("[" +:+ b +:+ "]" +:+ c)
                ++ if String.eqb d "" then [] else str_split ":" d)).
Proof.
  intros Ha Hb Hc Hd.
  assert (Hrun : ∀ rest out,
    split_colon_ipv6_loop 3
      (a +:+ String "[" (b +:+ String "]" (c +:+ rest))) 0 [] = Some (Ok out) →
    split_colon_ipv6 (a +:+ String "[" (b +:+ String "]" (c +:+ rest)))
    = Some (Ok out)).
  { intros rest out Hloop. unfold split_colon_ipv6.
    rewrite str_has_app. simpl str_has. rewrite orb_true_r. cbn [negb].
    eapply split_loop_more_fuel; [|done].
    rewrite str_length_app. simpl. rewrite str_length_app. simpl. lia. }
  split.
  - pose proof (bracket_loop a b c "" Ha Hb Hc (or_introl eq_refl)) as Hloop.
    apply Hrun in Hloop. by rewrite str_app_nil_r, app_nil_r in Hloop.
  - apply (Hrun (String ":" d)).
    rewrite (bracket_loop a b c (String ":" d)) by eauto.
    by destruct d.
Qed.

Lemma brackets_stay_in_one_piece_witness :
  split_colon_ipv6 ("0:" +:+ "[" +:+ "fe80::1" +:+ "]" +:+ "")
  = Some (Ok (add_to_last (str_split ":" "0:")
                ("[" +:+ "fe80::1" +:+ "]" +:+ "")))
  ∧ split_colon_ipv6
      ("0:" +:+ "[" +:+ "fe80::1" +:+ "]" +:+ "" +:+ ":" +:+ "8080:80")
    = Some (Ok (add_to_last (str_split ":" "0:")
                  ("[" +:+ "fe80::1" +:+ "]" +:+ "")
                ++ if String.eqb "8080:80" "" then []
                   else str_split ":" "8080:80")).
Proof. apply brackets_stay_in_one_piece; reflexivity. Defined.

(** ** Resource limits *)

Lemma tracker_add_elem (self : DifferenceTracker.t) (key : string)
    (p c : value) (d : Difference) :
  d ∈ DifferenceTracker.add self key p c →
  d = {| name := key; parameter := p; active := c |} ∨ d ∈ self.
Proof.
  induction self as [|d' self IH]; simpl.
  - rewrite list_elem_of_singleton. auto.
  - destruct (String.eqb (name d') key); rewrite !elem_of_cons; [tauto|].
    intros [->|?%IH]; tauto.
Qed.

Lemma getattr_Ok (p : TaskParameters) (key : string) (v : value) :
  getattr p key = Ok v ↔ attributes p !! key = Some v.
Proof.
  unfold getattr. destruct (attributes p !! key); split; congruence.
Qed.

Lemma limits_not_renamed (key : string) :
  key ∈ limits_keys → Container.parameters_map !! key = None.
Proof.
  revert key. apply Forall_forall. apply (bool_decide_unpack _). by vm_compute.
Qed.

Lemma check_limit_keeps (self : Container.t) (differences differences' :
    DifferenceTracker.t) (key : string) (value : value) :
  key ∈ limits_keys →
  Forall (is_limit_difference self) differences →
  check_limit self differences (key, value) = Ok differences' →
  Forall (is_limit_difference self) differences'.
Proof.
  intros Hkey Hdiffs. unfold check_limit, getattr_default.
  rewrite (limits_not_renamed key Hkey). simpl.
  destruct (attributes (Container.parameters self) !! key) as [p|] eqn:Hp;
    simpl; [|by intros [= <-]].
  destruct (truthy p) eqn:Htruthy; [|by intros [= <-]].
  intros (compare & Hcompare%getitem_Ok & H)%bind_Ok.
  apply bind_Ok in H as (p' & Hp'%getattr_Ok & H).
  assert (p' = p) as -> by congruence.
  destruct (Container._compare p value compare) eqn:Hmatch; simpl in H;
    [by injection H as <-|].
  apply bind_Ok in H as (p' & Hp''%getattr_Ok & [= <-]).
  assert (p' = p) as -> by congruence.
  apply Forall_forall. intros d [->|Hd]%tracker_add_elem.
  - repeat split; simpl; eauto.
  - by eapply (proj1 (Forall_forall _ _) Hdiffs).
Qed.

(** X11. [has_different_resource_limits] reports a difference exactly when it
    has recorded one.  It records nothing for an API before 1.22; what it
    records is one of the ten limits, for a parameter that is set to
    something that is not false (a limit of [0] is never a difference), which
    does not compare equal to what the daemon reports. *)
Theorem limit_differences_are_real (self : Container.t) (different : bool)
    (differences : DifferenceTracker.t) :
  has_different_resource_limits self = Ok (different, differences) →
  different = negb (DifferenceTracker.empty differences)
  ∧ (LooseVersion_lt
       (docker_api_version (client (Container.parameters self))) [1; 22]
     = true → differences = [])
  ∧ Forall (is_limit_difference self) differences.
Proof.
  unfold has_different_resource_limits. intros H.
  step_bind H host_config Hhc. step_bind H u Hu.
  destruct (LooseVersion_lt _ _).
  { injection H as <- <-. by repeat split. }
  step_bind H host_config' Hhc'. step_bind H cm Hcm. step_bind H diffs Hdiffs.
  injection H as <- <-. split; [done|]. split; [done|].
  apply dict_of_keys in Hcm as Hkeys.
  revert Hdiffs.
  apply (for_each_invariant _ (Forall (is_limit_difference self)));
    [|by constructor].
  intros s [key value] s' Hin Hs Hbody.
  eapply check_limit_keeps; [|done..].
  change limits_keys with (Container.limits_mapping host_config').*1.
  rewrite <-Hkeys. apply list_elem_of_fmap. by exists (key, value).
Qed.

Lemma limit_differences_are_real_witness :
  true = negb (DifferenceTracker.empty
           [{| name := "memory"; parameter := VInt 2048;
               active := VInt 1024 |}])
  ∧ (LooseVersion_lt
       (docker_api_version
          (client (Container.parameters (limited_container [1; 40]))))
       [1; 22] = true →
     [{| name := "memory"; parameter := VInt 2048; active := VInt 1024 |}]
     = [])
  ∧ Forall (is_limit_difference (limited_container [1; 40]))
      [{| name := "memory"; parameter := VInt 2048; active := VInt 1024 |}].
Proof.
  apply (limit_differences_are_real (limited_container [1; 40])). reflexivity.
Defined.






(** ** [update_parameters] *)

Lemma add_update_parameter_Ok (self : TaskParameters)
    (res res' : list (string * value)) (key option : string) :
  add_update_parameter self res (key, option) = Ok res' →
  res' = res
  ∨ ∃ v, attributes self !! option = Some v ∧ v ≠ VNone
         ∧ Container.option_supported (client self) option = Ok true
         ∧ res' = dict_set res key v.
Proof.
  unfold add_update_parameter, getattr_default.
  destruct (attributes self !! option) as [v|] eqn:Hv; simpl;
    [|intros [= <-]; by left].
  destruct (is_None_reflect v) as [->|Hnone]; simpl; [intros [= <-]; by left|].
  intros ([] & Hsupported & H)%bind_Ok; [|injection H as <-; by left].
  apply bind_Ok in H as (v' & Hv'%getattr_Ok & [= <-]).
  right. exists v. by simplify_eq.
Qed.

(** X13. [update_parameters] passes an argument of [update_container] only for
    an option that is set and that the versions at hand support, and passes
    the value of the option. *)
Theorem update_parameters_are_set_and_supported (self : TaskParameters)
    (res : list (string * value)) (key : string) (v : value) :
  update_parameters self = Ok res →
  (key, v) ∈ res →
  v ≠ VNone
  ∧ ∃ option,
      (key, option) ∈ update_parameters_map
      ∧ attributes self !! option = Some v
      ∧ Container.option_supported (client self) option = Ok true.
Proof.
  unfold update_parameters. intros Hres. revert key v. revert Hres.
  apply (for_each_invariant _ (λ res, ∀ key v, (key, v) ∈ res → _));
    [|intros ?? []%elem_of_nil].
  intros s [key' option] s' Hin IH
    [->|(v' & Hv' & Hnone & Hsupported & ->)]%add_update_parameter_Ok key v;
    [apply IH|].
  intros [?|[-> ->]]%elem_of_dict_set; [by apply IH|]. eauto.
Qed.

Lemma update_parameters_are_set_and_supported_witness :
  VInt 2048 ≠ VNone
  ∧ ∃ option,
      ("mem_limit", option) ∈ update_parameters_map
      ∧ attributes (Container.parameters (limited_container [1; 40])) !! option
        = Some (VInt 2048)
      ∧ Container.option_supported
          (client (Container.parameters (limited_container [1; 40]))) option
        = Ok true.
Proof.
  eapply (update_parameters_are_set_and_supported
            (Container.parameters (limited_container [1; 40])));
    [reflexivity|].
  apply list_elem_of_further, list_elem_of_here.
Defined.

Lemma update_loop_keeps (self : TaskParameters) (l : list (string * string))
    (res res' : list (string * value)) (key : string) :
  key ∉ l.*1 →
  for_each (add_update_parameter self) l res = Ok res' →
  dict_lookup res' key = dict_lookup res key.
Proof.
  revert res. induction l as [|[k o] l IH]; intros res Hkey; simpl.
  - by intros [= <-].
  - apply not_elem_of_cons in Hkey as [Hne Hkey].
    intros (res1 & Hres1 & Hrest)%bind_Ok. rewrite (IH res1) by done.
    apply add_update_parameter_Ok in Hres1 as [->|(v & _ & _ & _ & ->)];
      [done|].
    rewrite dict_lookup_dict_set.
    by destruct (String.eqb_spec k key) as [->|_].
Qed.

Lemma update_loop_sets (self : TaskParameters) (l : list (string * string))
    (res res' : list (string * value)) (key option : string) (v : value) :
  NoDup l.*1 → (key, option) ∈ l →
  attributes self !! option = Some v → v ≠ VNone →
  Container.option_supported (client self) option = Ok true →
  for_each (add_update_parameter self) l res = Ok res' →
  dict_lookup res' key = Some v.
Proof.
  intros Hnodup Hin Hv Hnone Hsupported. revert res Hnodup Hin.
  induction l as [|[k o] l IH]; intros res Hnodup Hin;
    [by apply elem_of_nil in Hin|].
  apply NoDup_cons in Hnodup as [Hk Hnodup]. simpl in Hk |- *.
  intros (res1 & Hres1 & Hrest)%bind_Ok.
  apply elem_of_cons in Hin as [[= <- <-]|Hin]; [|by eapply IH].
  rewrite (update_loop_keeps _ _ _ _ _ Hk Hrest).
  unfold add_update_parameter, getattr_default, getattr in Hres1.
  rewrite Hv, Hsupported in Hres1. simpl in Hres1.
  destruct (is_None_reflect v); [done|]. simpl in Hres1.
  injection Hres1 as <-. rewrite dict_lookup_dict_set.
  by rewrite String.eqb_refl.
Qed.

Lemma limits_have_update_parameters (option : string) :
  option ∈ limits_keys → ∃ key, (key, option) ∈ update_parameters_map.
Proof.
  intros Hoption. assert (option ∈ update_parameters_map.*2) as Hin.
  { revert option Hoption. apply Forall_forall.
    apply (bool_decide_unpack _). by vm_compute. }
  apply list_elem_of_fmap in Hin as ([key option'] & -> & Hin). eauto.
Qed.

(** X14. A resource limit that [has_different_resource_limits] reports as
    different is among the parameters of the update that follows, with the
    requested value, when the versions at hand support the option. *)
Theorem different_limits_are_updated (self : Container.t) (different : bool)
    (differences : DifferenceTracker.t) (res : list (string * value))
    (d : Difference) :
  has_different_resource_limits self = Ok (different, differences) →
  update_parameters (Container.parameters self) = Ok res →
  d ∈ differences →
  Container.option_supported (client (Container.parameters self)) (name d)
  = Ok true →
  ∃ key, (key, name d) ∈ update_parameters_map
         ∧ dict_lookup res key = Some (parameter d).
Proof.
  intros (_ & _ & Hreal)%limit_differences_are_real Hres Hd Hsupported.
  apply (proj1 (Forall_forall _ _) Hreal) in Hd
    as (Hkey & Hp & Htruthy & _).
  destruct (limits_have_update_parameters _ Hkey) as [key Hin].
  exists key. split; [done|].
  apply (update_loop_sets (Container.parameters self) update_parameters_map
           [] res key (name d) (parameter d)); try done.
  - apply (bool_decide_unpack _). by vm_compute.
  - intros Hnone. by rewrite Hnone in Htruthy.
Qed.

Lemma different_limits_are_updated_witness :
  ∃ key, (key, "memory") ∈ update_parameters_map
         ∧ dict_lookup
             [("cpu_shares", VInt 0); ("mem_limit", VInt 2048)] key
           = Some (VInt 2048).
Proof.
  apply (different_limits_are_updated (limited_container [1; 40]) true
           [{| name := "memory"; parameter := VInt 2048;
               active := VInt 1024 |}]
           _ {| name := "memory"; parameter := VInt 2048;
                active := VInt 1024 |});
    [reflexivity|reflexivity|apply list_elem_of_here|reflexivity].
Defined.

(** ** [has_extra_networks] *)

Lemma py_eq_str (v : value) (s : string) : py_eq v (VStr s) = is_str v s.
Proof. by destruct v. Qed.

Lemma expected_loop_Ok (network : string) (expected : list value)
    (keep keep' : bool) :
  for_each (λ keep expected_network,
      let* name := py_getitem expected_network "name" in
      Ok (if py_eq name (VStr network) then true else keep : bool))
    expected keep = Ok keep' →
  keep' = keep || is_requested (VList expected) network.
Proof.
  unfold is_requested. simpl. revert keep.
  induction expected as [|en expected IH]; intros keep; simpl.
  - intros [= <-]. by rewrite orb_false_r.
  - intros (keep1 & Hen & Hrest)%bind_Ok.
    apply bind_Ok in Hen as (name & Hname & [= <-]).
    destruct en as [| | | | |d]; try done. simpl in Hname.
    apply getitem_Ok in Hname. rewrite Hname. simpl.
    rewrite (IH _ Hrest), py_eq_str.
    destruct (is_str name network), keep; done.
Qed.

Lemma is_expected_network_Ok (self : Container.t) (network : string)
    (networks : value) (keep : bool) :
  attributes (Container.parameters self) !! "networks" = Some networks →
  is_expected_network self network = Ok keep →
  keep = is_requested networks network.
Proof.
  intros Hnetworks. unfold is_expected_network, getattr.
  rewrite Hnetworks. simpl.
  destruct networks as [|b|z|s|l|d]; simpl; try by intros [= <-].
  - destruct b; simpl; [by intros [=]|by intros [= <-]].
  - destruct (z =? 0)%Z; simpl; [by intros [= <-]|by intros [=]].
  - destruct s as [|c s]; simpl; [by intros [= <-]|by intros [=]].
  - destruct l as [|en l]; [by intros [= <-]|].
    apply expected_loop_Ok.
  - destruct d as [|[k v] d]; simpl; [by intros [= <-]|by intros [=]].
Qed.

Lemma connected_loop_Ok (self : Container.t) (networks : value)
    (items : list (string * value)) (extra extra' : bool)
    (nets nets' : list value) :
  attributes (Container.parameters self) !! "networks" = Some networks →
  for_each (check_connected_network self) items (extra, nets)
  = Ok (extra', nets') →
  nets' = nets ++ (extra_network
                   <$> List.filter (λ item, negb (is_requested networks item.1))
                         items)
  ∧ extra' = extra
             || existsb (λ item, negb (is_requested networks item.1)) items.
Proof.
  intros Hnetworks. revert extra nets.
  induction items as [|[network cfg] items IH]; intros extra nets; simpl.
  - intros [= <- <-]. by rewrite app_nil_r, orb_false_r.
  - intros ([extra1 nets1] & Hitem & Hrest)%bind_Ok.
    apply IH in Hrest as [-> ->].
    apply bind_Ok in Hitem as (keep & Hkeep & Hitem).
    apply (is_expected_network_Ok _ _ networks) in Hkeep as ->; [|done].
    destruct (is_requested networks network); simpl in *.
    + by injection Hitem as <- <-.
    + apply bind_Ok in Hitem as (id & Hid & [= <- <-]).
      rewrite <-app_assoc, orb_true_r. split; [|done]. do 2 f_equal.
      unfold extra_network. simpl. destruct cfg; try done. simpl in Hid.
      apply getitem_Ok in Hid. by rewrite Hid.
Qed.

(** X15. [has_extra_networks] reports the connected networks that no
    requested network names, in the order of the inspect result, each with
    its name and id, and says that there are extra networks exactly when it
    reports one. *)
Theorem extra_networks_are_not_requested (self : Container.t)
    (settings networks : value) (connected : list (string * value))
    (extra : bool) (extra_networks : list value) :
  py_get (Container.container self) "NetworkSettings" = Ok settings →
  py_get settings "Networks" = Ok (VDict connected) →
  attributes (Container.parameters self) !! "networks" = Some networks →
  has_extra_networks self = Ok (extra, extra_networks) →
  extra_networks
  = extra_network
    <$> List.filter (λ item, negb (is_requested networks item.1)) connected
  ∧ extra = negb (bool_decide (extra_networks = [])).
Proof.
  intros Hsettings Hconnected Hnetworks. unfold has_extra_networks.
  rewrite Hsettings. simpl. intros (_ & _ & H)%bind_Ok.
  assert (py_getitem (Container.container self) "NetworkSettings"
          = Ok settings) as Hitem.
  { destruct (Container.container self) as [| | | | |d]; try done.
    simpl in *. destruct (dict_lookup d "NetworkSettings") eqn:Hd; simpl in *.
    - done.
    - injection Hsettings as <-. done. }
  rewrite Hitem in H. cbn [bind] in H. rewrite Hconnected in H.
  cbn [bind] in H.
  destruct connected as [|item connected]; cbn [bind truthy py_items] in H.
  { by injection H as <- <-. }
  apply (connected_loop_Ok _ networks) in H as [-> ->]; [|done].
  split; [done|]. rewrite app_nil_l, orb_false_l.
  generalize (item :: connected). intros l.
  induction l as [|x l IH]; [done|]. simpl.
  by destruct (negb (is_requested networks x.1)).
Qed.

Lemma extra_networks_are_not_requested_witness :
  [VDict [("name", VStr "bridge"); ("id", VStr "b1")]]
  = extra_network
    <$> List.filter
          (λ item, negb (is_requested
                           (VList [VDict [("name", VStr "backend")]]) item.1))
          [("bridge", VDict [("NetworkID", VStr "b1")]);
           ("backend", VDict [("NetworkID", VStr "b2")])]
  ∧ true = negb (bool_decide
             ([VDict [("name", VStr "bridge"); ("id", VStr "b1")]] = [])).
Proof.
  apply (extra_networks_are_not_requested connected_container
           (VDict [("Networks",
                     VDict [("bridge", VDict [("NetworkID", VStr "b1")]);
                            ("backend", VDict [("NetworkID", VStr "b2")])])]));
    reflexivity.
Defined.

(** ** The methods of the manager *)

Lemma with_attribute_dry {W} (self : ContainerManager.t W) (w : W)
    (key : string) (k : value → option (ContainerManager.ended W)) :
  (∀ v, dry_run self w (k v)) →
  dry_run self w (ContainerManager.with_attribute self w key k).
Proof.
  intros Hk. unfold ContainerManager.with_attribute.
  destruct (getattr _ key) as [v|err] eqn:Hget; [apply Hk|].
  eexists. split; [done|]. simpl. split; [done|]. split; [done|].
  split; [done|]. intros ? [= <-]. split; [done|].
  unfold getattr in Hget. destruct (attributes _ !! key); [done|].
  injection Hget as <-. eauto.
Qed.

Lemma recorded_is_dry {W} (self : ContainerManager.t W) (w : W)
    (action : value) :
  dry_run self w
    (ContainerManager.ends (Ok VNone)
       (ContainerManager.record_action self action) w []).
Proof.
  eexists. split; [done|]. simpl. split; [done|]. split; [done|].
  split; [|done]. intros ? [= <-]. eauto.
Qed.

(** X16. In check mode [container_remove], [container_stop] and
    [container_kill] make no call to the daemon and leave it as it is; they
    return [None] with their action recorded and [changed] set, unless an
    attribute of the parameters is missing. *)
Theorem check_mode_makes_no_call {W} (self : ContainerManager.t W)
    (container_id : string) (link force : bool) (fuel : nat) (w : W) :
  ContainerManager.check_mode self = true →
  dry_run self w
    (ContainerManager.container_remove fuel self container_id link force w)
  ∧ dry_run self w (ContainerManager.container_stop fuel self container_id w)
  ∧ dry_run self w (ContainerManager.container_kill self container_id w).
Proof.
  intros Hcheck.
  assert (Hkill : dry_run self w
            (ContainerManager.container_kill self container_id w)).
  { apply with_attribute_dry. intros kill_signal. simpl. rewrite Hcheck.
    apply recorded_is_dry. }
  split; [|split; [|done]].
  - apply with_attribute_dry. intros keep_volumes. simpl. rewrite Hcheck.
    apply recorded_is_dry.
  - apply with_attribute_dry. intros force_kill.
    destruct (truthy force_kill).
    + destruct Hkill as (e & -> & Hcalls & Hdaemon & Hok & Herr).
      destruct (ContainerManager.outcome e) as [v|err] eqn:Houtcome.
      * destruct (Hok v eq_refl) as (_ & Hchanged & Haction).
        eexists. split; [done|]. simpl. split; [done|]. split; [done|].
        split; [|done]. by intros ? [= <-].
      * exists e. split; [done|]. split; [done|]. split; [done|].
        rewrite Houtcome. split; [done|]. intros ? [= <-]. by apply Herr.
    + apply with_attribute_dry. intros stop_timeout. simpl. rewrite Hcheck.
      apply recorded_is_dry.
Qed.

Lemma check_mode_makes_no_call_witness :
  dry_run dry_manager 0
    (ContainerManager.container_remove 4 dry_manager "web" false false 0)
  ∧ dry_run dry_manager 0 (ContainerManager.container_stop 4 dry_manager "web" 0)
  ∧ dry_run dry_manager 0 (ContainerManager.container_kill dry_manager "web" 0).
Proof. apply check_mode_makes_no_call. reflexivity. Defined.

Lemma remove_loop_Ok {W} (fuel : nat) (self : ContainerManager.t W)
    (container_id : string) (volume_state link force : bool) (count : nat)
    (w : W) (cs : list call) (e : ContainerManager.ended W) (v : value) :
  ContainerManager.remove_loop fuel self container_id volume_state link force
    count w cs = Some e →
  ContainerManager.outcome e = Ok v →
  ∃ r, last (ContainerManager.calls e) = Some (called_remove_container r)
       ∧ removal_done r v.
Proof.
  revert count w cs.
  induction fuel as [|fuel IH]; intros count w cs; simpl; [done|].
  destruct (ContainerManager.remove_container _ _ _ _ _ w) as [r w1].
  destruct r as [response|[ex text|[ex|] text|text]]; simpl;
    try (intros [= <-]; simpl; intros [= <-]; eexists;
         by rewrite last_snoc);
    try by intros [= <-].
  destruct (str_contains paused_message ex) eqn:Hpaused.
  - destruct (count =? 3); [by intros [= <-]|].
    destruct (ContainerManager.unpause _ _ w1) as [[u|exc] w2];
      [apply IH|by intros [= <-]].
  - destruct (str_contains "removal of container " ex
              && str_contains " is already in progress" ex) eqn:Hgone;
      [|by intros [= <-]].
    apply andb_true_iff in Hgone as [? ?].
    intros [= <-]; simpl; intros [= <-]. eexists.
    by rewrite last_snoc.
Qed.

(** X17. [container_remove] returns only after a call of [remove_container]
    that settles the matter: the call returned, or it raised [NotFound], or
    it raised an [APIError] that says that the removal is already in
    progress; in the last two cases the method returns [None]. *)
Theorem removal_succeeds_when_the_container_is_gone {W}
    (self : ContainerManager.t W) (container_id : string) (link force : bool)
    (fuel : nat) (w : W) (e : ContainerManager.ended W) (v : value) :
  ContainerManager.check_mode self = false →
  ContainerManager.container_remove fuel self container_id link force w
  = Some e →
  ContainerManager.outcome e = Ok v →
  ∃ r, last (ContainerManager.calls e) = Some (called_remove_container r)
       ∧ removal_done r v.
Proof.
  intros Hcheck. unfold ContainerManager.container_remove,
    ContainerManager.with_attribute.
  destruct (getattr _ "keep_volumes") as [keep_volumes|err];
    [|by intros [= <-]].
  simpl. rewrite Hcheck. simpl. apply remove_loop_Ok.
Qed.

Lemma removal_succeeds_when_the_container_is_gone_witness :
  ∃ r, last [called_remove_container
               (Raised (NotFound (Some "No such container") "404"))]
       = Some (called_remove_container r)
       ∧ removal_done r VNone.
Proof.
  apply (removal_succeeds_when_the_container_is_gone (gone_manager false)
           "web" false false 1 0
           {| ContainerManager.outcome := Ok VNone;
              ContainerManager.manager :=
                ContainerManager.record_action (gone_manager false)
                  (VDict [("removed", VStr "web");
                          ("volume_state", VBool false);
                          ("link", VBool false); ("force", VBool false)]);
              ContainerManager.daemon := 1;
              ContainerManager.calls :=
                [called_remove_container
                   (Raised (NotFound (Some "No such container") "404"))] |});
    reflexivity.
Defined.

(** X18. With [force_kill], [container_stop] kills: it makes no call but one
    [kill] at most, never [stop] or [unpause], and returns [None] when the
    kill succeeded, whatever the kill returned. *)
Theorem force_kill_replaces_stop {W} (self : ContainerManager.t W)
    (container_id : string) (fuel : nat) (w : W) (force_kill : value)
    (e : ContainerManager.ended W) :
  attributes (ContainerManager.parameters self) !! "force_kill"
  = Some force_kill →
  truthy force_kill = true →
  ContainerManager.container_stop fuel self container_id w = Some e →
  Forall (λ c, is_kill c = true) (ContainerManager.calls e)
  ∧ length (ContainerManager.calls e) ≤ 1
  ∧ (ContainerManager.check_mode self = false →
     length (ContainerManager.calls e) = 1
     ∨ ∃ attr, ContainerManager.outcome e = Err (AttributeError attr))
  ∧ ∀ v, ContainerManager.outcome e = Ok v → v = VNone.
Proof.
  intros Hforce Htruthy. unfold ContainerManager.container_stop,
    ContainerManager.with_attribute at 1, getattr.
  rewrite Hforce, Htruthy.
  unfold ContainerManager.container_kill, ContainerManager.with_attribute,
    getattr.
  destruct (attributes _ !! "kill_signal") as [kill_signal|]; simpl.
  - destruct (ContainerManager.check_mode self); simpl.
    + intros [= <-]. simpl. split; [constructor|]. split; [lia|].
      split; [done|]. by intros ? [= <-].
    + destruct (ContainerManager.kill _ _ _ w) as [[response|exc] w1]; simpl;
        intros [= <-]; simpl.
      * split; [by repeat constructor|]. split; [lia|]. split; [by left|].
        by intros ? [= <-].
      * split; [by repeat constructor|]. split; [lia|]. split; [by left|].
        done.
  - intros [= <-]. simpl. split; [constructor|]. split; [lia|].
    split; [|done]. right. eauto.
Qed.

Lemma force_kill_replaces_stop_witness :
  Forall (λ c, is_kill c = true) [called_kill (Returned (VStr "killed"))]
  ∧ length [called_kill (Returned (VStr "killed"))] ≤ 1
  ∧ (ContainerManager.check_mode (gone_manager true) = false →
     length [called_kill (Returned (VStr "killed"))] = 1
     ∨ ∃ attr, Ok VNone = Err (AttributeError attr))
  ∧ ∀ v, Ok VNone = Ok v → v = VNone.
Proof.
  apply (force_kill_replaces_stop (gone_manager true) "web" 1 0 (VBool true)
           {| ContainerManager.outcome := Ok VNone;
              ContainerManager.manager :=
                ContainerManager.record_action (gone_manager true)
                  (VDict [("killed", VStr "web"); ("signal", VNone)]);
              ContainerManager.daemon := 1;
              ContainerManager.calls :=
                [called_kill (Returned (VStr "killed"))] |});
    reflexivity.
Defined.

(** ** The failures of [_parse_comparisons] *)

Lemma bind_Err {A B} (m : result A) (f : A → result B) (e : exn) :
  bind m f = Err e → m = Err e ∨ ∃ a, m = Ok a ∧ f a = Err e.
Proof. destruct m as [a|e']; simpl; [eauto|intros [= <-]; by left]. Qed.

Lemma getitem_Err {A} (o : option A) (key : string) (e : exn) :
  getitem o key = Err e → e = KeyError key.
Proof. destruct o; simpl; congruence. Qed.

Lemma assign_comparison_Err (comparisons : gmap string compare_spec)
    (option : string) (mode : comparison_mode) (e : exn) :
  assign_comparison comparisons option mode = Err e → e = KeyError option.
Proof.
  unfold assign_comparison.
  intros [?%getitem_Err|(? & _ & [=])]%bind_Err. done.
Qed.

(** Takes the first bind of a hypothesis saying that a sequence failed. *)
Tactic Notation "step_Err" hyp(H) ident(x) ident(Hx) :=
  apply bind_Err in H as [H|(x & Hx & H)].

Ltac is_KeyError H :=
  first [apply getitem_Err in H|apply assign_comparison_Err in H];
  subst; eauto.

Lemma put_in_defaults_Err (common : list string) (module : AnsibleModule)
    (e : exn) :
  put_in_defaults common module = Err e → ∃ k, e = KeyError k.
Proof.
  intros (x & s & _ & H)%for_each_Err. destruct x as [option data].
  unfold add_option in H. destruct (_ && _); [done|].
  step_Err H type Htype; [|done].
  destruct (explicit_types !! option); [done|].
  step_Err H declared Hdeclared; [|done]. is_KeyError H.
Qed.

Lemma process_legacy_Err (module : AnsibleModule)
    (comparisons : gmap string compare_spec) (e : exn) :
  process_legacy module comparisons = Err e → ∃ k, e = KeyError k.
Proof.
  unfold process_legacy. intros H.
  step_Err H ignore_image Hii; [is_KeyError H|].
  step_Err H c1 Hc1.
  { destruct (truthy ignore_image); [is_KeyError H|done]. }
  step_Err H purge_networks Hpn; [is_KeyError H|].
  destruct (truthy purge_networks); [is_KeyError H|done].
Qed.

Lemma add_implicit_Err (comparisons : gmap string compare_spec) (e : exn) :
  add_implicit comparisons = Err e → ∃ k, e = KeyError k.
Proof.
  unfold add_implicit. intros H.
  step_Err H published_ports Hpp; [is_KeyError H|].
  step_Err H healthcheck Hhc; [is_KeyError H|done].
Qed.

Lemma check_legacy_Err (module : AnsibleModule)
    (comparisons : gmap string compare_spec) (e : exn) :
  check_legacy module comparisons = Err e → ∃ k, e = KeyError k.
Proof.
  unfold check_legacy. intros H.
  step_Err H ignore_image Hii; [is_KeyError H|].
  step_Err H warn_image Hwi.
  { destruct (truthy ignore_image); [|done].
    step_Err H image Himage; [is_KeyError H|done]. }
  step_Err H purge_networks Hpn; [is_KeyError H|].
  step_Err H warn_networks Hwn; [|done].
  destruct (truthy purge_networks); [|done].
  step_Err H networks Hnetworks; [is_KeyError H|done].
Qed.

(** The other messages are not the one of [cannot_be_specified]. *)
Ltac other_message :=
  let key := fresh "key" in
  intros key; unfold cannot_be_specified; rewrite ?str_app_cons; discriminate.

Lemma process_wildcard_Err (module : AnsibleModule) (value : value)
    (comparisons : gmap string compare_spec) (e : exn) :
  process_wildcard module value comparisons = Err e →
  ∀ key, e ≠ fail_json (cannot_be_specified key).
Proof.
  unfold process_wildcard. intros H.
  step_Err H u Hu.
  { destruct (negb _); [|done]. injection H as <-. other_message. }
  step_Err H skip Hskip; [|done].
  destruct (comparisons !! "networks"); [|done].
  step_Err H networks Hnetworks; [|done].
  apply getitem_Err in H as ->. done.
Qed.

Lemma process_comparison_Err (d : defaults) (st : overrides)
    (item : string * value) (e : exn) :
  process_comparison d st item = Err e →
  ∀ key, e ≠ fail_json (cannot_be_specified key).
Proof.
  destruct item as [k value]. unfold process_comparison.
  destruct (String.eqb k "*"); [done|].
  destruct (d_comp_aliases d !! k) as [key_main|].
  - intros H. step_Err H u Hu.
    { destruct (o_comp_aliases_used st !! key_main); [|done].
      injection H as <-. other_message. }
    step_Err H comparisons Hassign; [|done].
    destruct (is_str value "strict");
      [by apply assign_comparison_Err in H as ->|].
    destruct (is_str value "ignore");
      [by apply assign_comparison_Err in H as ->|].
    destruct (is_str value "allow_more_present").
    + step_Err H v Hv; [by apply getitem_Err in H as ->|].
      step_Err H u' Hu'; [|by apply assign_comparison_Err in H as ->].
      destruct (bool_decide _); [|done]. injection H as <-. other_message.
    + injection H as <-. other_message.
  - simpl. intros [= <-]. other_message.
Qed.

Lemma process_options_Err (module : AnsibleModule) (d : defaults)
    (comparisons : gmap string compare_spec) (e : exn) :
  process_options module d comparisons = Err e →
  ∀ key, e ≠ fail_json (cannot_be_specified key).
Proof.
  unfold process_options. destruct (truthy _); [|done].
  destruct (default VNone _) as [| | | | |items]; try by intros [= <-].
  intros H. step_Err H c1 Hc1.
  { destruct (dict_lookup items "*"); [|done].
    by eapply process_wildcard_Err. }
  step_Err H st Hst; [|done].
  apply for_each_Err in H as (x & s & _ & H).
  by eapply process_comparison_Err.
Qed.

(** X19. [_parse_comparisons] never fails with the message that an option
    "cannot be specified in the comparisons dict, since it does not
    correspond to container's state": the test before it looks for [None]
    among the options. *)
Theorem cannot_be_specified_is_never_reported (common : list string)
    (module : AnsibleModule) (key : string) :
  _parse_comparisons common module ≠ Err (fail_json (cannot_be_specified key)).
Proof.
  intros H. unfold _parse_comparisons in H.
  step_Err H d Hd; [by apply put_in_defaults_Err in H as [? ?]|].
  step_Err H c1 Hc1; [by apply process_legacy_Err in H as [? ?]|].
  step_Err H c2 Hc2; [by eapply process_options_Err in H|].
  step_Err H c3 Hc3; [by apply add_implicit_Err in H as [? ?]|].
  step_Err H warnings Hw; [by apply check_legacy_Err in H as [? ?]|done].
Qed.

(** ** The keys that [_parse_comparisons] accepts *)

Lemma for_each_Ok_elem {A S} (body : S → A → result S) (l : list A)
    (st st' : S) (x : A) :
  for_each body l st = Ok st' → x ∈ l → ∃ s s', body s x = Ok s'.
Proof.
  revert st. induction l as [|y l IH]; intros st; simpl.
  - by intros _ ?%elem_of_nil.
  - intros (s & Hs & Hrest)%bind_Ok [->|Hin]%elem_of_cons; eauto.
Qed.

Lemma foldl_insert_lookup (option : string) (aliases : list string)
    (m : gmap string string) (alias main : string) :
  foldl (λ m alias, <[alias := option]> m) m aliases !! alias = Some main →
  (alias ∈ aliases ∧ main = option) ∨ m !! alias = Some main.
Proof.
  revert m. induction aliases as [|a aliases IH]; intros m; simpl; [eauto|].
  intros [[? ->]|H]%IH; [left; split; [by right|done]|].
  apply lookup_insert_Some in H as [[<- <-]|[_ H]]; [|by right].
  left. split; [by left|done].
Qed.

(** Every name that the first loop records stands for an option of the
    argument spec that is a property of the container: the option itself or
    one of its aliases. *)
Lemma comp_aliases_name_options (common : list string) (module : AnsibleModule)
    (d : defaults) (alias main : string) :
  put_in_defaults common module = Ok d →
  d_comp_aliases d !! alias = Some main →
  ∃ data, (main, data) ∈ argument_spec module
          ∧ (alias = main ∨ alias ∈ aliases_of data)
          ∧ (main ∈ NON_CONTAINER_PROPERTY_OPTIONS common → main = "networks").
Proof.
  unfold put_in_defaults. intros Hd. revert alias main.
  revert Hd. apply (for_each_invariant _ (λ s, ∀ alias main,
    d_comp_aliases s !! alias = Some main →
    ∃ data, (main, data) ∈ argument_spec module
            ∧ (alias = main ∨ alias ∈ aliases_of data)
            ∧ (main ∈ NON_CONTAINER_PROPERTY_OPTIONS common
               → main = "networks"))).
  - intros s [option data] s' Hin IH. unfold add_option.
    destruct (bool_decide _ && negb _) eqn:Hskip; [intros [= <-]; apply IH|].
    intros H. step_bind H type Htype. injection H as <-. simpl.
    intros alias main [[Halias ->]|H]%foldl_insert_lookup.
    + exists data. split; [done|]. split; [by right|].
      apply andb_false_iff in Hskip as [Hnon|Hnet].
      * apply bool_decide_eq_false in Hnon. by intros ?.
      * intros _. apply negb_false_iff in Hnet. by apply String.eqb_eq.
    + apply lookup_insert_Some in H as [[<- <-]|[_ H]]; [|by apply IH].
      exists data. split; [done|]. split; [by left|].
      apply andb_false_iff in Hskip as [Hnon|Hnet].
      * apply bool_decide_eq_false in Hnon. by intros ?.
      * intros _. apply negb_false_iff in Hnet. by apply String.eqb_eq.
  - intros alias main. simpl. by rewrite lookup_empty.
Qed.

(** X20. When [_parse_comparisons] succeeds, every key of the [comparisons]
    parameter other than ['*'] is an option of the argument spec, or one of
    its aliases, and that option is a property of the container: it is
    [networks] or none of the options that are not. *)
Theorem accepted_keys_are_container_options (common : list string)
    (module : AnsibleModule) (items : list (string * value))
    (key : string) (value : value)
    (comparisons : gmap string compare_spec) (warnings : list string) :
  params module !! "comparisons" = Some (VDict items) →
  (key, value) ∈ items →
  key ≠ "*" →
  _parse_comparisons common module = Ok (comparisons, warnings) →
  ∃ option data,
    (option, data) ∈ argument_spec module
    ∧ (key = option ∨ key ∈ aliases_of data)
    ∧ (option ∈ NON_CONTAINER_PROPERTY_OPTIONS common → option = "networks")
    ∧ mode_of value ≠ None.
Proof.
  intros Hparam Hin Hkey
    (d & c1 & c2 & Hd & _ & Hoptions & _)%parse_comparisons_Ok.
  eapply process_options_Ok in Hoptions
    as (c1' & st & _ & Hloop & _); [|done|by eapply elem_of_items_nonempty].
  destruct (for_each_Ok_elem _ _ _ _ _ Hloop Hin) as (s & s' & Hbody).
  apply process_comparison_Ok in Hbody
    as [[-> _]|(_ & main & mode & v & Hmain & _ & Hmode & _)]; [done|].
  destruct (comp_aliases_name_options _ _ _ _ _ Hd Hmain)
    as (data & ? & ? & ?).
  exists main, data. by rewrite Hmode.
Qed.

Lemma accepted_keys_are_container_options_witness :
  ∃ option data,
    (option, data) ∈ main_argument_spec
    ∧ ("image" = option ∨ "image" ∈ aliases_of data)
    ∧ (option ∈ NON_CONTAINER_PROPERTY_OPTIONS [] → option = "networks")
    ∧ mode_of (VStr "strict") ≠ None.
Proof.
  apply (accepted_keys_are_container_options []
    (example_module [("*", VStr "ignore"); ("image", VStr "strict")] VNone)
    [("*", VStr "ignore"); ("image", VStr "strict")] "image" (VStr "strict")
    image_only_table []).
  - reflexivity.
  - repeat constructor.
  - discriminate.
  - reflexivity.
Defined.

(** ** The table that [_parse_comparisons] returns *)

(** X21. In every table that [_parse_comparisons] returns, whatever the task
    asks for, [publish_all_ports] is a value that is compared strictly,
    [expected_ports] is a dict that is compared as [published_ports] is, and
    [disable_healthcheck] is a value that is ignored when [healthcheck] is
    ignored and compared strictly otherwise. *)
Theorem implicit_entries_follow_their_options (common : list string)
    (module : AnsibleModule) (comparisons : gmap string compare_spec)
    (warnings : list string) :
  _parse_comparisons common module = Ok (comparisons, warnings) →
  ∃ published_ports healthcheck,
    comparisons !! "published_ports" = Some published_ports
    ∧ comparisons !! "healthcheck" = Some healthcheck
    ∧ comparisons !! "publish_all_ports"
      = Some {| c_type := type_value; c_comparison := strict;
                c_name := "published_ports" |}
    ∧ comparisons !! "expected_ports"
      = Some {| c_type := type_dict;
                c_comparison := c_comparison published_ports;
                c_name := "expected_ports" |}
    ∧ comparisons !! "disable_healthcheck"
      = Some {| c_type := type_value;
                c_comparison :=
                  match c_comparison healthcheck with
                  | ignore => ignore
                  | _ => strict
                  end;
                c_name := "disable_healthcheck" |}.
Proof.
  intros (d & c1 & c2 & _ & _ & _ & H)%parse_comparisons_Ok.
  unfold add_implicit in H.
  step_bind H published_ports Hpp. step_bind H healthcheck Hhc.
  apply getitem_Ok in Hpp, Hhc. injection H as <-.
  rewrite lookup_insert_ne in Hpp by done.
  rewrite !lookup_insert_ne in Hhc by done.
  exists published_ports, healthcheck.
  split; [by rewrite !lookup_insert_ne|].
  split; [by rewrite !lookup_insert_ne|].
  split; [rewrite !lookup_insert_ne by done; by rewrite lookup_insert_eq|].
  split; [rewrite lookup_insert_ne by done; by rewrite lookup_insert_eq|].
  rewrite lookup_insert_eq. by destruct (c_comparison healthcheck).
Qed.

Lemma implicit_entries_follow_their_options_witness :
  ∃ published_ports healthcheck,
    image_only_table !! "published_ports" = Some published_ports
    ∧ image_only_table !! "healthcheck" = Some healthcheck
    ∧ image_only_table !! "publish_all_ports"
      = Some {| c_type := type_value; c_comparison := strict;
                c_name := "published_ports" |}
    ∧ image_only_table !! "expected_ports"
      = Some {| c_type := type_dict;
                c_comparison := c_comparison published_ports;
                c_name := "expected_ports" |}
    ∧ image_only_table !! "disable_healthcheck"
      = Some {| c_type := type_value;
                c_comparison :=
                  match c_comparison healthcheck with
                  | ignore => ignore
                  | _ => strict
                  end;
                c_name := "disable_healthcheck" |}.
Proof.
  apply (implicit_entries_follow_their_options []
    (example_module [("*", VStr "ignore"); ("image", VStr "strict")] VNone)
    image_only_table []).
  reflexivity.
Defined.

(** After the first loop every entry carries the name of its option and the
    comparison that goes with its type. *)
Lemma put_in_defaults_by_type (common : list string) (module : AnsibleModule)
    (d : defaults) (option : string) (v : compare_spec) :
  put_in_defaults common module = Ok d →
  d_comparisons d !! option = Some v →
  c_name v = option ∧ c_comparison v = default_comparison option (c_type v).
Proof.
  unfold put_in_defaults. intros Hd. revert option v.
  revert Hd. apply (for_each_invariant _ (λ s, ∀ option v,
    d_comparisons s !! option = Some v →
    c_name v = option
    ∧ c_comparison v = default_comparison option (c_type v))).
  - intros s [o data] s' _ IH. unfold add_option.
    destruct (_ && _); [intros [= <-]; apply IH|].
    intros H. step_bind H type Htype. injection H as <-. simpl.
    intros option v [[<- <-]|[_ H]]%lookup_insert_Some; [|by apply IH].
    done.
  - intros option v. simpl. by rewrite lookup_empty.
Qed.

(** X22. For a task without [comparisons], [ignore_image] and
    [purge_networks], [_parse_comparisons] issues no warning, and every entry
    of its table other than the three implicit ones is compared by its type:
    strictly for a value or a list, with [allow_more_present] for a set, a
    dict or a set of dicts, and [stop_timeout] is ignored. *)
Theorem default_comparison_follows_type (common : list string)
    (module : AnsibleModule) (ignore_image purge_networks : value)
    (comparisons : gmap string compare_spec) (warnings : list string) :
  params module !! "ignore_image" = Some ignore_image →
  truthy ignore_image = false →
  params module !! "purge_networks" = Some purge_networks →
  truthy purge_networks = false →
  truthy (default VNone (params module !! "comparisons")) = false →
  _parse_comparisons common module = Ok (comparisons, warnings) →
  warnings = []
  ∧ ∀ option v,
      option ∉ implicit_options →
      comparisons !! option = Some v →
      c_name v = option
      ∧ c_comparison v = default_comparison option (c_type v).
Proof.
  intros Hii Hignore Hpn Hpurge Hgiven H. unfold _parse_comparisons in H.
  step_bind H d Hd. step_bind H c1 Hc1. step_bind H c2 Hc2.
  step_bind H c3 Hc3. step_bind H w Hw. injection H as <- <-.
  unfold process_legacy in Hc1. rewrite Hii, Hpn in Hc1. simpl in Hc1.
  rewrite Hignore in Hc1. simpl in Hc1. rewrite Hpurge in Hc1.
  injection Hc1 as <-.
  unfold process_options in Hc2. rewrite Hgiven in Hc2. injection Hc2 as <-.
  unfold check_legacy in Hw. rewrite Hii, Hpn in Hw. simpl in Hw.
  rewrite Hignore in Hw. simpl in Hw. rewrite Hpurge in Hw. simpl in Hw.
  injection Hw as <-. split; [done|].
  intros option v Hoption Hv.
  apply add_implicit_Ok in Hc3 as [Hkeeps _].
  rewrite Hkeeps in Hv by done. by eapply put_in_defaults_by_type.
Qed.

Lemma default_comparison_follows_type_witness :
  @nil string = []
  ∧ ∀ option v,
      option ∉ implicit_options →
      plain_table !! option = Some v →
      c_name v = option
      ∧ c_comparison v = default_comparison option (c_type v).
Proof.
  apply (default_comparison_follows_type [] plain_module
           (VBool false) (VBool false) plain_table []); reflexivity.
Defined.
